(** * wp-html-snippet: the AI service and the application around it

    A shallow embedding of the AI service module of the application (the
    second part of [src/vite-env.d.ts]: [parseJsonResponse], [withRetry],
    [validateApiKey], [getOpportunityScores], [generateToolIdeas],
    [cleanStreamChunk], [generateStream]) and the properties its
    specification states about it, followed by the modules that use the
    service: the score cache ([opportunityScoreCache.ts]), the application
    context with its reducer and handlers ([AppContext.tsx]), the WordPress
    client ([wordpressService.ts]), the generation dialog
    ([ToolGenerationModal]) and the dashboard.

    Conventions of the embedding.
    - JavaScript strings are [string]s of 8-bit characters (the Latin-1
      part of the UTF-16 code units); in that range the white space of
      [String.prototype.trim] and of the regular-expression class [\s] is
      the set [{9,10,11,12,13,32,160}].
    - Code that can throw returns a [result]; asynchronous code is written
      in state-passing style over the state the caller observes.
    - Platform built-ins ([JSON.parse], the provider transport, the
      requests to the site, the quota of [localStorage], the clock) are
      parameters of the sections and functions that use them; a reference
      JSON parser is supplied to run the code on concrete texts.
    - What the providers and the site answer is a JSON value; the data the
      application keeps is taken at its declared types. *)

From Stdlib Require Import String Ascii List ZArith QArith Bool Arith Lia.
From Stdlib Require Import Permutation Sorted DecimalString.
Import ListNotations.

Close Scope Q_scope.

Open Scope string_scope.
Open Scope list_scope.
Open Scope nat_scope.

(** String concatenation, written apart from list concatenation. *)
Infix "+++" := String.append (right associativity, at level 60).

(** ** JavaScript string operations used by the service *)

Module Js.

(** White space of [trim] and of [\s], restricted to 8-bit characters. *)
Definition is_space (c : ascii) : bool :=
  let n := nat_of_ascii c in
  ((9 <=? n) && (n <=? 13)) || (n =? 32) || (n =? 160).

(** [s.startsWith(pat)] *)
Fixpoint startsWith (pat s : string) : bool :=
  match pat with
  | EmptyString => true
  | String p pat' =>
      match s with
      | EmptyString => false
      | String c s' => Ascii.eqb p c && startsWith pat' s'
      end
  end.

(** [s.includes(pat)] *)
Fixpoint includes (pat s : string) : bool :=
  startsWith pat s
  || match s with
     | EmptyString => false
     | String _ s' => includes pat s'
     end.

(** [s.substring(n)] *)
Fixpoint drop (n : nat) (s : string) : string :=
  match n, s with
  | 0, _ => s
  | S _, EmptyString => EmptyString
  | S k, String _ s' => drop k s'
  end.

(** [s.replace(/pat/g, '')] for a literal, non-empty [pat]: the
    occurrences are found left to right and do not overlap.  [skip]
    counts the characters of the occurrence being deleted that are still
    to be dropped. *)
Fixpoint removeAll_from (pat : string) (skip : nat) (s : string) : string :=
  match s with
  | EmptyString => EmptyString
  | String c s' =>
      match skip with
      | S k => removeAll_from pat k s'
      | 0 =>
          if startsWith pat s
          then removeAll_from pat (String.length pat - 1) s'
          else String c (removeAll_from pat 0 s')
      end
  end.

Definition removeAll (pat s : string) : string := removeAll_from pat 0 s.

(** [s.trimStart()], [s.trimEnd()], [s.trim()] *)
Fixpoint trimStart (s : string) : string :=
  match s with
  | EmptyString => EmptyString
  | String c s' => if is_space c then trimStart s' else s
  end.

Fixpoint all_space (s : string) : bool :=
  match s with
  | EmptyString => true
  | String c s' => is_space c && all_space s'
  end.

Fixpoint trimEnd (s : string) : string :=
  match s with
  | EmptyString => EmptyString
  | String c s' => if all_space s then EmptyString else String c (trimEnd s')
  end.

Definition trim (s : string) : string := trimEnd (trimStart s).

(** [s.split(sep)] for a one-character separator: never empty. *)
Fixpoint split (sep : ascii) (s : string) : list string :=
  match s with
  | EmptyString => [EmptyString]
  | String c s' =>
      if Ascii.eqb c sep then EmptyString :: split sep s'
      else match split sep s' with
           | h :: t => String c h :: t
           | [] => [String c EmptyString]
           end
  end.

(** [l.slice(a, b)] for [0 <= a <= b]. *)
Definition slice {A} (l : list A) (a b : nat) : list A :=
  firstn (b - a) (skipn a l).

(** Truthiness of a string: the empty string is the only falsy one. *)
Definition nonempty (s : string) : bool :=
  match s with EmptyString => false | _ => true end.

End Js.

(** ** Data model ([types.ts]) *)

Inductive AiProvider := Gemini | OpenAI | Anthropic | OpenRouter.

Record WordPressPost := {
  id : Z;
  title_rendered : string;
  content_rendered : string;
  link : string
}.

(** ** Batching ([getOpportunityScores], the partition loop) *)

Definition SCORE_BATCH_SIZE : nat := 8.
Definition MAX_CONCURRENT_REQUESTS : nat := 6.

(** [for (let i = 0; i < posts.length; i += SCORE_BATCH_SIZE)
      postBatches.push(posts.slice(i, i + SCORE_BATCH_SIZE));]
    The loop is driven by [fuel]; [postBatches] gives it as many rounds as
    there are posts, which is never exhausted (see [batch_loop_fuel]). *)
Fixpoint batch_loop {A} (fuel : nat) (posts : list A) (i : nat)
    (postBatches : list (list A)) : list (list A) :=
  match fuel with
  | 0 => postBatches
  | S fuel' =>
      if i <? List.length posts
      then batch_loop fuel' posts (i + SCORE_BATCH_SIZE)
             (postBatches ++ [Js.slice posts i (i + SCORE_BATCH_SIZE)])
      else postBatches
  end.

Definition postBatches {A} (posts : list A) : list (list A) :=
  batch_loop (List.length posts) posts 0 [].

(** ** Errors and results *)

(** A thrown value, as far as the service inspects it: [String(error)]
    uses [name] and [message], [withRetry] reads [status] and [message]. *)
Record JsError := {
  name : string;
  message : option string;
  status : option Z
}.

Definition mkError (msg : string) : JsError :=
  {| name := "Error"; message := Some msg; status := None |}.

(** Reading a property of [undefined] or [null], or calling a method that
    the receiver does not have. *)
Definition TypeError : JsError :=
  {| name := "TypeError"; message := Some "not an object or not a function";
     status := None |}.

(** [`${error}`], that is [Error.prototype.toString]. *)
Definition render (e : JsError) : string :=
  match message e with
  | None | Some EmptyString => name e
  | Some m => match name e with
              | EmptyString => m
              | n => n +++ ": " +++ m
              end
  end.

Inductive result (A : Type) : Type :=
| Ok (a : A)
| Throw (e : JsError).
Arguments Ok {A} a.
Arguments Throw {A} e.

Definition bind {A B} (r : result A) (k : A -> result B) : result B :=
  match r with
  | Ok a => k a
  | Throw e => Throw e
  end.

Notation "x <- r ;; k" := (bind r (fun x => k))
  (at level 61, r at next level, right associativity).

(** ** JSON values *)

(** What [JSON.parse] returns.  A number is the exact decimal its literal
    denotes, in lowest terms (the rounding to binary64 is not modelled); an
    object keeps its members in source order, a later duplicate key
    shadowing an earlier one on lookup. *)
#[warnings="-register-all"]
Inductive json :=
| JNull
| JBool (b : bool)
| JNum (q : Q)
| JStr (s : string)
| JArr (items : list json)
| JObj (members : list (string * json)).

(** A JavaScript value read out of a JSON structure: [None] is
    [undefined]. *)
Definition value := option json.

Fixpoint lookup (k : string) (members : list (string * json)) : value :=
  match members with
  | [] => None
  | (k', v) :: rest =>
      match lookup k rest with
      | Some later => Some later
      | None => if String.eqb k k' then Some v else None
      end
  end.

(** [v.k] for the property names the service reads ([posts], [choices],
    [delta], [content], [type], [text], [id]): none of them is inherited by
    strings, numbers, booleans or arrays. *)
Definition getProp (v : value) (k : string) : result value :=
  match v with
  | None | Some JNull => Throw TypeError
  | Some (JObj members) => Ok (lookup k members)
  | Some _ => Ok None
  end.

(** [v[0]] *)
Definition getIndex0 (v : value) : result value :=
  match v with
  | None | Some JNull => Throw TypeError
  | Some (JArr items) => Ok (hd_error items)
  | Some (JStr (String c _)) => Ok (Some (JStr (String c EmptyString)))
  | Some (JObj members) => Ok (lookup "0" members)
  | Some _ => Ok None
  end.

(** [v?.k] and [v?.[0]]: [None] in the result of the first component is a
    short-circuited chain. *)
Definition isNullish (v : value) : bool :=
  match v with
  | None | Some JNull => true
  | Some _ => false
  end.

Definition truthy (v : value) : bool :=
  match v with
  | None | Some JNull => false
  | Some (JBool b) => b
  | Some (JNum q) => negb (Qnum q =? 0)%Z
  | Some (JStr s) => Js.nonempty s
  | Some (JArr _) | Some (JObj _) => true
  end.

(** ** A reference [JSON.parse]

    The grammar of ECMA-404 over 8-bit characters, used to run the service
    on concrete texts.  The general theorems below hold for any parser. *)

Module JSON.

Definition dquote : ascii := ascii_of_nat 34.
Definition backslash : ascii := ascii_of_nat 92.

Definition SyntaxError : JsError :=
  {| name := "SyntaxError"; message := Some "Unexpected token in JSON";
     status := None |}.

Definition is_ws (c : ascii) : bool :=
  let n := nat_of_ascii c in
  (n =? 32) || (n =? 9) || (n =? 10) || (n =? 13).

Fixpoint skip_ws (s : string) : string :=
  match s with
  | EmptyString => s
  | String c s' => if is_ws c then skip_ws s' else s
  end.

Definition is_digit (c : ascii) : bool :=
  let n := nat_of_ascii c in (48 <=? n) && (n <=? 57).

Definition digit_val (c : ascii) : Z := Z.of_nat (nat_of_ascii c - 48).

(** The longest run of digits: its value on top of [acc], its length, and
    what follows. *)
Fixpoint digits (acc : Z) (count : nat) (s : string) : Z * nat * string :=
  match s with
  | EmptyString => (acc, count, s)
  | String c s' =>
      if is_digit c then digits (acc * 10 + digit_val c)%Z (S count) s'
      else (acc, count, s)
  end.

(** [m * 10 ^ e], in lowest terms. *)
Definition decimal (m e : Z) : Q :=
  if (0 <=? e)%Z then inject_Z (m * 10 ^ e)
  else Qred (Qmake m (Z.to_pos (10 ^ (- e)))).

Definition obind {A B} (o : option A) (k : A -> option B) : option B :=
  match o with
  | Some a => k a
  | None => None
  end.

Definition sign_prefix (s : string) : bool * string :=
  match s with
  | String c r => if Ascii.eqb c "-" then (true, r) else (false, s)
  | EmptyString => (false, s)
  end.

Definition int_part (s : string) : option (Z * string) :=
  match s with
  | String c r =>
      if Ascii.eqb c "0" then Some (0%Z, r)
      else if is_digit c then let '(v, _, rest) := digits 0 0 s in Some (v, rest)
      else None
  | EmptyString => None
  end.

Definition frac_part (ip : Z) (s : string) : option (Z * nat * string) :=
  match s with
  | String c r =>
      if Ascii.eqb c "."
      then let '(v, n, rest) := digits ip 0 r in
           if n =? 0 then None else Some (v, n, rest)
      else Some (ip, 0, s)
  | EmptyString => Some (ip, 0, s)
  end.

Definition exp_part (s : string) : option (Z * string) :=
  match s with
  | String c r =>
      if Ascii.eqb c "e" || Ascii.eqb c "E"
      then let '(neg, r') :=
             match r with
             | String d x =>
                 if Ascii.eqb d "-" then (true, x)
                 else if Ascii.eqb d "+" then (false, x) else (false, r)
             | EmptyString => (false, r)
             end in
           let '(v, n, rest) := digits 0 0 r' in
           if n =? 0 then None else Some (if neg then (- v)%Z else v, rest)
      else Some (0%Z, s)
  | EmptyString => Some (0%Z, s)
  end.

Definition number (s : string) : option (Q * string) :=
  let '(neg, s1) := sign_prefix s in
  obind (int_part s1) (fun '(ip, s2) =>
  obind (frac_part ip s2) (fun '(m, fracn, s3) =>
  obind (exp_part s3) (fun '(ex, s4) =>
  Some (decimal (if neg then - m else m) (ex - Z.of_nat fracn), s4)))).

Definition hex_val (c : ascii) : option nat :=
  let n := nat_of_ascii c in
  if (48 <=? n) && (n <=? 57) then Some (n - 48)
  else if (65 <=? n) && (n <=? 70) then Some (n - 55)
  else if (97 <=? n) && (n <=? 102) then Some (n - 87)
  else None.

Definition simple_escape (c : ascii) : option ascii :=
  if Ascii.eqb c dquote then Some dquote
  else if Ascii.eqb c backslash then Some backslash
  else if Ascii.eqb c "/" then Some "/"%char
  else if Ascii.eqb c "b" then Some (ascii_of_nat 8)
  else if Ascii.eqb c "f" then Some (ascii_of_nat 12)
  else if Ascii.eqb c "n" then Some (ascii_of_nat 10)
  else if Ascii.eqb c "r" then Some (ascii_of_nat 13)
  else if Ascii.eqb c "t" then Some (ascii_of_nat 9)
  else None.

Definition push (c : ascii) (o : option (string * string))
  : option (string * string) :=
  obind o (fun '(str, rest) => Some (String c str, rest)).

(** The characters of a string literal after its opening quote.  An
    escape [\uXXXX] above [00FF] has no 8-bit character: the reference
    parser is partial there. *)
Fixpoint string_body (s : string) : option (string * string) :=
  match s with
  | EmptyString => None
  | String c r =>
      if Ascii.eqb c dquote then Some (EmptyString, r)
      else if Ascii.eqb c backslash then
        match r with
        | EmptyString => None
        | String e r' =>
            if Ascii.eqb e "u" then
              match r' with
              | String h1 (String h2 (String h3 (String h4 r''))) =>
                  match hex_val h1, hex_val h2, hex_val h3, hex_val h4 with
                  | Some a, Some b, Some c', Some d =>
                      let n := ((a * 16 + b) * 16 + c') * 16 + d in
                      if n <? 256 then push (ascii_of_nat n) (string_body r'')
                      else None
                  | _, _, _, _ => None
                  end
              | _ => None
              end
            else
              match simple_escape e with
              | Some ch => push ch (string_body r')
              | None => None
              end
        end
      else if nat_of_ascii c <? 32 then None
      else push c (string_body r)
  end.

Fixpoint element (fuel : nat) (s : string) {struct fuel}
  : option (json * string) :=
  match fuel with
  | 0 => None
  | S fuel' =>
      match skip_ws s with
      | EmptyString => None
      | String c r as s0 =>
          if Ascii.eqb c "{" then
            match skip_ws r with
            | String c' r' =>
                if Ascii.eqb c' "}" then Some (JObj [], r')
                else obind (members fuel' (String c' r'))
                       (fun '(ms, rest) => Some (JObj ms, rest))
            | EmptyString => None
            end
          else if Ascii.eqb c "[" then
            match skip_ws r with
            | String c' r' =>
                if Ascii.eqb c' "]" then Some (JArr [], r')
                else obind (elements fuel' (String c' r'))
                       (fun '(vs, rest) => Some (JArr vs, rest))
            | EmptyString => None
            end
          else if Ascii.eqb c dquote then
            obind (string_body r) (fun '(str, rest) => Some (JStr str, rest))
          else if Js.startsWith "true" s0 then Some (JBool true, Js.drop 4 s0)
          else if Js.startsWith "false" s0 then Some (JBool false, Js.drop 5 s0)
          else if Js.startsWith "null" s0 then Some (JNull, Js.drop 4 s0)
          else obind (number s0) (fun '(q, rest) => Some (JNum q, rest))
      end
  end
with elements (fuel : nat) (s : string) {struct fuel}
  : option (list json * string) :=
  match fuel with
  | 0 => None
  | S fuel' =>
      obind (element fuel' s) (fun '(v, r) =>
        match skip_ws r with
        | String c r' =>
            if Ascii.eqb c ","
            then obind (elements fuel' r')
                   (fun '(vs, rest) => Some (v :: vs, rest))
            else if Ascii.eqb c "]" then Some ([v], r')
            else None
        | EmptyString => None
        end)
  end
with members (fuel : nat) (s : string) {struct fuel}
  : option (list (string * json) * string) :=
  match fuel with
  | 0 => None
  | S fuel' =>
      match skip_ws s with
      | String c r =>
          if Ascii.eqb c dquote then
            obind (string_body r) (fun '(k, r1) =>
              match skip_ws r1 with
              | String c1 r2 =>
                  if Ascii.eqb c1 ":" then
                    obind (element fuel' r2) (fun '(v, r3) =>
                      match skip_ws r3 with
                      | String c2 r4 =>
                          if Ascii.eqb c2 ","
                          then obind (members fuel' r4)
                                 (fun '(ms, rest) => Some ((k, v) :: ms, rest))
                          else if Ascii.eqb c2 "}" then Some ([(k, v)], r4)
                          else None
                      | EmptyString => None
                      end)
                  else None
              | EmptyString => None
              end)
          else None
      | EmptyString => None
      end
  end.

(** [JSON.parse(text)] *)
Definition parse (text : string) : result json :=
  match element (2 * String.length text + 2) text with
  | Some (v, rest) =>
      match skip_ws rest with
      | EmptyString => Ok v
      | _ => Throw SyntaxError
      end
  | None => Throw SyntaxError
  end.

(** Helpers to write JSON texts: a quoted name. *)
Definition q (s : string) : string :=
  String dquote s +++ String dquote EmptyString.

End JSON.

(** ** ResponseNormalizer ([parseJsonResponse]) *)

(** The prefix of [s] that ends with the last occurrence of [close]: what
    the greedy [[\s\S]*] followed by the closing bracket consumes. *)
Fixpoint uptoLast (close : ascii) (s : string) : option string :=
  match s with
  | EmptyString => None
  | String c s' =>
      match uptoLast close s' with
      | Some m => Some (String c m)
      | None => if Ascii.eqb c close then Some (String c EmptyString) else None
      end
  end.

(** [text.match(/(\{[\s\S]*\}|\[[\s\S]*\])/)]: the leftmost position where
    an opening bracket has a closing bracket of its own kind somewhere
    after it, up to the last such closing bracket. *)
Fixpoint jsonMatch (text : string) : option string :=
  match text with
  | EmptyString => None
  | String c s' =>
      let here :=
        if Ascii.eqb c "{" then uptoLast "}" s'
        else if Ascii.eqb c "[" then uptoLast "]" s'
        else None in
      match here with
      | Some m => Some (String c m)
      | None => jsonMatch s'
      end
  end.

(** Stage 0 of [parseJsonResponse]:
    [text.replace(/```json/g, '').replace(/```/g, '').trim()] *)
Definition cleaned (text : string) : string :=
  Js.trim (Js.removeAll "```" (Js.removeAll "```json" text)).

Definition rawTextMessage (text : string) : string :=
  "Failed to parse JSON response. Raw text: " +++
  String JSON.dquote (substring 0 100 text) +++ "..." +++
  String JSON.dquote EmptyString.

Definition extractedInvalidMessage (substringParseError : JsError) : string :=
  "Failed to parse JSON. Extracted structure invalid: " +++
  render substringParseError.

Section Normalizer.

Variable JSON_parse : string -> result json.

Definition parseJsonResponse (text : string) : result json :=
  match JSON_parse (cleaned text) with
  | Ok v => Ok v
  | Throw directParseError =>
      match jsonMatch text with
      | Some m =>
          match JSON_parse m with
          | Ok v => Ok v
          | Throw substringParseError =>
              Throw (mkError (extractedInvalidMessage substringParseError))
          end
      | None => Throw (mkError (rawTextMessage text))
      end
  end.

(** The same function on what the callers really pass, a value taken out
    of the provider's envelope: on anything but a string both
    [text.replace] and [text.match] raise a [TypeError]. *)
Definition parseJsonResponseAny (text : value) : result json :=
  match text with
  | Some (JStr s) => parseJsonResponse s
  | _ => Throw TypeError
  end.

End Normalizer.

(** ** RetryExecutor ([withRetry]) *)

(** [error.status === 401 || error.status === 400 ||
     error.message?.includes('API key')] *)
Definition nonRetryable (error : JsError) : bool :=
  match status error with
  | Some s => (s =? 401)%Z || (s =? 400)%Z
  | None => false
  end
  || match message error with
     | Some m => Js.includes "API key" m
     | None => false
     end.

Section RetryExecutor.

Context {W T : Type}.

(** [await new Promise(resolve => setTimeout(resolve, delay))] *)
Variable sleep : Z -> W -> W.

(** [retries] is a natural number: every caller uses the default 3. *)
Fixpoint withRetry (fn : W -> result T * W) (retries : nat) (delay : Z)
    (w : W) : result T * W :=
  match fn w with
  | (Ok v, w') => (Ok v, w')
  | (Throw error, w') =>
      match retries with
      | 0 => (Throw error, w')
      | S retries' =>
          if nonRetryable error then (Throw error, w')
          else withRetry fn retries' (delay * 2)%Z (sleep delay w')
      end
  end.

End RetryExecutor.

(** ** What a caller can observe of a run *)

Record World := {
  requests : nat;        (* provider calls issued *)
  delays : list Z;       (* back-off delays awaited, oldest first *)
  progress : list json;  (* arguments of [onProgress], oldest first *)
  errorsLogged : nat     (* [console.error] calls *)
}.

Definition world0 : World :=
  {| requests := 0; delays := []; progress := []; errorsLogged := 0 |}.

Definition request (w : World) : World :=
  {| requests := S (requests w); delays := delays w;
     progress := progress w; errorsLogged := errorsLogged w |}.

Definition sleep (delay : Z) (w : World) : World :=
  {| requests := requests w; delays := delays w ++ [delay];
     progress := progress w; errorsLogged := errorsLogged w |}.

Definition report (batchScores : json) (w : World) : World :=
  {| requests := requests w; delays := delays w;
     progress := progress w ++ [batchScores]; errorsLogged := errorsLogged w |}.

Definition logError (w : World) : World :=
  {| requests := requests w; delays := delays w;
     progress := progress w; errorsLogged := S (errorsLogged w) |}.

(** A [fetch] response: [ok] is derived from the status as the platform
    does. *)
Record Response := {
  resp_status : Z;
  resp_body : string
}.

Definition ok (response : Response) : bool :=
  (200 <=? resp_status response)%Z && (resp_status response <=? 299)%Z.

(** ** The provider calls of the service *)

(** [`${n}`] for an integer status. *)
Definition numberToString (n : Z) : string :=
  NilEmpty.string_of_int (Z.to_int n).

(** [parsed.posts || []] *)
Definition orEmpty (posts : value) : json :=
  match posts with
  | Some j => if truthy posts then j else JArr []
  | None => JArr []
  end.

(** [provider === AiProvider.Anthropic ? data.content[0].text
                                        : data.choices[0].message.content] *)
Definition rawContent (provider : AiProvider) (data : json) : result value :=
  match provider with
  | Anthropic =>
      content <- getProp (Some data) "content" ;;
      first <- getIndex0 content ;;
      getProp first "text"
  | _ =>
      choices <- getProp (Some data) "choices" ;;
      first <- getIndex0 choices ;;
      msg <- getProp first "message" ;;
      getProp msg "content"
  end.

Section Service.

Variable JSON_parse : string -> result json.

(** The provider as one task finds it: the outcome of its [n]-th call
    (counted from 0) to the SDK ([response.text], or a rejection) and to
    [fetch].  The prompt only travels to the provider, so it is part of
    what these stand for. *)
Variable generateContent : nat -> result value.
Variable fetch : nat -> result Response.

(** The caller's callback: [Some e] when it throws [e] on that argument. *)
Variable onProgress : json -> option JsError.

(** *** [validateApiKey] *)

Definition validateRequest (provider : AiProvider) (w : World)
  : result bool * World :=
  match provider with
  | Gemini =>
      match generateContent (requests w) with
      | Ok _ => (Ok true, request w)
      | Throw e => (Throw e, request w)
      end
  | _ =>
      match fetch (requests w) with
      | Ok response => (Ok (ok response), request w)
      | Throw e => (Throw e, request w)
      end
  end.

Definition validateApiKey (provider : AiProvider) (apiKey : string) (w : World)
  : result bool * World :=
  if negb (Js.nonempty apiKey) then (Ok false, w)
  else
    match withRetry sleep (validateRequest provider) 3 1000%Z w with
    | (Ok valid, w') => (Ok valid, w')
    | (Throw error, w') => (Ok false, logError w')
    end.

(** *** [processBatch] *)

(** The body of the retried operation up to [onProgress]: the value of
    [batchScores] after the [n]-th provider call. *)
Definition batchScores (provider : AiProvider) (n : nat) : result json :=
  match provider with
  | Gemini =>
      response_text <- generateContent n ;;
      parsed <- parseJsonResponseAny JSON_parse response_text ;;
      posts <- getProp (Some parsed) "posts" ;;
      Ok (orEmpty posts)
  | _ =>
      response <- fetch n ;;
      if negb (ok response)
      then Throw (mkError ("API Error: " +++ numberToString (resp_status response)))
      else
        data <- JSON_parse (resp_body response) ;;
        raw <- rawContent provider data ;;
        parsedResult <- parseJsonResponseAny JSON_parse raw ;;
        posts <- getProp (Some parsedResult) "posts" ;;
        Ok (orEmpty posts)
  end.

Definition scoreAttempt (provider : AiProvider) (w : World)
  : result unit * World :=
  match batchScores provider (requests w) with
  | Throw e => (Throw e, request w)
  | Ok scores =>
      let w' := report scores (request w) in
      match onProgress scores with
      | Some e => (Throw e, w')
      | None => (Ok tt, w')
      end
  end.

Definition processBatch (provider : AiProvider) (w : World)
  : result unit * World :=
  match withRetry sleep (scoreAttempt provider) 3 1000%Z w with
  | (Ok _, w') => (Ok tt, w')
  | (Throw error, w') => (Ok tt, logError w')
  end.

End Service.

(** ** StreamCleaner ([cleanStreamChunk]) *)

(** Case folding of the [/i] flag on the letters of the pattern. *)
Definition toUpper (c : ascii) : ascii :=
  let n := nat_of_ascii c in
  if (97 <=? n) && (n <=? 122) then ascii_of_nat (n - 32) else c.

Fixpoint startsWithCI (pat s : string) : bool :=
  match pat with
  | EmptyString => true
  | String p pat' =>
      match s with
      | EmptyString => false
      | String c s' => Ascii.eqb (toUpper p) (toUpper c) && startsWithCI pat' s'
      end
  end.

(** [s.replace(/^\s*```tag\s*/i, '')], the pattern anchored at the start
    of the chunk: leading white space, the fence with its tag, and the
    white space that follows. *)
Definition stripLeadingFence (tag : string) (s : string) : string :=
  let fence := "```" +++ tag in
  let body := Js.trimStart s in
  if startsWithCI fence body
  then Js.trimStart (Js.drop (String.length fence) body)
  else s.

(** [s.replace(/```\s*$/, '')]: the leftmost fence that only white space
    separates from the end of the chunk, and everything after it. *)
Fixpoint stripTrailingFence (s : string) : string :=
  match s with
  | EmptyString => EmptyString
  | String c s' =>
      if Js.startsWith "```" s && Js.all_space (Js.drop 3 s)
      then EmptyString
      else String c (stripTrailingFence s')
  end.

Definition cleanStreamChunk (chunk : string) (isFirstChunk : bool) : string :=
  let clean :=
    if isFirstChunk
    then stripLeadingFence "" (stripLeadingFence "html" chunk)
    else chunk in
  stripTrailingFence clean.

(** The same call on a value taken out of a JSON envelope: anything but a
    string has no [replace] method. *)
Definition cleanStreamChunkAny (chunk : value) (isFirstChunk : bool)
  : result string :=
  match chunk with
  | Some (JStr s) => Ok (cleanStreamChunk s isFirstChunk)
  | _ => Throw TypeError
  end.

(** ** The generation stream ([generateStream]) *)

(** The provider's SDK stream: every chunk with a non-empty cleaned text
    is yielded and clears the first-chunk flag. *)
Fixpoint geminiLoop (chunks : list string) (isFirstChunk : bool)
  : list string * bool :=
  match chunks with
  | [] => ([], isFirstChunk)
  | chunk :: rest =>
      let text := cleanStreamChunk chunk isFirstChunk in
      if Js.nonempty text
      then let '(more, flag) := geminiLoop rest false in (text :: more, flag)
      else geminiLoop rest isFirstChunk
  end.

(** [v?.k] and [v?.[0]] *)
Definition optProp (v : value) (k : string) : result value :=
  if isNullish v then Ok None else getProp v k.

Definition optIndex0 (v : value) : result value :=
  if isNullish v then Ok None else getIndex0 v.

Definition isString (v : value) (s : string) : bool :=
  match v with
  | Some (JStr s') => String.eqb s' s
  | _ => false
  end.

(** The value of [textChunk] after the provider-specific extraction. *)
Definition extractDelta (provider : AiProvider) (parsed : json) : result value :=
  match provider with
  | Anthropic =>
      type <- getProp (Some parsed) "type" ;;
      if isString type "content_block_delta"
      then delta <- getProp (Some parsed) "delta" ;; getProp delta "text"
      else Ok (Some (JStr EmptyString))
  | _ =>
      choices <- getProp (Some parsed) "choices" ;;
      first <- optIndex0 choices ;;
      delta <- optProp first "delta" ;;
      content <- optProp delta "content" ;;
      if truthy content
      then
        choices' <- getProp (Some parsed) "choices" ;;
        first' <- getIndex0 choices' ;;
        delta' <- getProp first' "delta" ;;
        getProp delta' "content"
      else Ok (Some (JStr EmptyString))
  end.

Inductive LineOutcome :=
| Continue                 (* nothing yielded, go on with the next line *)
| Return                   (* the end sentinel: the generator returns *)
| Yield (chunk : string).  (* yield, then clear the first-chunk flag *)

Section Stream.

Variable JSON_parse : string -> result json.

(** The [try] block of the line loop: [Some chunk] when it yields. *)
Definition tryLine (provider : AiProvider) (isFirstChunk : bool) (data : string)
  : result (option string) :=
  parsed <- JSON_parse data ;;
  textChunk <- extractDelta provider parsed ;;
  if truthy textChunk
  then
    cleanChunk <- cleanStreamChunkAny textChunk isFirstChunk ;;
    Ok (if Js.nonempty cleanChunk then Some cleanChunk else None)
  else Ok None.

Definition handleLine (provider : AiProvider) (isFirstChunk : bool)
    (line : string) : LineOutcome :=
  if negb (Js.startsWith "data: " line) then Continue
  else
    let data := Js.drop 6 line in
    if String.eqb (Js.trim data) "[DONE]" then Return
    else
      match tryLine provider isFirstChunk data with
      | Ok (Some cleanChunk) => Yield cleanChunk
      | Ok None => Continue
      | Throw _ => Continue
      end.

(** [for (const line of lines) ...]: the chunks yielded, the flag
    afterwards, and whether the generator returned. *)
Fixpoint forLines (provider : AiProvider) (lines : list string)
    (isFirstChunk : bool) : list string * bool * bool :=
  match lines with
  | [] => ([], isFirstChunk, false)
  | line :: rest =>
      match handleLine provider isFirstChunk line with
      | Continue => forLines provider rest isFirstChunk
      | Return => ([], isFirstChunk, true)
      | Yield cleanChunk =>
          let '(more, flag, returned) := forLines provider rest false in
          (cleanChunk :: more, flag, returned)
      end
  end.

(** [while (true) { read; buffer += text; lines = buffer.split('\n');
     buffer = lines.pop() || ''; for ... }] over the decoded texts of the
    successive reads, the reader reporting [done] after the last one. *)
Fixpoint readLoop (provider : AiProvider) (reads : list string)
    (buffer : string) (isFirstChunk : bool) : list string * bool :=
  match reads with
  | [] => ([], isFirstChunk)
  | text :: rest =>
      let lines := Js.split "010" (buffer +++ text) in
      let buffer' := last lines EmptyString in
      let '(out, flag, returned) :=
        forLines provider (removelast lines) isFirstChunk in
      if returned then (out, flag)
      else let '(more, flag') := readLoop provider rest buffer' flag in
           (out ++ more, flag')
  end.

(** A stream as the consumer sees it: the chunks yielded, and how the
    generator ended. *)
Record Stream := {
  yielded : list string;
  completion : result unit
}.

(** [responseStream] is what the SDK streams for the first provider;
    [response] and [reads] are the [fetch] response and the decoded texts
    of its body for the line-oriented providers ([hasBody] is
    [response.body] being present). *)
Definition generateStream (provider : AiProvider)
    (responseStream : list string)
    (response : Response) (hasBody : bool) (reads : list string) : Stream :=
  match provider with
  | Gemini =>
      {| yielded := fst (geminiLoop responseStream true);
         completion := Ok tt |}
  | _ =>
      if negb (ok response) || negb hasBody
      then {| yielded := [];
              completion :=
                Throw (mkError ("API Stream Error: " +++
                                numberToString (resp_status response))) |}
      else {| yielded := fst (readLoop provider reads EmptyString true);
              completion := Ok tt |}
  end.

(** [generateSnippet] and [refreshSnippet] build a prompt, choose the
    model and return the stream of [generateStream]. *)
Definition generateSnippet := generateStream.
Definition refreshSnippet := generateStream.

End Stream.

(** ** ScoringOrchestrator ([getOpportunityScores]) *)

(** The inner loop
    [while (queue.length > 0 && activeWorkers.size < MAX_CONCURRENT_REQUESTS)]:
    what is left of the queue and the batches started, [active] being the
    size of the active set. *)
Fixpoint topUp (queue : list nat) (active : nat) : list nat * list nat :=
  match queue with
  | [] => ([], [])
  | batch :: queue' =>
      if active <? MAX_CONCURRENT_REQUESTS
      then let '(rest, started) := topUp queue' (S active) in
           (rest, batch :: started)
      else (queue, [])
  end.

(** Where the body of [getOpportunityScores] stands. *)
Inductive Main :=
| LoopHead                        (* about to test the outer loop condition *)
| Awaiting (raceSettled : bool)   (* in [await Promise.race(activeWorkers)] *)
| Finished                        (* resolved *)
| Rejected (e : JsError).         (* rejected *)

(** The tasks run interleaved on one thread.  A batch is named by its
    position in [postBatches]; a task first runs [processBatch] to its end
    ([running]), then its [then] callback deletes it from the set and its
    promise settles. *)
Record Pool := {
  queue : list nat;
  activeWorkers : list nat;
  running : list nat;
  completed : list nat;   (* the batches whose [processBatch] has ended *)
  main : Main;
  seen : list json;       (* arguments of [onProgress], oldest first *)
  logged : nat            (* batches reported by [console.error] *)
}.

Inductive Event :=
| MainStep
| WorkerDone (k : nat)
| WorkerSettled (k : nat).

Definition mem (k : nat) (l : list nat) : bool := existsb (Nat.eqb k) l.
Definition del (k : nat) (l : list nat) : list nat :=
  filter (fun j => negb (j =? k)) l.

Definition initialPool (posts : list WordPressPost) : Pool :=
  {| queue := seq 0 (List.length (postBatches posts));
     activeWorkers := []; running := []; completed := [];
     main := LoopHead; seen := []; logged := 0 |}.

Section Orchestrator.

Variable JSON_parse : string -> result json.
Variable provider : AiProvider.

(** The provider as the task of batch [k] finds it at its [n]-th call. *)
Variable generateContentOf : nat -> nat -> result value.
Variable fetchOf : nat -> nat -> result Response.
Variable onProgress : json -> option JsError.

(** The task of batch [k], run on its own. *)
Definition worker (k : nat) : result unit * World :=
  processBatch JSON_parse (generateContentOf k) (fetchOf k) onProgress
    provider world0.

Definition mainStep (s : Pool) : option Pool :=
  match main s with
  | LoopHead =>
      match queue s, activeWorkers s with
      | [], [] =>
          Some {| queue := []; activeWorkers := []; running := running s;
                  completed := completed s; main := Finished;
                  seen := seen s; logged := logged s |}
      | _, _ =>
          let '(rest, started) :=
            topUp (queue s) (List.length (activeWorkers s)) in
          let active' := activeWorkers s ++ started in
          Some {| queue := rest; activeWorkers := active';
                  running := running s ++ started;
                  completed := completed s;
                  main := match active' with
                          | [] => Finished
                          | _ => Awaiting false
                          end;
                  seen := seen s; logged := logged s |}
      end
  | Awaiting true =>
      Some {| queue := queue s; activeWorkers := activeWorkers s;
              running := running s; completed := completed s;
              main := LoopHead; seen := seen s; logged := logged s |}
  | Awaiting false | Finished | Rejected _ => None
  end.

Definition workerDone (k : nat) (s : Pool) : option Pool :=
  if mem k (running s) then
    let '(outcome, w) := worker k in
    Some {| queue := queue s; activeWorkers := activeWorkers s;
            running := del k (running s);
            completed := completed s ++ [k];
            main := match outcome with
                    | Ok _ => main s
                    | Throw e => Rejected e
                    end;
            seen := seen s ++ progress w;
            logged := logged s + errorsLogged w |}
  else None.

Definition workerSettled (k : nat) (s : Pool) : option Pool :=
  if mem k (activeWorkers s) && negb (mem k (running s)) then
    Some {| queue := queue s; activeWorkers := del k (activeWorkers s);
            running := running s; completed := completed s;
            main := match main s with
                    | Awaiting _ => Awaiting true
                    | m => m
                    end;
            seen := seen s; logged := logged s |}
  else None.

Definition step (e : Event) (s : Pool) : option Pool :=
  match e with
  | MainStep => mainStep s
  | WorkerDone k => workerDone k s
  | WorkerSettled k => workerSettled k s
  end.

(** An execution is any sequence of enabled events. *)
Fixpoint exec (events : list Event) (s : Pool) : option Pool :=
  match events with
  | [] => Some s
  | e :: rest =>
      match step e s with
      | Some s' => exec rest s'
      | None => None
      end
  end.

Definition reachable (posts : list WordPressPost) (s : Pool) : Prop :=
  exists events, exec events (initialPool posts) = Some s.

(** [getOpportunityScores(apiKey, provider, posts, model, onProgress)]:
    the states in which an execution of the call resolves. *)
Definition getOpportunityScores (posts : list WordPressPost) (final : Pool)
  : Prop :=
  reachable posts final /\ main final = Finished.

(** One particular schedule: the main task whenever it can move, else the
    oldest active task. *)
Definition nextEvent (s : Pool) : option Event :=
  match mainStep s with
  | Some _ => Some MainStep
  | None =>
      match main s, activeWorkers s with
      | Awaiting false, k :: _ =>
          Some (if mem k (running s) then WorkerDone k else WorkerSettled k)
      | _, _ => None
      end
  end.

Fixpoint runInOrder (fuel : nat) (s : Pool) : Pool :=
  match fuel with
  | 0 => s
  | S fuel' =>
      match nextEvent s with
      | Some e => match step e s with
                  | Some s' => runInOrder fuel' s'
                  | None => s
                  end
      | None => s
      end
  end.


End Orchestrator.

(** ** Instrumented operations for the retry executor *)

(** An operation that counts its invocations: the [n]-th one (from 0)
    ends as [script n]. *)
Record Calls := {
  invoked : nat;
  waited : list Z
}.

Definition scripted {T} (script : nat -> result T) (w : Calls)
  : result T * Calls :=
  (script (invoked w), {| invoked := S (invoked w); waited := waited w |}).

Definition pause (delay : Z) (w : Calls) : Calls :=
  {| invoked := invoked w; waited := waited w ++ [delay] |}.

Definition calls0 : Calls := {| invoked := 0; waited := [] |}.

(** A line break, to write texts. *)
Definition nl : string := String "010" EmptyString.

(** ** Concrete inputs *)

(** An operation that fails with a time-out twice and then answers 7, and
    one that is always refused with status 401. *)
Definition flaky (n : nat) : result nat :=
  if n <? 2
  then Throw {| name := "TimeoutError"; message := Some "timed out"; status := None |}
  else Ok 7.

Definition refused (n : nat) : result nat :=
  Throw {| name := "ApiError"; message := Some "Unauthorized"; status := Some 401%Z |}.

(** The payload and the event line of the chat-completions protocol that
    carry the delta [s]; a post with a given id; twenty posts. *)
Definition deltaData (s : string) : string :=
  "{" +++ JSON.q "choices" +++ ":[{" +++ JSON.q "delta" +++ ":{" +++
  JSON.q "content" +++ ":" +++ JSON.q s +++ "}}]}".

Definition deltaLine (s : string) : string :=
  "data: " +++ deltaData s +++ nl.

Definition post (n : Z) : WordPressPost :=
  {| id := n; title_rendered := "Post"; content_rendered := "<p>text</p>";
     link := "https://example.org/post" |}.


(** A provider answer that scores a post nobody asked about. *)
Definition strayResponse : string :=
  "{" +++ JSON.q "posts" +++ ":[{" +++ JSON.q "id" +++ ":999," +++
  JSON.q "opportunityScore" +++ ":95," +++
  JSON.q "opportunityRationale" +++ ":" +++ JSON.q "Perfect for a calculator" +++
  "}]}".

Definition strayRecords : json :=
  JArr [JObj [("id", JNum 999); ("opportunityScore", JNum 95);
              ("opportunityRationale", JStr "Perfect for a calculator")]].

(** A provider that always gives that answer, one that always refuses
    with status 401, and a callback that returns normally. *)
Definition strayProvider (k n : nat) : result value :=
  Ok (Some (JStr strayResponse)).

Definition unauthorized : JsError :=
  {| name := "ApiError"; message := Some "Unauthorized"; status := Some 401%Z |}.

Definition sdk401 (n : nat) : result value := Throw unauthorized.

Definition fetch401 (n : nat) : result Response :=
  Ok {| resp_status := 401; resp_body := "{}" |}.

Definition offline (k n : nat) : result Response :=
  Throw {| name := "TypeError"; message := Some "Failed to fetch"; status := None |}.

Definition quiet (scores : json) : option JsError := None.





(** The [id]s of the records of a list passed to [onProgress]. *)
Definition recordIds (scores : json) : list value :=
  match scores with
  | JArr records => map (fun r => match r with
                                  | JObj members => lookup "id" members
                                  | _ => None
                                  end) records
  | _ => []
  end.

(** ** The invariant of the orchestrator *)

Section Invariant.

Variable JSON_parse : string -> result json.
Variable provider : AiProvider.
Variable generateContentOf : nat -> nat -> result value.
Variable fetchOf : nat -> nat -> result Response.
Variable onProgress : json -> option JsError.

(** What the task of batch [k] passes to [onProgress]. *)
Definition reported (k : nat) : list json :=
  progress (snd (worker JSON_parse provider generateContentOf fetchOf onProgress k)).

Record invariant (posts : list WordPressPost) (s : Pool) : Prop := {
  inv_batches :
    Permutation (completed s ++ running s ++ queue s)
                (seq 0 (List.length (postBatches posts)));
  inv_running : incl (running s) (activeWorkers s);
  inv_bound : List.length (activeWorkers s) <= MAX_CONCURRENT_REQUESTS;
  inv_seen : seen s = flat_map reported (completed s);
  inv_await : main s = Awaiting false -> activeWorkers s <> [];
  inv_finished : main s = Finished -> queue s = [] /\ activeWorkers s = [];
  inv_resolves : forall e, main s <> Rejected e
}.

End Invariant.

(** ** Further code of the service and of its callers *)

(** The waits of [withRetry]: [delay], [2 delay], [4 delay], ... *)
Fixpoint backoff (delay : Z) (n : nat) : list Z :=
  match n with
  | 0 => []
  | S n' => delay :: backoff (delay * 2)%Z n'
  end.

(** An outcome that makes [withRetry] try again, and one that settles
    it. *)
Definition retryableFailure {T} (r : result T) : Prop :=
  exists e, r = Throw e /\ nonRetryable e = false.

Definition decisive {T} (r : result T) : Prop :=
  match r with
  | Ok _ => True
  | Throw e => nonRetryable e = true
  end.

(** An operation whose [n]-th invocation fails with a time-out that tells
    its number. *)
Definition timeoutAt (n : nat) : result nat :=
  Throw {| name := "TimeoutError"; message := Some "timed out";
           status := Some (Z.of_nat n) |}.

(** *** [generateToolIdeas] *)

(** [s.replace(/<[^>]*>?/gm, '')]: a match starts at a [<] and runs to the
    next [>], or to the end of the text when there is none. *)
Fixpoint stripTags_from (inTag : bool) (s : string) : string :=
  match s with
  | EmptyString => EmptyString
  | String c s' =>
      if inTag
      then stripTags_from (negb (Ascii.eqb c ">")) s'
      else if Ascii.eqb c "<" then stripTags_from true s'
           else String c (stripTags_from false s')
  end.

Definition stripTags (s : string) : string := stripTags_from false s.

(** [post.content.rendered.replace(/<[^>]*>?/gm, '').substring(0, 3000)] *)
Definition cleanContent (content : string) : string :=
  substring 0 3000 (stripTags content).

Section Ideas.

Variable JSON_parse : string -> result json.
Variable generateContent : nat -> result value.
Variable fetch : nat -> result Response.

(** The value the retried operation returns after the [n]-th provider
    call: [parsed.ideas] for the SDK, [parsed.ideas || []] for [fetch]
    ([ideas] is a property no string, number, boolean or array inherits). *)
Definition ideasAt (provider : AiProvider) (n : nat) : result value :=
  match provider with
  | Gemini =>
      response_text <- generateContent n ;;
      parsed <- parseJsonResponseAny JSON_parse response_text ;;
      getProp (Some parsed) "ideas"
  | _ =>
      response <- fetch n ;;
      if negb (ok response)
      then Throw (mkError ("API Error: " +++ numberToString (resp_status response)))
      else
        data <- JSON_parse (resp_body response) ;;
        raw <- rawContent provider data ;;
        parsed <- parseJsonResponseAny JSON_parse raw ;;
        ideas <- getProp (Some parsed) "ideas" ;;
        Ok (Some (orEmpty ideas))
  end.

Definition ideasAttempt (provider : AiProvider) (w : World)
  : result value * World :=
  (ideasAt provider (requests w), request w).

Definition generateToolIdeas (provider : AiProvider) (w : World)
  : result value * World :=
  withRetry sleep (ideasAttempt provider) 3 1000%Z w.

End Ideas.

(** The pool when the call has resolved without any batch. *)
Definition idlePool : Pool :=
  {| queue := []; activeWorkers := []; running := []; completed := [];
     main := Finished; seen := []; logged := 0 |}.

(** A provider that answers with an object without ideas. *)
Definition noIdeas (n : nat) : result value := Ok (Some (JStr "{}")).

Definition noIdeasHttp (n : nat) : result Response :=
  Ok {| resp_status := 200;
        resp_body := "{" +++ JSON.q "choices" +++ ":[{" +++ JSON.q "message" +++
                     ":{" +++ JSON.q "content" +++ ":" +++ JSON.q "{}" +++ "}}]}" |}.

(** ** The generation dialog ([ToolGenerationModal]) *)

(** [e.message || fallback] *)
Definition messageOr (e : JsError) (fallback : string) : string :=
  match message e with
  | Some (String c m) => String c m
  | _ => fallback
  end.

(** [s.replace(/pat/gi, '')] for a literal, non-empty [pat]. *)
Fixpoint removeAllCI_from (pat : string) (skip : nat) (s : string) : string :=
  match s with
  | EmptyString => EmptyString
  | String c s' =>
      match skip with
      | S k => removeAllCI_from pat k s'
      | 0 =>
          if startsWithCI pat s
          then removeAllCI_from pat (String.length pat - 1) s'
          else String c (removeAllCI_from pat 0 s')
      end
  end.

Definition removeAllCI (pat s : string) : string := removeAllCI_from pat 0 s.

Module Modal.

Inductive ModalStatus :=
| Idle | LoadingIdeas | GeneratingSnippet | InsertingSnippet | Failed | Success.

(** [toolIdeas] and [selectedIdea] hold what the provider answered, as it
    was parsed; [null] is [Some JNull]. *)
Record ModalState := {
  status : ModalStatus;
  error : option string;
  toolIdeas : value;
  selectedIdea : value;
  generatedSnippet : string;
  editedSnippet : string
}.

Inductive ModalAction :=
| GET_IDEAS_START
| GET_IDEAS_SUCCESS (payload : value)
| GET_IDEAS_FAILURE (payload : string)
| SELECT_IDEA (payload : value)
| GENERATE_SNIPPET_START
| GENERATE_SNIPPET_STREAM (payload : string)
| GENERATE_SNIPPET_END
| GENERATE_SNIPPET_FAILURE (payload : string)
| EDIT_SNIPPET (payload : string)
| INSERT_SNIPPET_START
| INSERT_SNIPPET_SUCCESS
| INSERT_SNIPPET_FAILURE (payload : string).

Definition initialState : ModalState :=
  {| status := Idle; error := None; toolIdeas := Some (JArr []);
     selectedIdea := Some JNull; generatedSnippet := ""; editedSnippet := "" |}.

Definition modalReducer (state : ModalState) (action : ModalAction)
  : ModalState :=
  match action with
  | GET_IDEAS_START =>
      {| status := LoadingIdeas; error := None; toolIdeas := Some (JArr []);
         selectedIdea := selectedIdea state;
         generatedSnippet := generatedSnippet state;
         editedSnippet := editedSnippet state |}
  | GET_IDEAS_SUCCESS payload =>
      {| status := Idle; error := error state; toolIdeas := payload;
         selectedIdea := selectedIdea state;
         generatedSnippet := generatedSnippet state;
         editedSnippet := editedSnippet state |}
  | GET_IDEAS_FAILURE payload
  | GENERATE_SNIPPET_FAILURE payload
  | INSERT_SNIPPET_FAILURE payload =>
      {| status := Failed; error := Some payload; toolIdeas := toolIdeas state;
         selectedIdea := selectedIdea state;
         generatedSnippet := generatedSnippet state;
         editedSnippet := editedSnippet state |}
  | SELECT_IDEA payload =>
      {| status := status state; error := error state;
         toolIdeas := toolIdeas state; selectedIdea := payload;
         generatedSnippet := generatedSnippet state;
         editedSnippet := editedSnippet state |}
  | GENERATE_SNIPPET_START =>
      {| status := GeneratingSnippet; error := None;
         toolIdeas := toolIdeas state; selectedIdea := selectedIdea state;
         generatedSnippet := ""; editedSnippet := "" |}
  | GENERATE_SNIPPET_STREAM payload =>
      let newSnippet := generatedSnippet state +++ payload in
      {| status := status state; error := error state;
         toolIdeas := toolIdeas state; selectedIdea := selectedIdea state;
         generatedSnippet := newSnippet; editedSnippet := newSnippet |}
  | GENERATE_SNIPPET_END =>
      {| status := Idle; error := error state; toolIdeas := toolIdeas state;
         selectedIdea := selectedIdea state;
         generatedSnippet := generatedSnippet state;
         editedSnippet := editedSnippet state |}
  | EDIT_SNIPPET payload =>
      {| status := status state; error := error state;
         toolIdeas := toolIdeas state; selectedIdea := selectedIdea state;
         generatedSnippet := generatedSnippet state;
         editedSnippet := payload |}
  | INSERT_SNIPPET_START =>
      {| status := InsertingSnippet; error := None;
         toolIdeas := toolIdeas state; selectedIdea := selectedIdea state;
         generatedSnippet := generatedSnippet state;
         editedSnippet := editedSnippet state |}
  | INSERT_SNIPPET_SUCCESS =>
      {| status := Success; error := error state; toolIdeas := toolIdeas state;
         selectedIdea := selectedIdea state;
         generatedSnippet := generatedSnippet state;
         editedSnippet := editedSnippet state |}
  end.

(** The state after the actions were dispatched in order. *)
Definition dispatchAll (actions : list ModalAction) (state : ModalState)
  : ModalState :=
  fold_left modalReducer actions state.

(** The actions [generateIdeas] dispatches, [ideas] being the outcome of
    [aiService.generateToolIdeas]. *)
Definition generateIdeas (ideas : result value) : list ModalAction :=
  [GET_IDEAS_START;
   match ideas with
   | Ok v => GET_IDEAS_SUCCESS v
   | Throw e => GET_IDEAS_FAILURE (messageOr e "Failed to generate ideas.")
   end].

(** The actions [generateSnippet] dispatches, [stream] being what
    [aiService.generateSnippet] gives and [state] the state the handler was
    created in. *)
Definition generateSnippet (state : ModalState) (stream : Stream)
  : list ModalAction :=
  if negb (truthy (selectedIdea state)) then []
  else
    GENERATE_SNIPPET_START
      :: map GENERATE_SNIPPET_STREAM (yielded stream)
      ++ [match completion stream with
          | Ok _ => GENERATE_SNIPPET_END
          | Throw e =>
              GENERATE_SNIPPET_FAILURE (messageOr e "Failed to generate snippet.")
          end].

(** [editedSnippet.replace(/```html/gi, '').replace(/```/g, '')] *)
Definition cleanCode (editedSnippet : string) : string :=
  Js.removeAll "```" (removeAllCI "```html" editedSnippet).

(** The actions [handleInsert] dispatches, [insertSnippet] being the
    outcome of the insertion for the code it is given. *)
Definition handleInsert (state : ModalState)
    (insertSnippet : string -> result unit) : list ModalAction :=
  if negb (truthy (selectedIdea state)) then []
  else
    [INSERT_SNIPPET_START;
     match insertSnippet (cleanCode (editedSnippet state)) with
     | Ok _ => INSERT_SNIPPET_SUCCESS
     | Throw e => INSERT_SNIPPET_FAILURE (messageOr e "Failed to insert snippet.")
     end].

End Modal.

(** A dialog in which an idea was chosen and an earlier snippet is shown. *)
Definition chosen : Modal.ModalState :=
  {| Modal.status := Modal.Failed; Modal.error := Some "earlier failure";
     Modal.toolIdeas := Some (JArr [JObj [("title", JStr "Planner")]]);
     Modal.selectedIdea := Some (JObj [("title", JStr "Planner")]);
     Modal.generatedSnippet := "<old/>"; Modal.editedSnippet := "<old edited/>" |}.

(** * The application state

    The data of the application is taken at its declared types
    ([types.ts]): a [number] that is an identifier or a time in
    milliseconds is an integer, a score is a rational. *)

(** ** [Partial<WordPressPost>]

    An object that may lack any member: [None] is an absent member; for a
    member that is optional in [WordPressPost], [Some None] is the member
    present with the value [undefined]. *)
Module Partial.

Record WordPressPost := {
  id : option Z;
  title_rendered : option string;
  content_rendered : option string;
  link : option string;
  featuredImageUrl : option (option string);
  hasOptimizerSnippet : option bool;
  toolId : option (option Z);
  opportunityScore : option (option Q);
  opportunityRationale : option (option string);
  toolCreationDate : option (option Z)
}.

(** [x.k !== undefined] for an optional member. *)
Definition defined {A} (member : option (option A)) : option A :=
  match member with
  | Some (Some a) => Some a
  | _ => None
  end.

End Partial.

(** ** The score cache ([opportunityScoreCache.ts]) *)
Module opportunityScoreCache.

Definition CACHE_EXPIRATION_MS : Z := 7 * 24 * 60 * 60 * 1000.

Record CachedScore := {
  id : Z;
  opportunityScore : Q;
  opportunityRationale : string;
  timestamp : Z
}.

(** [Record<number, CachedScore>]: the members of the object, with
    distinct keys; the object is only read by key. *)
Definition ScoreCache := list (Z * CachedScore).

(** [cache[k]] *)
Fixpoint get (k : Z) (cache : ScoreCache) : option CachedScore :=
  match cache with
  | [] => None
  | (k', v) :: rest => if (k =? k')%Z then Some v else get k rest
  end.

(** [cache[k] = v] *)
Fixpoint set (k : Z) (v : CachedScore) (cache : ScoreCache) : ScoreCache :=
  match cache with
  | [] => [(k, v)]
  | (k', v') :: rest =>
      if (k =? k')%Z then (k, v) :: rest else (k', v') :: set k v rest
  end.

(** What [localStorage] holds under the key of the cache: nothing, a text
    that [JSON.parse] rejects, or the text of a cache. *)
Inductive Item :=
| Absent
| Unreadable
| Saved (cache : ScoreCache).

Section Storage.

(** Whether [localStorage.setItem] accepts the text of a cache (it throws
    when the quota is exceeded). *)
Variable quota : ScoreCache -> bool.

Definition fresh (now : Z) (entry : Z * CachedScore) : bool :=
  (now - timestamp (snd entry) <? CACHE_EXPIRATION_MS)%Z.

(** [getScores()], [now] being [Date.now()]: the scores returned and what
    the store holds afterwards. *)
Definition getScores (now : Z) (item : Item) : ScoreCache * Item :=
  match item with
  | Absent => ([], Absent)
  | Unreadable => ([], Absent)
  | Saved cachedScores =>
      let validScores := filter (fresh now) cachedScores in
      if length validScores <? length cachedScores
      then if quota validScores then (validScores, Saved validScores)
           else ([], Absent)
      else (validScores, item)
  end.

(** The body of [newScores.forEach]. *)
Definition addScore (now : Z) (existingScores : ScoreCache)
    (scoreData : Partial.WordPressPost) : ScoreCache :=
  match Partial.id scoreData,
        Partial.defined (Partial.opportunityScore scoreData),
        Partial.defined (Partial.opportunityRationale scoreData) with
  | Some i, Some score, Some rationale =>
      set i {| id := i; opportunityScore := score;
               opportunityRationale := rationale; timestamp := now |}
          existingScores
  | _, _, _ => existingScores
  end.

(** [addScores(newScores)]: [readAt] and [now] are the two readings of
    [Date.now()], in [getScores] and after it. *)
Definition addScores (readAt now : Z) (newScores : list Partial.WordPressPost)
    (item : Item) : Item :=
  let '(existingScores, item') := getScores readAt item in
  let updated := fold_left (addScore now) newScores existingScores in
  if quota updated then Saved updated else item'.

End Storage.

End opportunityScoreCache.

(** A record that [addScores] stores: none of the three members it reads
    is [undefined]. *)
Definition complete (r : Partial.WordPressPost) : bool :=
  match Partial.id r, Partial.defined (Partial.opportunityScore r),
        Partial.defined (Partial.opportunityRationale r) with
  | Some _, Some _, Some _ => true
  | _, _, _ => false
  end.

(** A score record as a provider sends it. *)
Definition scored (i : Z) (score : Q) (rationale : string)
  : Partial.WordPressPost :=
  {| Partial.id := Some i; Partial.title_rendered := None;
     Partial.content_rendered := None; Partial.link := None;
     Partial.featuredImageUrl := None; Partial.hasOptimizerSnippet := None;
     Partial.toolId := None;
     Partial.opportunityScore := Some (Some score);
     Partial.opportunityRationale := Some (Some rationale);
     Partial.toolCreationDate := None |}.

(** A record without a rationale. *)
Definition unexplained (i : Z) (score : Q) : Partial.WordPressPost :=
  {| Partial.id := Some i; Partial.title_rendered := None;
     Partial.content_rendered := None; Partial.link := None;
     Partial.featuredImageUrl := None; Partial.hasOptimizerSnippet := None;
     Partial.toolId := None;
     Partial.opportunityScore := Some (Some score);
     Partial.opportunityRationale := None;
     Partial.toolCreationDate := None |}.

Definition unlimited (cache : opportunityScoreCache.ScoreCache) : bool := true.

(** ** The application context ([AppContext.tsx]) *)

(** [s.toLowerCase()] on 8-bit characters: the letters A-Z and the
    accented capitals of Latin-1. *)
Definition toLowerCase_char (c : ascii) : ascii :=
  let n := nat_of_ascii c in
  if ((65 <=? n) && (n <=? 90))
     || ((192 <=? n) && (n <=? 222) && negb (n =? 215))
  then ascii_of_nat (n + 32) else c.

Fixpoint toLowerCase (s : string) : string :=
  match s with
  | EmptyString => EmptyString
  | String c s' => String (toLowerCase_char c) (toLowerCase s')
  end.

(** [o ?? d], and the value of a member that a spread may override. *)
Definition orElse {A} (o : option A) (d : A) : A :=
  match o with
  | Some a => a
  | None => d
  end.

Module App.

Inductive Status := StatusIdle | StatusLoading | StatusError | StatusSuccess.
Inductive ApiValidationStatus := Unvalidated | Validating | Valid | Invalid.
Inductive Theme := light | dark.
Inductive FrameStatus := initializing | ready | failed.
Inductive SortOrder := opportunity | date.

Record WordPressConfig := {
  url : string;
  username : string;
  appPassword : string
}.

(** [WordPressPost] with all its members; an optional member that is
    absent or [undefined] is [None], and so is a [null] image. *)
Record WordPressPost := {
  id : Z;
  title_rendered : string;
  content_rendered : string;
  link : string;
  featuredImageUrl : option string;
  hasOptimizerSnippet : bool;
  toolId : option Z;
  opportunityScore : option Q;
  opportunityRationale : option string;
  toolCreationDate : option Z
}.

(** [{...post, ...over}] *)
Definition spread (post : WordPressPost) (over : Partial.WordPressPost)
  : WordPressPost :=
  {| id := orElse (Partial.id over) (id post);
     title_rendered := orElse (Partial.title_rendered over) (title_rendered post);
     content_rendered :=
       orElse (Partial.content_rendered over) (content_rendered post);
     link := orElse (Partial.link over) (link post);
     featuredImageUrl :=
       orElse (Partial.featuredImageUrl over) (featuredImageUrl post);
     hasOptimizerSnippet :=
       orElse (Partial.hasOptimizerSnippet over) (hasOptimizerSnippet post);
     toolId := orElse (Partial.toolId over) (toolId post);
     opportunityScore :=
       orElse (Partial.opportunityScore over) (opportunityScore post);
     opportunityRationale :=
       orElse (Partial.opportunityRationale over) (opportunityRationale post);
     toolCreationDate :=
       orElse (Partial.toolCreationDate over) (toolCreationDate post) |}.

(** *** [filterAndSortPosts] *)

(** The comparison function of the sort:
    [(b.opportunityScore ?? -1) - (a.opportunityScore ?? -1)]. *)
Definition compareFn (a b : WordPressPost) : Q :=
  Qminus (orElse (opportunityScore b) (inject_Z (-1)))
         (orElse (opportunityScore a) (inject_Z (-1))).

Definition negative (q : Q) : bool := negb (Qle_bool (inject_Z 0) q).

(** [Array.prototype.sort] is stable, and a comparison function that
    orders by a number determines its result: the elements in the order of
    the comparison, equal ones in their original order.  Insertion from
    the right computes it: an element goes behind those that the
    comparison puts strictly before it. *)
Fixpoint insert (a : WordPressPost) (sorted : list WordPressPost)
  : list WordPressPost :=
  match sorted with
  | [] => [a]
  | b :: rest =>
      if negative (compareFn b a) then b :: insert a rest
      else a :: sorted
  end.

Definition sort (l : list WordPressPost) : list WordPressPost :=
  fold_right insert [] l.

Definition filterAndSortPosts (posts : list WordPressPost) (query : string)
    (sort_order : SortOrder) : list WordPressPost :=
  let filtered :=
    if Js.nonempty query
    then filter (fun p => Js.includes (toLowerCase query)
                            (toLowerCase (title_rendered p))) posts
    else posts in
  match sort_order with
  | opportunity => sort filtered
  | date => filtered
  end.

(** *** The state and its reducer *)

Record AppState := {
  status : Status;
  error : option string;
  deletingPostId : option Z;
  refreshingPostId : option Z;
  theme : Theme;
  frameStatus : FrameStatus;
  isScoring : bool;
  scoringPostIds : list Z;
  isFetchingMorePosts : bool;
  apiKeys : AiProvider -> string;
  apiValidationStatuses : AiProvider -> ApiValidationStatus;
  apiValidationErrorMessages : AiProvider -> option string;
  selectedProvider : AiProvider;
  openRouterModel : string;
  wpConfig : option WordPressConfig;
  posts : list WordPressPost;
  filteredPosts : list WordPressPost;
  postsPage : Z;
  hasMorePosts : bool;
  postSearchQuery : string;
  postSortOrder : SortOrder;
  setupRequired : bool
}.

(** [{...state, k: v}], one function for each member the reducer sets. *)
Definition with_status (v : Status) (state : AppState) : AppState :=
  {| status := v; error := error state;
     deletingPostId := deletingPostId state;
     refreshingPostId := refreshingPostId state; theme := theme state;
     frameStatus := frameStatus state; isScoring := isScoring state;
     scoringPostIds := scoringPostIds state;
     isFetchingMorePosts := isFetchingMorePosts state;
     apiKeys := apiKeys state;
     apiValidationStatuses := apiValidationStatuses state;
     apiValidationErrorMessages := apiValidationErrorMessages state;
     selectedProvider := selectedProvider state;
     openRouterModel := openRouterModel state; wpConfig := wpConfig state;
     posts := posts state; filteredPosts := filteredPosts state;
     postsPage := postsPage state; hasMorePosts := hasMorePosts state;
     postSearchQuery := postSearchQuery state;
     postSortOrder := postSortOrder state;
     setupRequired := setupRequired state |}.

Definition with_error (v : option string) (state : AppState) : AppState :=
  {| status := status state; error := v;
     deletingPostId := deletingPostId state;
     refreshingPostId := refreshingPostId state; theme := theme state;
     frameStatus := frameStatus state; isScoring := isScoring state;
     scoringPostIds := scoringPostIds state;
     isFetchingMorePosts := isFetchingMorePosts state;
     apiKeys := apiKeys state;
     apiValidationStatuses := apiValidationStatuses state;
     apiValidationErrorMessages := apiValidationErrorMessages state;
     selectedProvider := selectedProvider state;
     openRouterModel := openRouterModel state; wpConfig := wpConfig state;
     posts := posts state; filteredPosts := filteredPosts state;
     postsPage := postsPage state; hasMorePosts := hasMorePosts state;
     postSearchQuery := postSearchQuery state;
     postSortOrder := postSortOrder state;
     setupRequired := setupRequired state |}.

Definition with_deletingPostId (v : option Z) (state : AppState) : AppState :=
  {| status := status state; error := error state; deletingPostId := v;
     refreshingPostId := refreshingPostId state; theme := theme state;
     frameStatus := frameStatus state; isScoring := isScoring state;
     scoringPostIds := scoringPostIds state;
     isFetchingMorePosts := isFetchingMorePosts state;
     apiKeys := apiKeys state;
     apiValidationStatuses := apiValidationStatuses state;
     apiValidationErrorMessages := apiValidationErrorMessages state;
     selectedProvider := selectedProvider state;
     openRouterModel := openRouterModel state; wpConfig := wpConfig state;
     posts := posts state; filteredPosts := filteredPosts state;
     postsPage := postsPage state; hasMorePosts := hasMorePosts state;
     postSearchQuery := postSearchQuery state;
     postSortOrder := postSortOrder state;
     setupRequired := setupRequired state |}.

Definition with_refreshingPostId (v : option Z) (state : AppState) : AppState :=
  {| status := status state; error := error state;
     deletingPostId := deletingPostId state; refreshingPostId := v;
     theme := theme state; frameStatus := frameStatus state;
     isScoring := isScoring state; scoringPostIds := scoringPostIds state;
     isFetchingMorePosts := isFetchingMorePosts state;
     apiKeys := apiKeys state;
     apiValidationStatuses := apiValidationStatuses state;
     apiValidationErrorMessages := apiValidationErrorMessages state;
     selectedProvider := selectedProvider state;
     openRouterModel := openRouterModel state; wpConfig := wpConfig state;
     posts := posts state; filteredPosts := filteredPosts state;
     postsPage := postsPage state; hasMorePosts := hasMorePosts state;
     postSearchQuery := postSearchQuery state;
     postSortOrder := postSortOrder state;
     setupRequired := setupRequired state |}.

Definition with_theme (v : Theme) (state : AppState) : AppState :=
  {| status := status state; error := error state;
     deletingPostId := deletingPostId state;
     refreshingPostId := refreshingPostId state; theme := v;
     frameStatus := frameStatus state; isScoring := isScoring state;
     scoringPostIds := scoringPostIds state;
     isFetchingMorePosts := isFetchingMorePosts state;
     apiKeys := apiKeys state;
     apiValidationStatuses := apiValidationStatuses state;
     apiValidationErrorMessages := apiValidationErrorMessages state;
     selectedProvider := selectedProvider state;
     openRouterModel := openRouterModel state; wpConfig := wpConfig state;
     posts := posts state; filteredPosts := filteredPosts state;
     postsPage := postsPage state; hasMorePosts := hasMorePosts state;
     postSearchQuery := postSearchQuery state;
     postSortOrder := postSortOrder state;
     setupRequired := setupRequired state |}.

Definition with_isScoring (v : bool) (state : AppState) : AppState :=
  {| status := status state; error := error state;
     deletingPostId := deletingPostId state;
     refreshingPostId := refreshingPostId state; theme := theme state;
     frameStatus := frameStatus state; isScoring := v;
     scoringPostIds := scoringPostIds state;
     isFetchingMorePosts := isFetchingMorePosts state;
     apiKeys := apiKeys state;
     apiValidationStatuses := apiValidationStatuses state;
     apiValidationErrorMessages := apiValidationErrorMessages state;
     selectedProvider := selectedProvider state;
     openRouterModel := openRouterModel state; wpConfig := wpConfig state;
     posts := posts state; filteredPosts := filteredPosts state;
     postsPage := postsPage state; hasMorePosts := hasMorePosts state;
     postSearchQuery := postSearchQuery state;
     postSortOrder := postSortOrder state;
     setupRequired := setupRequired state |}.

Definition with_scoringPostIds (v : list Z) (state : AppState) : AppState :=
  {| status := status state; error := error state;
     deletingPostId := deletingPostId state;
     refreshingPostId := refreshingPostId state; theme := theme state;
     frameStatus := frameStatus state; isScoring := isScoring state;
     scoringPostIds := v; isFetchingMorePosts := isFetchingMorePosts state;
     apiKeys := apiKeys state;
     apiValidationStatuses := apiValidationStatuses state;
     apiValidationErrorMessages := apiValidationErrorMessages state;
     selectedProvider := selectedProvider state;
     openRouterModel := openRouterModel state; wpConfig := wpConfig state;
     posts := posts state; filteredPosts := filteredPosts state;
     postsPage := postsPage state; hasMorePosts := hasMorePosts state;
     postSearchQuery := postSearchQuery state;
     postSortOrder := postSortOrder state;
     setupRequired := setupRequired state |}.

Definition with_isFetchingMorePosts (v : bool) (state : AppState) : AppState :=
  {| status := status state; error := error state;
     deletingPostId := deletingPostId state;
     refreshingPostId := refreshingPostId state; theme := theme state;
     frameStatus := frameStatus state; isScoring := isScoring state;
     scoringPostIds := scoringPostIds state; isFetchingMorePosts := v;
     apiKeys := apiKeys state;
     apiValidationStatuses := apiValidationStatuses state;
     apiValidationErrorMessages := apiValidationErrorMessages state;
     selectedProvider := selectedProvider state;
     openRouterModel := openRouterModel state; wpConfig := wpConfig state;
     posts := posts state; filteredPosts := filteredPosts state;
     postsPage := postsPage state; hasMorePosts := hasMorePosts state;
     postSearchQuery := postSearchQuery state;
     postSortOrder := postSortOrder state;
     setupRequired := setupRequired state |}.

Definition with_apiKeys (v : AiProvider -> string) (state : AppState) : AppState :=
  {| status := status state; error := error state;
     deletingPostId := deletingPostId state;
     refreshingPostId := refreshingPostId state; theme := theme state;
     frameStatus := frameStatus state; isScoring := isScoring state;
     scoringPostIds := scoringPostIds state;
     isFetchingMorePosts := isFetchingMorePosts state; apiKeys := v;
     apiValidationStatuses := apiValidationStatuses state;
     apiValidationErrorMessages := apiValidationErrorMessages state;
     selectedProvider := selectedProvider state;
     openRouterModel := openRouterModel state; wpConfig := wpConfig state;
     posts := posts state; filteredPosts := filteredPosts state;
     postsPage := postsPage state; hasMorePosts := hasMorePosts state;
     postSearchQuery := postSearchQuery state;
     postSortOrder := postSortOrder state;
     setupRequired := setupRequired state |}.

Definition with_apiValidationStatuses (v : AiProvider -> ApiValidationStatus) (state : AppState) : AppState :=
  {| status := status state; error := error state;
     deletingPostId := deletingPostId state;
     refreshingPostId := refreshingPostId state; theme := theme state;
     frameStatus := frameStatus state; isScoring := isScoring state;
     scoringPostIds := scoringPostIds state;
     isFetchingMorePosts := isFetchingMorePosts state;
     apiKeys := apiKeys state; apiValidationStatuses := v;
     apiValidationErrorMessages := apiValidationErrorMessages state;
     selectedProvider := selectedProvider state;
     openRouterModel := openRouterModel state; wpConfig := wpConfig state;
     posts := posts state; filteredPosts := filteredPosts state;
     postsPage := postsPage state; hasMorePosts := hasMorePosts state;
     postSearchQuery := postSearchQuery state;
     postSortOrder := postSortOrder state;
     setupRequired := setupRequired state |}.

Definition with_selectedProvider (v : AiProvider) (state : AppState) : AppState :=
  {| status := status state; error := error state;
     deletingPostId := deletingPostId state;
     refreshingPostId := refreshingPostId state; theme := theme state;
     frameStatus := frameStatus state; isScoring := isScoring state;
     scoringPostIds := scoringPostIds state;
     isFetchingMorePosts := isFetchingMorePosts state;
     apiKeys := apiKeys state;
     apiValidationStatuses := apiValidationStatuses state;
     apiValidationErrorMessages := apiValidationErrorMessages state;
     selectedProvider := v; openRouterModel := openRouterModel state;
     wpConfig := wpConfig state; posts := posts state;
     filteredPosts := filteredPosts state; postsPage := postsPage state;
     hasMorePosts := hasMorePosts state;
     postSearchQuery := postSearchQuery state;
     postSortOrder := postSortOrder state;
     setupRequired := setupRequired state |}.

Definition with_openRouterModel (v : string) (state : AppState) : AppState :=
  {| status := status state; error := error state;
     deletingPostId := deletingPostId state;
     refreshingPostId := refreshingPostId state; theme := theme state;
     frameStatus := frameStatus state; isScoring := isScoring state;
     scoringPostIds := scoringPostIds state;
     isFetchingMorePosts := isFetchingMorePosts state;
     apiKeys := apiKeys state;
     apiValidationStatuses := apiValidationStatuses state;
     apiValidationErrorMessages := apiValidationErrorMessages state;
     selectedProvider := selectedProvider state; openRouterModel := v;
     wpConfig := wpConfig state; posts := posts state;
     filteredPosts := filteredPosts state; postsPage := postsPage state;
     hasMorePosts := hasMorePosts state;
     postSearchQuery := postSearchQuery state;
     postSortOrder := postSortOrder state;
     setupRequired := setupRequired state |}.

Definition with_wpConfig (v : option WordPressConfig) (state : AppState) : AppState :=
  {| status := status state; error := error state;
     deletingPostId := deletingPostId state;
     refreshingPostId := refreshingPostId state; theme := theme state;
     frameStatus := frameStatus state; isScoring := isScoring state;
     scoringPostIds := scoringPostIds state;
     isFetchingMorePosts := isFetchingMorePosts state;
     apiKeys := apiKeys state;
     apiValidationStatuses := apiValidationStatuses state;
     apiValidationErrorMessages := apiValidationErrorMessages state;
     selectedProvider := selectedProvider state;
     openRouterModel := openRouterModel state; wpConfig := v;
     posts := posts state; filteredPosts := filteredPosts state;
     postsPage := postsPage state; hasMorePosts := hasMorePosts state;
     postSearchQuery := postSearchQuery state;
     postSortOrder := postSortOrder state;
     setupRequired := setupRequired state |}.

Definition with_posts (v : list WordPressPost) (state : AppState) : AppState :=
  {| status := status state; error := error state;
     deletingPostId := deletingPostId state;
     refreshingPostId := refreshingPostId state; theme := theme state;
     frameStatus := frameStatus state; isScoring := isScoring state;
     scoringPostIds := scoringPostIds state;
     isFetchingMorePosts := isFetchingMorePosts state;
     apiKeys := apiKeys state;
     apiValidationStatuses := apiValidationStatuses state;
     apiValidationErrorMessages := apiValidationErrorMessages state;
     selectedProvider := selectedProvider state;
     openRouterModel := openRouterModel state; wpConfig := wpConfig state;
     posts := v; filteredPosts := filteredPosts state;
     postsPage := postsPage state; hasMorePosts := hasMorePosts state;
     postSearchQuery := postSearchQuery state;
     postSortOrder := postSortOrder state;
     setupRequired := setupRequired state |}.

Definition with_filteredPosts (v : list WordPressPost) (state : AppState) : AppState :=
  {| status := status state; error := error state;
     deletingPostId := deletingPostId state;
     refreshingPostId := refreshingPostId state; theme := theme state;
     frameStatus := frameStatus state; isScoring := isScoring state;
     scoringPostIds := scoringPostIds state;
     isFetchingMorePosts := isFetchingMorePosts state;
     apiKeys := apiKeys state;
     apiValidationStatuses := apiValidationStatuses state;
     apiValidationErrorMessages := apiValidationErrorMessages state;
     selectedProvider := selectedProvider state;
     openRouterModel := openRouterModel state; wpConfig := wpConfig state;
     posts := posts state; filteredPosts := v; postsPage := postsPage state;
     hasMorePosts := hasMorePosts state;
     postSearchQuery := postSearchQuery state;
     postSortOrder := postSortOrder state;
     setupRequired := setupRequired state |}.

Definition with_postsPage (v : Z) (state : AppState) : AppState :=
  {| status := status state; error := error state;
     deletingPostId := deletingPostId state;
     refreshingPostId := refreshingPostId state; theme := theme state;
     frameStatus := frameStatus state; isScoring := isScoring state;
     scoringPostIds := scoringPostIds state;
     isFetchingMorePosts := isFetchingMorePosts state;
     apiKeys := apiKeys state;
     apiValidationStatuses := apiValidationStatuses state;
     apiValidationErrorMessages := apiValidationErrorMessages state;
     selectedProvider := selectedProvider state;
     openRouterModel := openRouterModel state; wpConfig := wpConfig state;
     posts := posts state; filteredPosts := filteredPosts state;
     postsPage := v; hasMorePosts := hasMorePosts state;
     postSearchQuery := postSearchQuery state;
     postSortOrder := postSortOrder state;
     setupRequired := setupRequired state |}.

Definition with_hasMorePosts (v : bool) (state : AppState) : AppState :=
  {| status := status state; error := error state;
     deletingPostId := deletingPostId state;
     refreshingPostId := refreshingPostId state; theme := theme state;
     frameStatus := frameStatus state; isScoring := isScoring state;
     scoringPostIds := scoringPostIds state;
     isFetchingMorePosts := isFetchingMorePosts state;
     apiKeys := apiKeys state;
     apiValidationStatuses := apiValidationStatuses state;
     apiValidationErrorMessages := apiValidationErrorMessages state;
     selectedProvider := selectedProvider state;
     openRouterModel := openRouterModel state; wpConfig := wpConfig state;
     posts := posts state; filteredPosts := filteredPosts state;
     postsPage := postsPage state; hasMorePosts := v;
     postSearchQuery := postSearchQuery state;
     postSortOrder := postSortOrder state;
     setupRequired := setupRequired state |}.

Definition with_postSearchQuery (v : string) (state : AppState) : AppState :=
  {| status := status state; error := error state;
     deletingPostId := deletingPostId state;
     refreshingPostId := refreshingPostId state; theme := theme state;
     frameStatus := frameStatus state; isScoring := isScoring state;
     scoringPostIds := scoringPostIds state;
     isFetchingMorePosts := isFetchingMorePosts state;
     apiKeys := apiKeys state;
     apiValidationStatuses := apiValidationStatuses state;
     apiValidationErrorMessages := apiValidationErrorMessages state;
     selectedProvider := selectedProvider state;
     openRouterModel := openRouterModel state; wpConfig := wpConfig state;
     posts := posts state; filteredPosts := filteredPosts state;
     postsPage := postsPage state; hasMorePosts := hasMorePosts state;
     postSearchQuery := v; postSortOrder := postSortOrder state;
     setupRequired := setupRequired state |}.

Definition with_postSortOrder (v : SortOrder) (state : AppState) : AppState :=
  {| status := status state; error := error state;
     deletingPostId := deletingPostId state;
     refreshingPostId := refreshingPostId state; theme := theme state;
     frameStatus := frameStatus state; isScoring := isScoring state;
     scoringPostIds := scoringPostIds state;
     isFetchingMorePosts := isFetchingMorePosts state;
     apiKeys := apiKeys state;
     apiValidationStatuses := apiValidationStatuses state;
     apiValidationErrorMessages := apiValidationErrorMessages state;
     selectedProvider := selectedProvider state;
     openRouterModel := openRouterModel state; wpConfig := wpConfig state;
     posts := posts state; filteredPosts := filteredPosts state;
     postsPage := postsPage state; hasMorePosts := hasMorePosts state;
     postSearchQuery := postSearchQuery state; postSortOrder := v;
     setupRequired := setupRequired state |}.

Definition with_setupRequired (v : bool) (state : AppState) : AppState :=
  {| status := status state; error := error state;
     deletingPostId := deletingPostId state;
     refreshingPostId := refreshingPostId state; theme := theme state;
     frameStatus := frameStatus state; isScoring := isScoring state;
     scoringPostIds := scoringPostIds state;
     isFetchingMorePosts := isFetchingMorePosts state;
     apiKeys := apiKeys state;
     apiValidationStatuses := apiValidationStatuses state;
     apiValidationErrorMessages := apiValidationErrorMessages state;
     selectedProvider := selectedProvider state;
     openRouterModel := openRouterModel state; wpConfig := wpConfig state;
     posts := posts state; filteredPosts := filteredPosts state;
     postsPage := postsPage state; hasMorePosts := hasMorePosts state;
     postSearchQuery := postSearchQuery state;
     postSortOrder := postSortOrder state; setupRequired := v |}.

(** [Partial<AppState>] *)
Module PartialState.

Record AppState := {
  status : option (Status);
  error : option (option string);
  deletingPostId : option (option Z);
  refreshingPostId : option (option Z);
  theme : option (Theme);
  frameStatus : option (FrameStatus);
  isScoring : option (bool);
  scoringPostIds : option (list Z);
  isFetchingMorePosts : option (bool);
  apiKeys : option (AiProvider -> string);
  apiValidationStatuses : option (AiProvider -> ApiValidationStatus);
  apiValidationErrorMessages : option (AiProvider -> option string);
  selectedProvider : option (AiProvider);
  openRouterModel : option (string);
  wpConfig : option (option WordPressConfig);
  posts : option (list WordPressPost);
  filteredPosts : option (list WordPressPost);
  postsPage : option (Z);
  hasMorePosts : option (bool);
  postSearchQuery : option (string);
  postSortOrder : option (SortOrder);
  setupRequired : option (bool)
}.

End PartialState.

(** [{...state, ...payload}] *)
Definition initialize (state : AppState) (payload : PartialState.AppState)
  : AppState :=
  {| status := orElse (PartialState.status payload) (status state);
     error := orElse (PartialState.error payload) (error state);
     deletingPostId :=
       orElse (PartialState.deletingPostId payload) (deletingPostId state);
     refreshingPostId :=
       orElse (PartialState.refreshingPostId payload) (refreshingPostId state);
     theme := orElse (PartialState.theme payload) (theme state);
     frameStatus :=
       orElse (PartialState.frameStatus payload) (frameStatus state);
     isScoring := orElse (PartialState.isScoring payload) (isScoring state);
     scoringPostIds :=
       orElse (PartialState.scoringPostIds payload) (scoringPostIds state);
     isFetchingMorePosts :=
       orElse (PartialState.isFetchingMorePosts payload) (isFetchingMorePosts state);
     apiKeys := orElse (PartialState.apiKeys payload) (apiKeys state);
     apiValidationStatuses :=
       orElse (PartialState.apiValidationStatuses payload) (apiValidationStatuses state);
     apiValidationErrorMessages :=
       orElse (PartialState.apiValidationErrorMessages payload) (apiValidationErrorMessages state);
     selectedProvider :=
       orElse (PartialState.selectedProvider payload) (selectedProvider state);
     openRouterModel :=
       orElse (PartialState.openRouterModel payload) (openRouterModel state);
     wpConfig := orElse (PartialState.wpConfig payload) (wpConfig state);
     posts := orElse (PartialState.posts payload) (posts state);
     filteredPosts :=
       orElse (PartialState.filteredPosts payload) (filteredPosts state);
     postsPage := orElse (PartialState.postsPage payload) (postsPage state);
     hasMorePosts :=
       orElse (PartialState.hasMorePosts payload) (hasMorePosts state);
     postSearchQuery :=
       orElse (PartialState.postSearchQuery payload) (postSearchQuery state);
     postSortOrder :=
       orElse (PartialState.postSortOrder payload) (postSortOrder state);
     setupRequired :=
       orElse (PartialState.setupRequired payload) (setupRequired state) |}.

Inductive Action :=
| INITIALIZE_STATE (payload : PartialState.AppState)
| SET_THEME (payload : Theme)
| SET_PROVIDER (payload : AiProvider)
| SET_API_KEY (provider : AiProvider) (key : string)
| SET_OPENROUTER_MODEL (payload : string)
| VALIDATE_API_KEY_START (payload : AiProvider)
| VALIDATE_API_KEY_SUCCESS (payload : AiProvider)
| VALIDATE_API_KEY_FAILURE (provider : AiProvider)
| CONNECT_START
| CONNECT_SUCCESS (config : WordPressConfig) (posts : list WordPressPost)
    (totalPages : Z)
| CONNECT_FAILURE (payload : string)
| SETUP_REQUIRED (payload : WordPressConfig)
| RESET
| SET_POST_SEARCH_QUERY (payload : string)
| SET_POST_SORT_ORDER (payload : SortOrder)
| DELETE_SNIPPET_START (payload : Z)
| DELETE_SNIPPET_SUCCESS (payload : WordPressPost)
| DELETE_SNIPPET_FAILURE (postId : Z) (error : option string)
| SCORE_POSTS_START (postIds : list Z)
| SCORE_POSTS_PROGRESS_UPDATE (payload : list Partial.WordPressPost)
| SCORE_POSTS_SUCCESS
| SCORE_POSTS_FAILURE (payload : string)
| INSERT_SNIPPET_SUCCESS (payload : WordPressPost)
| FETCH_MORE_POSTS_START
| FETCH_MORE_POSTS_SUCCESS (posts : list WordPressPost) (page : Z)
    (totalPages : Z)
| FETCH_MORE_POSTS_FAILURE (payload : string)
| REFRESH_TOOL_START (payload : Z)
| REFRESH_TOOL_SUCCESS (postId : Z) (toolCreationDate : Z)
| REFRESH_TOOL_FAILURE (postId : Z) (error : option string).

Definition initialState : AppState :=
  {| status := StatusIdle; error := None; deletingPostId := None;
     refreshingPostId := None; theme := light; frameStatus := initializing;
     isScoring := false; scoringPostIds := []; isFetchingMorePosts := false;
     apiKeys := fun _ => EmptyString;
     apiValidationStatuses := fun _ => Unvalidated;
     apiValidationErrorMessages := fun _ => None;
     selectedProvider := Gemini;
     openRouterModel := "mistralai/mistral-7b-instruct";
     wpConfig := None; posts := []; filteredPosts := []; postsPage := 1;
     hasMorePosts := false; postSearchQuery := EmptyString;
     postSortOrder := date; setupRequired := false |}.

(** [{...members, [provider]: v}] *)
Definition AiProvider_eqb (a b : AiProvider) : bool :=
  match a, b with
  | Gemini, Gemini | OpenAI, OpenAI | Anthropic, Anthropic
  | OpenRouter, OpenRouter => true
  | _, _ => false
  end.

Definition override {A} (members : AiProvider -> A) (provider : AiProvider)
    (v : A) : AiProvider -> A :=
  fun p => if AiProvider_eqb p provider then v else members p.

(** [posts.map(p => p.id === payload.id ? payload : p)] *)
Definition replacePost (payload : WordPressPost) (posts : list WordPressPost)
  : list WordPressPost :=
  map (fun p => if (id p =? id payload)%Z then payload else p) posts.

(** [s.id === k] *)
Definition hasId (k : Z) (s : Partial.WordPressPost) : bool :=
  match Partial.id s with
  | Some i => (i =? k)%Z
  | None => false
  end.

(** The posts of [CONNECT_SUCCESS], with the scores of the cache. *)
Definition hydrate (cachedScores : opportunityScoreCache.ScoreCache)
    (post : WordPressPost) : WordPressPost :=
  match opportunityScoreCache.get (id post) cachedScores with
  | Some cached =>
      {| id := id post; title_rendered := title_rendered post;
         content_rendered := content_rendered post; link := link post;
         featuredImageUrl := featuredImageUrl post;
         hasOptimizerSnippet := hasOptimizerSnippet post;
         toolId := toolId post;
         opportunityScore :=
           Some (opportunityScoreCache.opportunityScore cached);
         opportunityRationale :=
           Some (opportunityScoreCache.opportunityRationale cached);
         toolCreationDate := toolCreationDate post |}
  | None => post
  end.

(** The posts of [SCORE_POSTS_PROGRESS_UPDATE]. *)
Definition applyScores (payload : list Partial.WordPressPost)
    (post : WordPressPost) : WordPressPost :=
  match find (hasId (id post)) payload with
  | Some scoreData => spread post scoreData
  | None => post
  end.

(** The posts of [REFRESH_TOOL_SUCCESS]. *)
Definition stamp (postId creationDate : Z) (p : WordPressPost)
  : WordPressPost :=
  if (id p =? postId)%Z
  then {| id := id p; title_rendered := title_rendered p;
          content_rendered := content_rendered p; link := link p;
          featuredImageUrl := featuredImageUrl p;
          hasOptimizerSnippet := hasOptimizerSnippet p; toolId := toolId p;
          opportunityScore := opportunityScore p;
          opportunityRationale := opportunityRationale p;
          toolCreationDate := Some creationDate |}
  else p.

Section Reducer.

Variable quota : opportunityScoreCache.ScoreCache -> bool.

(** [appReducer]: [now] is the time and [item] the stored cache, which
    [CONNECT_SUCCESS] reads through [getScores]; the messages it writes to
    the console are left out. *)
Definition appReducer (now : Z) (state : AppState) (action : Action)
    (item : opportunityScoreCache.Item)
  : AppState * opportunityScoreCache.Item :=
  match action with
  | INITIALIZE_STATE payload => (initialize state payload, item)
  | SET_THEME payload => (with_theme payload state, item)
  | SET_PROVIDER payload => (with_selectedProvider payload state, item)
  | SET_API_KEY provider key =>
      let newKeys := override (apiKeys state) provider key in
      let newStatuses :=
        override (apiValidationStatuses state) provider Unvalidated in
      (with_apiValidationStatuses newStatuses (with_apiKeys newKeys state), item)
  | SET_OPENROUTER_MODEL payload => (with_openRouterModel payload state, item)
  | VALIDATE_API_KEY_START payload =>
      (with_apiValidationStatuses
         (override (apiValidationStatuses state) payload Validating) state, item)
  | VALIDATE_API_KEY_SUCCESS payload =>
      (with_apiValidationStatuses
         (override (apiValidationStatuses state) payload Valid) state, item)
  | VALIDATE_API_KEY_FAILURE provider =>
      (with_apiValidationStatuses
         (override (apiValidationStatuses state) provider Invalid) state, item)
  | CONNECT_START =>
      (with_setupRequired false (with_error None
         (with_status StatusLoading state)), item)
  | CONNECT_SUCCESS config initialPosts totalPages =>
      let '(cachedScores, item') :=
        opportunityScoreCache.getScores quota now item in
      let hydratedPosts := map (hydrate cachedScores) initialPosts in
      let initialFilteredPosts :=
        filterAndSortPosts hydratedPosts (postSearchQuery state)
          (postSortOrder state) in
      (with_hasMorePosts (1 <? totalPages)%Z (with_postsPage 1%Z
         (with_filteredPosts initialFilteredPosts (with_posts hydratedPosts
            (with_wpConfig (Some config) (with_status StatusSuccess state))))),
       item')
  | CONNECT_FAILURE payload =>
      (with_error (Some payload) (with_status StatusError state), item)
  | SETUP_REQUIRED payload =>
      (with_wpConfig (Some payload) (with_setupRequired true
         (with_error None (with_status StatusIdle state))), item)
  | RESET =>
      (with_theme (theme state) (with_apiKeys (apiKeys state) initialState),
       item)
  | SET_POST_SEARCH_QUERY payload =>
      let filteredByQuery :=
        filterAndSortPosts (posts state) payload (postSortOrder state) in
      (with_filteredPosts filteredByQuery
         (with_postSearchQuery payload state), item)
  | SET_POST_SORT_ORDER payload =>
      let sorted :=
        filterAndSortPosts (posts state) (postSearchQuery state) payload in
      (with_filteredPosts sorted (with_postSortOrder payload state), item)
  | DELETE_SNIPPET_START payload =>
      (with_deletingPostId (Some payload) state, item)
  | DELETE_SNIPPET_SUCCESS payload =>
      let postsAfterDelete := replacePost payload (posts state) in
      (with_filteredPosts
         (filterAndSortPosts postsAfterDelete (postSearchQuery state)
            (postSortOrder state))
         (with_posts postsAfterDelete (with_deletingPostId None state)), item)
  | DELETE_SNIPPET_FAILURE _ _ => (with_deletingPostId None state, item)
  | SCORE_POSTS_START postIds =>
      (with_scoringPostIds postIds (with_error None
         (with_isScoring true state)), item)
  | SCORE_POSTS_PROGRESS_UPDATE payload =>
      let updatedPosts := map (applyScores payload) (posts state) in
      let updatedScoringIds :=
        filter (fun i => negb (existsb (hasId i) payload))
               (scoringPostIds state) in
      (with_scoringPostIds updatedScoringIds
         (with_filteredPosts
            (filterAndSortPosts updatedPosts (postSearchQuery state)
               (postSortOrder state))
            (with_posts updatedPosts state)), item)
  | SCORE_POSTS_SUCCESS =>
      (with_filteredPosts
         (filterAndSortPosts (posts state) (postSearchQuery state) opportunity)
         (with_postSortOrder opportunity (with_scoringPostIds []
            (with_isScoring false state))), item)
  | SCORE_POSTS_FAILURE payload =>
      (with_error (Some payload) (with_scoringPostIds []
         (with_isScoring false state)), item)
  | INSERT_SNIPPET_SUCCESS payload =>
      let postsAfterInsert := replacePost payload (posts state) in
      (with_filteredPosts
         (filterAndSortPosts postsAfterInsert (postSearchQuery state)
            (postSortOrder state))
         (with_posts postsAfterInsert state), item)
  | FETCH_MORE_POSTS_START => (with_isFetchingMorePosts true state, item)
  | FETCH_MORE_POSTS_SUCCESS morePosts page totalPages =>
      let newPosts := posts state ++ morePosts in
      (with_hasMorePosts (page <? totalPages)%Z (with_postsPage page
         (with_filteredPosts
            (filterAndSortPosts newPosts (postSearchQuery state)
               (postSortOrder state))
            (with_posts newPosts (with_isFetchingMorePosts false state)))),
       item)
  | FETCH_MORE_POSTS_FAILURE payload =>
      (with_error (Some payload) (with_isFetchingMorePosts false state), item)
  | REFRESH_TOOL_START payload =>
      (with_refreshingPostId (Some payload) state, item)
  | REFRESH_TOOL_SUCCESS postId creationDate =>
      let postsAfterRefresh := map (stamp postId creationDate) (posts state) in
      (with_filteredPosts
         (filterAndSortPosts postsAfterRefresh (postSearchQuery state)
            (postSortOrder state))
         (with_posts postsAfterRefresh (with_refreshingPostId None state)),
       item)
  | REFRESH_TOOL_FAILURE postId _ =>
      (with_error
         (Some ("Failed to refresh tool for post " +++ numberToString postId
                +++ "."))
         (with_refreshingPostId None state), item)
  end.

End Reducer.

(** The list shown is the view of the posts for the query and the order
    of the state. *)
Definition consistent (state : AppState) : Prop :=
  filteredPosts state
  = filterAndSortPosts (posts state) (postSearchQuery state)
      (postSortOrder state).

(** A payload of [INITIALIZE_STATE] that leaves the posts, the list shown,
    the query and the order alone. *)
Definition settingsOnly (action : Action) : Prop :=
  match action with
  | INITIALIZE_STATE payload =>
      PartialState.posts payload = None
      /\ PartialState.filteredPosts payload = None
      /\ PartialState.postSearchQuery payload = None
      /\ PartialState.postSortOrder payload = None
  | _ => True
  end.

End App.

(** The state after the actions were dispatched in order, each with the
    time at which the reducer ran. *)
Fixpoint dispatchAll (quota : opportunityScoreCache.ScoreCache -> bool)
    (events : list (Z * App.Action)) (state : App.AppState)
    (item : opportunityScoreCache.Item)
  : App.AppState * opportunityScoreCache.Item :=
  match events with
  | [] => (state, item)
  | (now, action) :: rest =>
      let '(state', item') := App.appReducer quota now state action item in
      dispatchAll quota rest state' item'
  end.

(** A post of the list, as [fetchPosts] builds it. *)
Definition fetched (i : Z) (title : string) : App.WordPressPost :=
  {| App.id := i; App.title_rendered := title;
     App.content_rendered := "<h2>Intro</h2><p>Text</p>";
     App.link := "https://example.org/?p=" +++ numberToString i;
     App.featuredImageUrl := Some "https://example.org/image.png";
     App.hasOptimizerSnippet := false; App.toolId := None;
     App.opportunityScore := None; App.opportunityRationale := None;
     App.toolCreationDate := None |}.

Definition site : App.WordPressConfig :=
  {| App.url := "https://example.org"; App.username := "editor";
     App.appPassword := "secret" |}.

(** [runOpportunityAnalysis] up to its call of the service: what it
    dispatches first, and the posts it sends to be scored. *)
Inductive Analysis :=
| NotStarted
    (* returns at once *)
| Resorted
    (* dispatches [SET_POST_SORT_ORDER] with ['opportunity'] and returns *)
| Started (postsToScore : list App.WordPressPost).
    (* dispatches [SCORE_POSTS_START] and calls [getOpportunityScores] *)

Definition runOpportunityAnalysis
    (quota : opportunityScoreCache.ScoreCache -> bool) (now : Z)
    (state : App.AppState) (item : opportunityScoreCache.Item)
  : Analysis * opportunityScoreCache.Item :=
  let apiKey := App.apiKeys state (App.selectedProvider state) in
  if negb (Js.nonempty apiKey) || (length (App.posts state) =? 0)
  then (NotStarted, item)
  else
    let '(cachedScores, item') :=
      opportunityScoreCache.getScores quota now item in
    let postsToScore :=
      filter (fun p =>
                match opportunityScoreCache.get (App.id p) cachedScores with
                | None => true
                | Some _ => false
                end) (App.posts state) in
    if length postsToScore =? 0 then (Resorted, item')
    else (Started postsToScore, item').

(** A state with a key for the selected provider and two posts. *)
Definition connected : App.AppState :=
  App.with_posts [fetched 7 "Budget"; fetched 8 "Garden"]
    (App.with_apiKeys (fun _ => "key") App.initialState).

(** * The WordPress client ([wordpressService.ts]) *)

(** [s.endsWith(suffix)] *)
Fixpoint endsWith (suffix s : string) : bool :=
  String.eqb s suffix
  || match s with
     | EmptyString => false
     | String _ s' => endsWith suffix s'
     end.

Definition getApiUrl (config : App.WordPressConfig) (endpoint : string)
  : string :=
  let url := if endsWith "/" (App.url config) then App.url config
             else App.url config +++ "/" in
  url +++ "wp-json/wp/v2/" +++ endpoint.

(** A request as [fetchWithTimeout] is given it: the method, the address
    and, for a [POST], the value whose JSON text is the body.  The
    authorization header, the same in all requests, is left out. *)
Inductive Request :=
| GET (url : string)
| POST (url : string) (body : json)
| DELETE (url : string).

(** [x.meta?._cf_tool_html_snippet] *)
Definition savedSnippetOf (data : json) : result value :=
  meta <- getProp (Some data) "meta" ;;
  optProp meta "_cf_tool_html_snippet".

(** [!savedSnippet || savedSnippet.trim().length === 0]: only a string has
    the method [trim]. *)
Definition blank (savedSnippet : value) : result bool :=
  if negb (truthy savedSnippet) then Ok true
  else match savedSnippet with
       | Some (JStr s) => Ok (String.length (Js.trim s) =? 0)
       | _ => Throw TypeError
       end.

Definition CONNECTOR_OUTDATED : JsError :=
  mkError ("CONNECTOR_OUTDATED: The " +++ JSON.q "AI Connector" +++
           " on your WordPress site is blocking the code. " +++
           "It failed to save the HTML snippet. " +++
           "Please go to the main dashboard, disconnect, and update your " +++
           "PHP Snippet to v3.1 as shown in the instructions.").

Section WordPress.

Variable JSON_parse : string -> result json.

(** The outcome of [fetchWithTimeout] for a request, [n] requests having
    been sent before: a response, or the error of a failed or aborted
    request. *)
Variable fetch : nat -> Request -> result Response.

(** The text of a value in a template literal. *)
Variable toText : value -> string.

(** Sending a request: the requests sent are kept in order. *)
Definition send (request : Request) (sent : list Request)
  : result Response * list Request :=
  (fetch (length sent) request, sent ++ [request]).

(** [checkSetup]: the [try] block, and the function with its [catch]. *)
Definition checkSetupTry (config : App.WordPressConfig) (sent : list Request)
  : result bool * list Request :=
  let url := (if endsWith "/" (App.url config) then App.url config
              else App.url config +++ "/") +++ "wp-json/wp/v2/types/cf_tool" in
  match send (GET url) sent with
  | (Throw e, sent') => (Throw e, sent')
  | (Ok response, sent') =>
      if (resp_status response =? 404)%Z then (Ok false, sent')
      else if (resp_status response =? 401)%Z
      then (Throw (mkError "Authentication failed. Check username/app password."),
            sent')
      else if negb (ok response)
      then (Throw (mkError ("Setup check failed: " +++
                            numberToString (resp_status response))), sent')
      else (Ok true, sent')
  end.

Definition checkSetup (config : App.WordPressConfig) (sent : list Request)
  : result bool * list Request :=
  match checkSetupTry config sent with
  | (Ok isSetup, sent') => (Ok isSetup, sent')
  | (Throw error, sent') =>
      if String.eqb (name error) "AbortError"
      then (Throw (mkError "CONNECTION_FAILED: Request timed out. Server too slow."),
            sent')
      else if String.eqb (name error) "TypeError"
      then (Throw (mkError "CONNECTION_FAILED: Network error (CORS/Offline)."),
            sent')
      else (Throw error, sent')
  end.

Definition deleteCfTool (config : App.WordPressConfig) (toolId : value)
    (sent : list Request) : result unit * list Request :=
  let url := getApiUrl config ("cf_tool/" +++ toText toolId +++ "?force=true") in
  match send (DELETE url) sent with
  | (Throw e, sent') => (Throw e, sent')
  | (Ok response, sent') =>
      if negb (ok response) && negb (resp_status response =? 404)%Z
      then (Throw (mkError ("Failed to delete tool. Status: " +++
                            numberToString (resp_status response))), sent')
      else (Ok tt, sent')
  end.

(** [createCfTool]: the second look at the saved snippet, the [try] block,
    and the function with its [catch]. *)
Definition verifySnippet (url : string) (toolData : json)
    (sent : list Request) : result value * list Request :=
  match getProp (Some toolData) "id" with
  | Throw e => (Throw e, sent)
  | Ok toolId =>
      match send (GET (url +++ "/" +++ toText toolId)) sent with
      | (Throw e, sent') => (Throw e, sent')
      | (Ok verifyResponse, sent') =>
          (verifyData <- JSON_parse (resp_body verifyResponse) ;;
           savedSnippetOf verifyData, sent')
      end
  end.

Definition createCfToolTry (config : App.WordPressConfig)
    (title content : string) (sent : list Request)
  : result json * list Request :=
  let url := getApiUrl config "cf_tool" in
  let body :=
    JObj [("title", JStr title);
          ("content",
           JStr "<!-- AI Tool HTML is stored in a custom meta field for security. -->");
          ("status", JStr "publish");
          ("meta", JObj [("_cf_tool_html_snippet", JStr content)])] in
  match send (POST url body) sent with
  | (Throw e, sent1) => (Throw e, sent1)
  | (Ok response, sent1) =>
      if negb (ok response)
      then (Throw (mkError ("Failed to create tool post. Status: " +++
                            numberToString (resp_status response))), sent1)
      else
        match JSON_parse (resp_body response) with
        | Throw e => (Throw e, sent1)
        | Ok toolData =>
            match savedSnippetOf toolData with
            | Throw e => (Throw e, sent1)
            | Ok firstLook =>
                let '(savedSnippet, sent2) :=
                  if negb (truthy firstLook)
                  then verifySnippet url toolData sent1
                  else (Ok firstLook, sent1) in
                match savedSnippet <- savedSnippet ;; blank savedSnippet with
                | Throw e => (Throw e, sent2)
                | Ok false => (Ok toolData, sent2)
                | Ok true =>
                    match getProp (Some toolData) "id" with
                    | Throw e => (Throw e, sent2)
                    | Ok toolId =>
                        let '(_, sent3) := deleteCfTool config toolId sent2 in
                        (Throw CONNECTOR_OUTDATED, sent3)
                    end
                end
            end
        end
  end.

Definition createCfTool (config : App.WordPressConfig)
    (title content : string) (sent : list Request)
  : result json * list Request :=
  match createCfToolTry config title content sent with
  | (Ok toolData, sent') => (Ok toolData, sent')
  | (Throw error, sent') =>
      match message error with
      | None => (Throw TypeError, sent')
      | Some text =>
          if Js.includes "CONNECTOR_OUTDATED" text then (Throw error, sent')
          else if String.eqb (name error) "AbortError"
          then (Throw (mkError "Timeout creating tool."), sent')
          else (Throw error, sent')
      end
  end.

End WordPress.

(** A server whose connector does not save the snippet: the tool is
    created, but its meta field comes back empty. *)
Definition strippingServer (n : nat) (request : Request) : result Response :=
  match request with
  | DELETE _ => Ok {| resp_status := 500; resp_body := "" |}
  | _ => Ok {| resp_status := 200;
               resp_body := "{" +++ JSON.q "id" +++ ":12," +++ JSON.q "meta"
                            +++ ":{" +++ JSON.q "_cf_tool_html_snippet" +++ ":"
                            +++ JSON.q "" +++ "}}" |}
  end.

Definition decimal (v : value) : string :=
  match v with
  | Some (JNum q) => numberToString (Qnum q)
  | _ => "undefined"
  end.

(** * The handlers of the application context *)

Record ToolIdea := {
  title : string;
  description : string;
  icon : string
}.

(** The first position at which [/pat/i] matches, for a literal [pat]. *)
Fixpoint indexOfCI (pat s : string) : option nat :=
  if startsWithCI pat s then Some 0
  else match s with
       | EmptyString => None
       | String _ s' => option_map S (indexOfCI pat s')
       end.

(** The object [updatePost] returns, [data] being the post the server
    answered with and [detected] the tool id found in its content by
    [SHORTCODE_DETECTION_REGEX], if any. *)
Definition updatedPostOf (data : WordPressPost) (detected : option Z)
  : Partial.WordPressPost :=
  {| Partial.id := Some (id data);
     Partial.title_rendered := Some (title_rendered data);
     Partial.content_rendered := Some (content_rendered data);
     Partial.link := Some (link data);
     Partial.featuredImageUrl := Some None;
     Partial.hasOptimizerSnippet :=
       Some (match detected with Some _ => true | None => false end);
     Partial.toolId := Some detected;
     Partial.opportunityScore := None;
     Partial.opportunityRationale := None;
     Partial.toolCreationDate := None |}.

(** [{ hasOptimizerSnippet: true, toolId: tool.id, toolCreationDate: now }] *)
Definition inserted (toolId now : Z) : Partial.WordPressPost :=
  {| Partial.id := None; Partial.title_rendered := None;
     Partial.content_rendered := None; Partial.link := None;
     Partial.featuredImageUrl := None;
     Partial.hasOptimizerSnippet := Some true;
     Partial.toolId := Some (Some toolId);
     Partial.opportunityScore := None;
     Partial.opportunityRationale := None;
     Partial.toolCreationDate := Some (Some now) |}.

(** [{ hasOptimizerSnippet: false, toolId: undefined,
      opportunityScore: undefined, toolCreationDate: undefined,
      opportunityRationale: undefined }] *)
Definition cleared : Partial.WordPressPost :=
  {| Partial.id := None; Partial.title_rendered := None;
     Partial.content_rendered := None; Partial.link := None;
     Partial.featuredImageUrl := None;
     Partial.hasOptimizerSnippet := Some false;
     Partial.toolId := Some None;
     Partial.opportunityScore := Some None;
     Partial.opportunityRationale := Some None;
     Partial.toolCreationDate := Some None |}.

(** The calls of the WordPress client, with their arguments after the
    configuration. *)
Inductive Call :=
| CreateCfTool (toolTitle snippet : string)
| UpdatePost (postId : Z) (content : string)
| DeleteCfTool (toolId : Z)
| FetchCfTool (toolId : Z)
| UpdateCfTool (toolId : Z) (toolTitle snippet : string).

(** [content] with the paragraph of the shortcode put in: after the first
    [</h2>], or at the start. *)
Definition newContent (content shortcode : string) : string :=
  match indexOfCI "</h2>" content with
  | Some index =>
      let insertIndex := index + 5 in
      substring 0 insertIndex content +++ "<p>" +++ shortcode +++ "</p>"
        +++ Js.drop insertIndex content
  | None => "<p>" +++ shortcode +++ "</p>" +++ content
  end.

Section Handlers.

(** The outcomes of the calls of the client, [n] calls having been made
    before: the id of the tool created; the post the server answers an
    update with, and the tool id detected in its content; the title and
    the snippet of a tool. *)
Variable createCfTool : nat -> string -> string -> result Z.
Variable updatePost : nat -> Z -> string -> result (WordPressPost * option Z).
Variable deleteCfTool : nat -> Z -> result unit.
Variable fetchCfTool : nat -> Z -> result (string * string).
Variable updateCfTool : nat -> Z -> string -> string -> result unit.

(** The stream [aiService.refreshSnippet] gives for a post and the snippet
    to refresh. *)
Variable refreshSnippet : App.WordPressPost -> string -> Stream.

(** [SHORTCODE_REMOVAL_REGEX] applied by [replace]. *)
Variable removeShortcodes : string -> string.

(** [insertSnippet]: the action dispatched, or the error thrown, and the
    calls made. *)
Definition insertSnippet (now : Z) (state : App.AppState)
    (post : App.WordPressPost) (snippet : string) (idea : ToolIdea)
    (calls : list Call) : result App.Action * list Call :=
  match App.wpConfig state with
  | None => (Throw (mkError "Missing required data to insert snippet."), calls)
  | Some wpConfig =>
      if negb (Js.nonempty snippet)
      then (Throw (mkError "Missing required data to insert snippet."), calls)
      else
        let calls1 := calls ++ [CreateCfTool (title idea) snippet] in
        match createCfTool (length calls) (title idea) snippet with
        | Throw e => (Throw e, calls1)
        | Ok toolId =>
            let shortcode :=
              "[contentforge_tool id=" +++ JSON.q (numberToString toolId)
              +++ "]" in
            let content := newContent (App.content_rendered post) shortcode in
            let calls2 := calls1 ++ [UpdatePost (App.id post) content] in
            match updatePost (length calls1) (App.id post) content with
            | Throw e => (Throw e, calls2)
            | Ok (data, detected) =>
                let finalPost :=
                  App.spread
                    (App.spread post (updatedPostOf data detected))
                    (inserted toolId now) in
                (Ok (App.INSERT_SNIPPET_SUCCESS finalPost), calls2)
            end
        end
  end.

(** [deleteSnippet]: the actions dispatched and the calls made. *)
Definition deleteSnippet (state : App.AppState) (postId : Z)
    (toolId : option Z) (calls : list Call) : list App.Action * list Call :=
  match App.wpConfig state with
  | None => ([], calls)
  | Some wpConfig =>
      let '(deleted, calls1) :=
        match toolId with
        | Some t =>
            if (t =? 0)%Z then (Ok tt, calls)
            else (deleteCfTool (length calls) t, calls ++ [DeleteCfTool t])
        | None => (Ok tt, calls)
        end in
      let '(outcome, calls2) :=
        match deleted with
        | Throw e => (Throw e, calls1)
        | Ok _ =>
            match find (fun p => (App.id p =? postId)%Z) (App.posts state) with
            | None => (Throw (mkError "Post not found"), calls1)
            | Some post =>
                let content := removeShortcodes (App.content_rendered post) in
                match updatePost (length calls1) postId content with
                | Throw e => (Throw e, calls1 ++ [UpdatePost postId content])
                | Ok (data, detected) =>
                    (Ok (App.spread
                           (App.spread post (updatedPostOf data detected))
                           cleared),
                     calls1 ++ [UpdatePost postId content])
                end
            end
        end in
      ([App.DELETE_SNIPPET_START postId;
        match outcome with
        | Ok freshPostDetails => App.DELETE_SNIPPET_SUCCESS freshPostDetails
        | Throw e => App.DELETE_SNIPPET_FAILURE postId (message e)
        end], calls2)
  end.

(** [refreshTool]: the actions dispatched and the calls made. *)
Definition refreshTool (now : Z) (state : App.AppState) (postId toolId : Z)
    (calls : list Call) : list App.Action * list Call :=
  match App.wpConfig state,
        find (fun p => (App.id p =? postId)%Z) (App.posts state) with
  | Some wpConfig, Some post =>
      let calls1 := calls ++ [FetchCfTool toolId] in
      let '(outcome, calls2) :=
        match fetchCfTool (length calls) toolId with
        | Throw e => (Throw e, calls1)
        | Ok (oldTitle, oldSnippet) =>
            let stream := refreshSnippet post oldSnippet in
            match completion stream with
            | Throw e => (Throw e, calls1)
            | Ok _ =>
                let newSnippet := fold_right String.append "" (yielded stream) in
                if Js.nonempty newSnippet
                then (updateCfTool (length calls1) toolId oldTitle newSnippet,
                      calls1 ++ [UpdateCfTool toolId oldTitle newSnippet])
                else (Throw (mkError "AI failed to generate a refreshed snippet."),
                      calls1)
            end
        end in
      ([App.REFRESH_TOOL_START postId;
        match outcome with
        | Ok _ => App.REFRESH_TOOL_SUCCESS postId now
        | Throw e => App.REFRESH_TOOL_FAILURE postId (message e)
        end], calls2)
  | _, _ => ([], calls)
  end.

End Handlers.

(** * The dashboard ([PostDashboard]) *)

(** [topOpportunity]: [None] is [null] or [undefined]. *)
Definition topOpportunity (isScoring : bool) (posts : list App.WordPressPost)
  : option App.WordPressPost :=
  if isScoring || (length posts =? 0) then None
  else
    let sorted :=
      App.sort
        (filter (fun p => negb (App.hasOptimizerSnippet p)
                          && match App.opportunityScore p with
                             | Some _ => true
                             | None => false
                             end) posts) in
    hd_error sorted.

(** * Connecting to the site *)

Definition POSTS_PER_PAGE : Z := 20.

Section Connection.

Variable fetch : nat -> Request -> result Response.

(** What [fetchPosts] makes of a response with a status in 200..299: the
    posts it builds from the body and the number of pages it reads in the
    headers, or the error thrown on the way. *)
Variable readPosts : Response -> result (list App.WordPressPost * Z).

(** Whether [localStorage.setItem] accepts the text of the configuration,
    and the error it throws when it does not. *)
Variable saveConfig : App.WordPressConfig -> bool.
Variable quotaError : JsError.

(** [fetchPosts]: the [try] block, and the function with its [catch]. *)
Definition fetchPostsTry (config : App.WordPressConfig) (page : Z)
    (sent : list Request)
  : result (list App.WordPressPost * Z) * list Request :=
  let url :=
    getApiUrl config
      ("posts?_fields=id,title,content,link,_links&per_page="
       +++ numberToString POSTS_PER_PAGE +++ "&page=" +++ numberToString page
       +++ "&status=publish&_embed=wp:featuredmedia") in
  match send fetch (GET url) sent with
  | (Throw e, sent') => (Throw e, sent')
  | (Ok response, sent') =>
      if negb (ok response)
      then if (resp_status response =? 401)%Z
           then (Throw (mkError "Authentication failed."), sent')
           else (Throw (mkError ("Failed to fetch posts. Status: " +++
                                 numberToString (resp_status response))), sent')
      else (readPosts response, sent')
  end.

Definition fetchPosts (config : App.WordPressConfig) (page : Z)
    (sent : list Request)
  : result (list App.WordPressPost * Z) * list Request :=
  match fetchPostsTry config page sent with
  | (Ok r, sent') => (Ok r, sent')
  | (Throw error, sent') =>
      if String.eqb (name error) "AbortError"
      then (Throw (mkError "CONNECTION_FAILED: Timeout."), sent')
      else if String.eqb (name error) "TypeError"
      then (Throw (mkError "CONNECTION_FAILED: Network Error."), sent')
      else (Throw error, sent')
  end.

(** [connectToWordPress]: the actions dispatched, the requests sent and
    the configuration in the store. *)
Definition connectToWordPress (config : App.WordPressConfig)
    (sent : list Request) (saved : option App.WordPressConfig)
  : list App.Action * list Request * option App.WordPressConfig :=
  let '(isSetup, sent1) := checkSetup fetch config sent in
  match isSetup with
  | Throw error =>
      ([App.CONNECT_START;
        App.CONNECT_FAILURE (messageOr error "An unknown error occurred.")],
       sent1, saved)
  | Ok false => ([App.CONNECT_START; App.SETUP_REQUIRED config], sent1, saved)
  | Ok true =>
      let '(loaded, sent2) := fetchPosts config 1 sent1 in
      match loaded with
      | Throw error =>
          ([App.CONNECT_START;
            App.CONNECT_FAILURE (messageOr error "An unknown error occurred.")],
           sent2, saved)
      | Ok (posts, totalPages) =>
          if saveConfig config
          then ([App.CONNECT_START; App.CONNECT_SUCCESS config posts totalPages],
                sent2, Some config)
          else ([App.CONNECT_START;
                 App.CONNECT_FAILURE
                   (messageOr quotaError "An unknown error occurred.")],
                sent2, saved)
      end
  end.


End Connection.

(** The actions with the time at which the reducer runs. *)
Definition at_time (now : Z) (actions : list App.Action)
  : list (Z * App.Action) :=
  map (fun action => (now, action)) actions.

(** A site without the connector: the tool type is unknown. *)
Definition bareSite (n : nat) (request : Request) : result Response :=
  Ok {| resp_status := 404; resp_body := "{}" |}.

Definition noPosts (response : Response)
  : result (list App.WordPressPost * Z) :=
  Ok ([], 1%Z).

(** * Validating a key *)

Section Validation.

Variable generateContent : nat -> result value.
Variable fetch : nat -> result Response.

(** Whether [localStorage.setItem] accepts the text of the keys, and the
    error it throws when it does not. *)
Variable saveKeys : (AiProvider -> string) -> bool.
Variable quotaError : JsError.


End Validation.

(** [await insertSnippet(post, cleanCode, selectedIdea)] as the dialog
    sees it: whether the insertion of the code succeeded, [calls] being
    the calls of the client made before. *)
Definition insertion
    (createCfTool : nat -> string -> string -> result Z)
    (updatePost : nat -> Z -> string -> result (WordPressPost * option Z))
    (now : Z) (state : App.AppState) (post : App.WordPressPost)
    (idea : ToolIdea) (calls : list Call) (code : string) : result unit :=
  match fst (insertSnippet createCfTool updatePost now state post code idea calls)
  with
  | Ok _ => Ok tt
  | Throw e => Throw e
  end.

(** A dialog whose editor holds fence markers only. *)
Definition fencesOnly : Modal.ModalState :=
  {| Modal.status := Modal.Idle; Modal.error := None;
     Modal.toolIdeas := Some (JArr [JObj [("title", JStr "Planner")]]);
     Modal.selectedIdea := Some (JObj [("title", JStr "Planner")]);
     Modal.generatedSnippet := "```html```"; Modal.editedSnippet := "```html```" |}.

Definition planner : ToolIdea :=
  {| title := "Planner"; description := "Plans a budget"; icon := "list" |}.

Definition newTool (n : nat) (toolTitle snippet : string) : result Z := Ok 12%Z.

Definition accepted (n : nat) (postId : Z) (content : string)
  : result (WordPressPost * option Z) :=
  Ok ({| id := postId; title_rendered := "Budget";
         content_rendered := content; link := "https://example.org/?p=7" |},
      Some 12%Z).

(** ** Concrete inputs for the handlers *)

(** The state of [connected] with the site configured and more pages to
    fetch. *)
Definition online : App.AppState :=
  App.with_hasMorePosts true (App.with_wpConfig (Some site) connected).

Definition storedTool (n : nat) (toolId : Z) : result (string * string) :=
  Ok ("Planner", "<div>old</div>").

Definition toolUpdated (n : nat) (toolId : Z) (toolTitle snippet : string)
  : result unit := Ok tt.

Definition toolDeleted (n : nat) (toolId : Z) : result unit := Ok tt.

Definition refreshed (p : App.WordPressPost) (oldSnippet : string) : Stream :=
  {| yielded := ["<div>"; "new</div>"]; completion := Ok tt |}.

Definition unchanged (content : string) : string := content.

(** A post with a score. *)
Definition rated (i : Z) (postTitle : string) (score : Z) : App.WordPressPost :=
  App.spread (fetched i postTitle) (scored i (inject_Z score) "rated").

Definition secondPage (n : nat) (request : Request) : result Response :=
  Ok {| resp_status := 200; resp_body := "[]" |}.


(** * Properties *)

(** ** Batching *)

Section Batching.

Context {A : Type}.
Implicit Types (posts : list A) (acc : list (list A)).

Lemma slice_window posts i :
  Js.slice posts i (i + SCORE_BATCH_SIZE) = firstn 8 (skipn i posts).
Proof.
  unfold Js.slice, SCORE_BATCH_SIZE. f_equal. lia.
Qed.

Lemma skipn_window posts i :
  firstn 8 (skipn i posts) ++ skipn (i + 8) posts = skipn i posts.
Proof.
  rewrite Nat.add_comm, <- skipn_skipn. apply firstn_skipn.
Qed.

(** The loop leaves by its condition, not by lack of fuel: more fuel does
    not change the result. *)
Lemma batch_loop_fuel fuel fuel' posts i acc :
  List.length posts - i <= fuel -> List.length posts - i <= fuel' ->
  batch_loop fuel posts i acc = batch_loop fuel' posts i acc.
Proof.
  revert fuel' i acc.
  induction fuel as [|fuel IH]; intros [|fuel'] i acc H H'; simpl;
    try reflexivity.
  - destruct (Nat.ltb_spec i (List.length posts)); [lia | reflexivity].
  - destruct (Nat.ltb_spec i (List.length posts)); [lia | reflexivity].
  - destruct (Nat.ltb_spec i (List.length posts)); [|reflexivity].
    apply IH; unfold SCORE_BATCH_SIZE; lia.
Qed.

Lemma batch_loop_concat fuel posts i acc :
  List.length posts - i <= fuel ->
  concat (batch_loop fuel posts i acc) = concat acc ++ skipn i posts.
Proof.
  revert i acc.
  induction fuel as [|fuel IH]; intros i acc H; simpl.
  - rewrite skipn_all2 by lia. now rewrite app_nil_r.
  - destruct (Nat.ltb_spec i (List.length posts)) as [Hlt|Hge].
    + rewrite IH by (unfold SCORE_BATCH_SIZE; lia).
      rewrite concat_app, slice_window. cbn [concat]. rewrite app_nil_r.
      change (i + SCORE_BATCH_SIZE) with (i + 8).
      now rewrite <- app_assoc, skipn_window.
    + rewrite skipn_all2 by lia. now rewrite app_nil_r.
Qed.

Lemma ceil_step n i :
  i < n -> (n - i + 7) / 8 = 1 + (n - (i + 8) + 7) / 8.
Proof.
  intros Hlt.
  destruct (Nat.le_gt_cases 8 (n - i)) as [Hbig|Hsmall].
  - replace (n - i + 7) with (n - (i + 8) + 7 + 1 * 8) by lia.
    rewrite Nat.div_add by lia. lia.
  - replace (n - (i + 8)) with 0 by lia.
    rewrite (Nat.div_small (0 + 7)) by lia.
    symmetry. apply (Nat.div_unique _ 8 1 (n - i - 1)); lia.
Qed.

Lemma batch_loop_length fuel posts i acc :
  List.length posts - i <= fuel ->
  List.length (batch_loop fuel posts i acc)
  = List.length acc + (List.length posts - i + 7) / 8.
Proof.
  revert i acc.
  induction fuel as [|fuel IH]; intros i acc H; cbn [batch_loop].
  - replace (List.length posts - i) with 0 by lia.
    rewrite (Nat.div_small (0 + 7)) by lia. lia.
  - destruct (Nat.ltb_spec i (List.length posts)) as [Hlt|Hge].
    + rewrite IH by (unfold SCORE_BATCH_SIZE; lia).
      rewrite length_app. cbn [List.length].
      change (i + SCORE_BATCH_SIZE) with (i + 8).
      rewrite (ceil_step _ _ Hlt). lia.
    + replace (List.length posts - i) with 0 by lia.
      rewrite (Nat.div_small (0 + 7)) by lia. lia.
Qed.

Lemma batch_loop_sizes fuel posts i acc :
  Forall (fun b => 1 <= List.length b <= 8) acc ->
  Forall (fun b => 1 <= List.length b <= 8) (batch_loop fuel posts i acc).
Proof.
  revert i acc.
  induction fuel as [|fuel IH]; intros i acc Hacc; simpl; [assumption|].
  destruct (Nat.ltb_spec i (List.length posts)) as [Hlt|Hge]; [|assumption].
  apply IH. apply Forall_app. split; [assumption|].
  constructor; [|constructor].
  rewrite slice_window, length_firstn, length_skipn. lia.
Qed.

Lemma batch_loop_nth fuel posts i acc :
  i = 8 * List.length acc ->
  (forall k, k < List.length acc ->
     nth k acc [] = Js.slice posts (8 * k) (8 * k + 8)) ->
  forall k, k < List.length (batch_loop fuel posts i acc) ->
     nth k (batch_loop fuel posts i acc) [] = Js.slice posts (8 * k) (8 * k + 8).
Proof.
  revert i acc.
  induction fuel as [|fuel IH]; intros i acc Hi Hacc; simpl; [assumption|].
  destruct (Nat.ltb_spec i (List.length posts)) as [Hlt|Hge]; [|assumption].
  apply IH.
  - rewrite length_app. simpl. unfold SCORE_BATCH_SIZE. lia.
  - intros k Hk. rewrite length_app in Hk. simpl in Hk.
    destruct (Nat.eq_dec k (List.length acc)) as [->|Hne].
    + rewrite app_nth2, Nat.sub_diag by lia. simpl. now subst i.
    + rewrite app_nth1 by lia. apply Hacc. lia.
Qed.

Lemma NoDup_app_disjoint (l1 l2 : list A) x :
  NoDup (l1 ++ l2) -> In x l1 -> ~ In x l2.
Proof.
  induction l1 as [|a l1 IH]; intros Hnd Hin; [contradiction|].
  cbn [app] in Hnd. inversion Hnd as [|? ? Ha Hrest]; subst.
  destruct Hin as [->|Hin]; [|now apply IH].
  intros H2. apply Ha. apply in_or_app. now right.
Qed.

(** In a list of lists without repetition overall, an element lies in one
    of the lists only. *)
Lemma NoDup_concat_nth (l : list (list A)) i j x :
  NoDup (concat l) -> i < List.length l -> j < List.length l ->
  In x (nth i l []) -> In x (nth j l []) -> i = j.
Proof.
  revert i j. induction l as [|b l IH]; intros i j Hnd Hi Hj Hxi Hxj;
    [cbn in Hi; lia|].
  cbn [concat] in Hnd. cbn [List.length] in Hi, Hj.
  assert (Hin : forall k, k < List.length l -> In x (nth k l []) ->
                          In x (concat l)).
  { intros k Hk Hx. apply in_concat. exists (nth k l []).
    split; [now apply nth_In | assumption]. }
  destruct i as [|i], j as [|j]; cbn [nth] in Hxi, Hxj.
  - reflexivity.
  - exfalso. apply (NoDup_app_disjoint _ _ x Hnd Hxi). apply (Hin j); [lia | assumption].
  - exfalso. apply (NoDup_app_disjoint _ _ x Hnd Hxj). apply (Hin i); [lia | assumption].
  - f_equal. apply IH; try assumption; try lia.
    now apply NoDup_app_remove_l in Hnd.
Qed.

End Batching.

Lemma postBatches_length {A} (posts : list A) :
  List.length (postBatches posts) = (List.length posts + 7) / 8.
Proof.
  unfold postBatches. rewrite batch_loop_length by lia.
  cbn [List.length]. now rewrite Nat.sub_0_r.
Qed.

Lemma postBatches_concat {A} (posts : list A) :
  concat (postBatches posts) = posts.
Proof.
  unfold postBatches. now rewrite batch_loop_concat by lia.
Qed.

(** C2. For every collection of N posts, the partition of
    [getOpportunityScores] has ceil(N/8) batches, each of 1 to 8 posts; the
    batches put end to end in batch order are the collection itself, and
    batch [k] holds exactly the posts at positions [8k .. 8k+7]: no post is
    dropped, none is in two batches, and the order is the input order.  In
    particular, when the ids of the collection are distinct, no id occurs
    in two batches. *)
Theorem postBatches_partition (posts : list WordPressPost) :
  List.length (postBatches posts) = (List.length posts + 7) / 8
  /\ concat (postBatches posts) = posts
  /\ Forall (fun b => 1 <= List.length b <= 8) (postBatches posts)
  /\ (forall k, k < List.length (postBatches posts) ->
       nth k (postBatches posts) [] = Js.slice posts (8 * k) (8 * k + 8))
  /\ (NoDup (map id posts) ->
      forall i j p q,
        i < List.length (postBatches posts) ->
        j < List.length (postBatches posts) ->
        In p (nth i (postBatches posts) []) ->
        In q (nth j (postBatches posts) []) ->
        id p = id q -> i = j).
Proof.
  pose proof (postBatches_concat posts) as Hconcat.
  split; [|split; [|split; [|split]]].
  - apply postBatches_length.
  - exact Hconcat.
  - apply batch_loop_sizes. constructor.
  - apply batch_loop_nth; simpl; [reflexivity | intros; lia].
  - intros Hids i j p q Hi Hj Hp Hq Hpq.
    apply (NoDup_concat_nth (map (map id) (postBatches posts)) i j (id p)).
    + now rewrite <- concat_map, Hconcat.
    + now rewrite length_map.
    + now rewrite length_map.
    + change (@nil Z) with (map id (@nil WordPressPost)). rewrite map_nth.
      now apply in_map.
    + change (@nil Z) with (map id (@nil WordPressPost)). rewrite map_nth.
      rewrite Hpq. now apply in_map.
Qed.

Lemma postBatches_partition_witness :
  NoDup (map id [post 1; post 2; post 3])
  /\ In (post 2) (nth 0 (postBatches [post 1; post 2; post 3]) [])
  /\ 0 = 0.
Proof.
  assert (Hids : NoDup (map id [post 1; post 2; post 3])).
  { repeat constructor; cbn; intuition discriminate. }
  split; [exact Hids|]. split; [cbn; tauto|].
  apply (proj2 (proj2 (proj2 (proj2
           (postBatches_partition [post 1; post 2; post 3])))) Hids
           0 0 (post 2) (post 2)); cbn; auto.
Defined.

(** ** RetryExecutor *)

Section RetryFacts.

Context {W T : Type} (zzz : Z -> W -> W).

Lemma withRetry_ok fn retries delay w v w' :
  fn w = (Ok v, w') ->
  withRetry (T := T) zzz fn retries delay w = (Ok v, w').
Proof.
  intros H. destruct retries; simpl; now rewrite H.
Qed.

Lemma withRetry_fatal fn retries delay w e w' :
  fn w = (Throw e, w') -> nonRetryable e = true ->
  withRetry (T := T) zzz fn retries delay w = (Throw e, w').
Proof.
  intros H Hfatal. destruct retries; simpl; rewrite H; [reflexivity|].
  now rewrite Hfatal.
Qed.

Lemma withRetry_again fn retries delay w e w' :
  fn w = (Throw e, w') -> nonRetryable e = false ->
  withRetry (T := T) zzz fn (S retries) delay w
  = withRetry zzz fn retries (delay * 2)%Z (zzz delay w').
Proof.
  intros H Hretry. simpl. now rewrite H, Hretry.
Qed.

Lemma withRetry_exhausted fn delay w e w' :
  fn w = (Throw e, w') ->
  withRetry (T := T) zzz fn 0 delay w = (Throw e, w').
Proof.
  intros H. simpl. now rewrite H.
Qed.

End RetryFacts.

(** C3. With the default [retries = 3] and [delay = 1000]: an operation
    that fails twice with retryable errors and then succeeds makes
    [withRetry] return the success value after exactly 3 invocations (and
    waits of 1000 and 2000 ms); an operation all of whose invocations fail
    with a non-retryable error (status 401 or 400, or a message that
    contains "API key") has its first error re-raised after exactly 1
    invocation and no wait. *)
Theorem withRetry_default {T : Type} (script : nat -> result T) :
  (forall e1 e2 v,
      script 0 = Throw e1 -> nonRetryable e1 = false ->
      script 1 = Throw e2 -> nonRetryable e2 = false ->
      script 2 = Ok v ->
      withRetry pause (scripted script) 3 1000%Z calls0
      = (Ok v, {| invoked := 3; waited := [1000; 2000]%Z |}))
  /\ ((forall n, exists e, script n = Throw e /\ nonRetryable e = true) ->
      exists e, script 0 = Throw e
        /\ withRetry pause (scripted script) 3 1000%Z calls0
           = (Throw e, {| invoked := 1; waited := [] |})).
Proof.
  split.
  - intros e1 e2 v H0 R0 H1 R1 H2.
    erewrite withRetry_again;
      [| unfold scripted; cbn [invoked calls0]; rewrite H0; reflexivity | exact R0].
    erewrite withRetry_again;
      [| unfold scripted; cbn [invoked pause]; rewrite H1; reflexivity | exact R1].
    erewrite withRetry_ok; [reflexivity|].
    unfold scripted. cbn [invoked pause]. now rewrite H2.
  - intros Hall. destruct (Hall 0) as (e & H0 & Hfatal).
    exists e. split; [assumption|].
    erewrite withRetry_fatal; [reflexivity | | exact Hfatal].
    unfold scripted. cbn [invoked calls0]. now rewrite H0.
Qed.

Lemma withRetry_default_witness :
  withRetry pause (scripted flaky) 3 1000%Z calls0
  = (Ok 7, {| invoked := 3; waited := [1000; 2000]%Z |})
  /\ withRetry pause (scripted refused) 3 1000%Z calls0
     = (Throw {| name := "ApiError"; message := Some "Unauthorized";
                 status := Some 401%Z |},
        {| invoked := 1; waited := [] |}).
Proof.
  split.
  - apply (proj1 (withRetry_default flaky)
             {| name := "TimeoutError"; message := Some "timed out"; status := None |}
             {| name := "TimeoutError"; message := Some "timed out"; status := None |});
      reflexivity.
  - destruct (proj2 (withRetry_default refused)) as (e & H0 & H).
    + intros n. eexists. split; reflexivity.
    + injection H0 as <-. exact H.
Defined.

(** ** Strings *)

Lemma append_nil_r s : s +++ EmptyString = s.
Proof. induction s; simpl; congruence. Qed.

Lemma append_assoc s t u : (s +++ t) +++ u = s +++ t +++ u.
Proof. induction s; simpl; congruence. Qed.

Lemma length_append s t :
  String.length (s +++ t) = String.length s + String.length t.
Proof. induction s; simpl; congruence. Qed.

Lemma drop_append s t : Js.drop (String.length s) (s +++ t) = t.
Proof. induction s; simpl; [now destruct t | assumption]. Qed.

Lemma startsWith_append pat s : Js.startsWith pat (pat +++ s) = true.
Proof.
  induction pat; simpl; [reflexivity|]. now rewrite Ascii.eqb_refl.
Qed.

Lemma startsWith_split pat s :
  Js.startsWith pat s = true -> s = pat +++ Js.drop (String.length pat) s.
Proof.
  revert s. induction pat as [|p pat IH]; intros s H; simpl in *.
  - now destruct s.
  - destruct s as [|c s]; [discriminate|].
    apply andb_prop in H as [Hc Hs]. apply Ascii.eqb_eq in Hc. subst c.
    f_equal. now apply IH.
Qed.

Lemma trimStart_spaces ws s :
  Js.all_space ws = true -> Js.trimStart (ws +++ s) = Js.trimStart s.
Proof.
  induction ws as [|c ws IH]; simpl; intros H; [reflexivity|].
  apply andb_prop in H as [Hc Hws]. rewrite Hc. now apply IH.
Qed.

Lemma trimStart_idem s : Js.trimStart (Js.trimStart s) = Js.trimStart s.
Proof.
  induction s as [|c s IH]; simpl; [reflexivity|].
  destruct (Js.is_space c) eqn:E; [assumption|]. simpl. now rewrite E.
Qed.

Lemma includes_cons pat c s :
  Js.includes pat (String c s) = false -> Js.includes pat s = false.
Proof.
  simpl. intros H. now apply orb_false_elim in H as [_ H].
Qed.

Lemma includes_startsWith pat s :
  Js.includes pat s = false -> Js.startsWith pat s = false.
Proof.
  destruct s; simpl; intros H; now apply orb_false_elim in H as [H _].
Qed.

Lemma includes_trimStart pat s :
  Js.includes pat s = false -> Js.includes pat (Js.trimStart s) = false.
Proof.
  induction s as [|c s IH]; intros H; [assumption|].
  cbn [Js.trimStart]. destruct (Js.is_space c); [|assumption].
  apply IH. now apply includes_cons in H.
Qed.

(** ** StreamCleaner *)

Lemma toUpper_backtick c :
  Ascii.eqb (toUpper "`") (toUpper c) = true -> c = "`"%char.
Proof.
  destruct c as [[] [] [] [] [] [] [] []]; vm_compute; intros H;
    first [reflexivity | discriminate H].
Qed.

Lemma startsWithCI_fence tag s :
  startsWithCI ("```" +++ tag) s = true -> Js.startsWith "```" s = true.
Proof.
  cbn [String.append startsWithCI Js.startsWith]. intros H.
  destruct s as [|c1 [|c2 [|c3 s]]]; try discriminate H;
    repeat (apply andb_prop in H as [?Hc H]);
    try discriminate H.
  apply toUpper_backtick in Hc, Hc0, Hc1. subst. reflexivity.
Qed.

Lemma startsWithCI_append pat f s :
  startsWithCI pat f = true -> startsWithCI pat (f +++ s) = true.
Proof.
  revert f. induction pat as [|p pat IH]; intros f H; [reflexivity|].
  destruct f as [|c f]; [discriminate|]. simpl in *.
  apply andb_prop in H as [-> H]. now apply IH.
Qed.

Lemma stripLeadingFence_none tag s :
  Js.startsWith "```" (Js.trimStart s) = false -> stripLeadingFence tag s = s.
Proof.
  intros H. unfold stripLeadingFence.
  destruct (startsWithCI ("```" +++ tag) (Js.trimStart s)) eqn:E; [|reflexivity].
  apply startsWithCI_fence in E. congruence.
Qed.

Lemma fence_not_space fence s :
  startsWithCI "```" fence = true -> Js.trimStart (fence +++ s) = fence +++ s.
Proof.
  intros H. destruct fence as [|c f]; [discriminate|].
  simpl in H. apply andb_prop in H as [Hc _].
  apply toUpper_backtick in Hc. subst c. reflexivity.
Qed.

Lemma stripLeadingFence_found tag ws fence s :
  Js.all_space ws = true ->
  startsWithCI ("```" +++ tag) fence = true ->
  String.length fence = String.length ("```" +++ tag) ->
  stripLeadingFence tag (ws +++ fence +++ s) = Js.trimStart s.
Proof.
  intros Hws Hf Hlen. unfold stripLeadingFence.
  rewrite (trimStart_spaces _ _ Hws).
  rewrite fence_not_space.
  - rewrite (startsWithCI_append _ _ _ Hf), <- Hlen. now rewrite drop_append.
  - destruct fence as [|c1 [|c2 [|c3 f]]]; try discriminate Hf;
      cbn [String.append startsWithCI] in *;
      repeat (apply andb_prop in Hf as [?Hc Hf]); try discriminate Hf.
    now rewrite Hc, Hc0, Hc1.
Qed.

Lemma tail_not_space ws body k :
  k <= String.length body + 2 ->
  Js.all_space (Js.drop k (body +++ "```" +++ ws)) = false.
Proof.
  revert k. induction body as [|c body IH]; intros k Hk.
  - destruct k as [|[|[|k]]]; simpl in Hk; try lia; reflexivity.
  - destruct k as [|k].
    + cbn [Js.drop String.append Js.all_space].
      specialize (IH 0 ltac:(lia)). cbn [Js.drop String.append] in IH.
      rewrite IH. apply andb_false_r.
    + cbn [Js.drop String.append]. apply IH. simpl in Hk. lia.
Qed.

Lemma stripTrailingFence_found body ws :
  Js.all_space ws = true -> stripTrailingFence (body +++ "```" +++ ws) = body.
Proof.
  intros Hws. induction body as [|c body IH].
  - cbn. now rewrite Hws.
  - pose proof (tail_not_space ws (String c body) 3 ltac:(simpl; lia)) as Hn.
    cbn [String.append] in Hn, IH |- *. cbn [stripTrailingFence].
    rewrite Hn, andb_false_r. now rewrite IH.
Qed.

Lemma stripTrailingFence_shape s :
  stripTrailingFence s = s
  \/ exists ws, Js.all_space ws = true /\ s = stripTrailingFence s +++ "```" +++ ws.
Proof.
  induction s as [|c s IH]; [now left|].
  cbn [stripTrailingFence].
  destruct (Js.startsWith "```" (String c s) && Js.all_space (Js.drop 3 (String c s)))
    eqn:E.
  - right. apply andb_prop in E as [Hfence Hws].
    exists (Js.drop 3 (String c s)). split; [assumption|].
    now apply startsWith_split in Hfence.
  - destruct IH as [IH|(ws & Hws & IH)].
    + left. congruence.
    + right. exists ws. split; [assumption|].
      change (String c s = String c (stripTrailingFence s +++ "```" +++ ws)).
      now rewrite <- IH.
Qed.

Lemma stripTrailingFence_none s :
  Js.includes "```" s = false -> stripTrailingFence s = s.
Proof.
  induction s as [|c s IH]; intros H; [reflexivity|].
  cbn [stripTrailingFence].
  rewrite (includes_startsWith _ _ H). cbn [andb].
  f_equal. apply IH. now apply includes_cons in H.
Qed.




(** ** The generation stream: what is yielded and the first-chunk flag *)

Lemma nonempty_spec s : Js.nonempty s = true <-> s <> EmptyString.
Proof. destruct s; simpl; split; congruence. Qed.

Lemma geminiLoop_flag chunks isFirst :
  Forall (fun c => c <> EmptyString) (fst (geminiLoop chunks isFirst))
  /\ snd (geminiLoop chunks isFirst)
     = match fst (geminiLoop chunks isFirst) with
       | [] => isFirst
       | _ => false
       end.
Proof.
  revert isFirst. induction chunks as [|chunk rest IH]; intros isFirst; simpl.
  - split; [constructor | reflexivity].
  - destruct (Js.nonempty (cleanStreamChunk chunk isFirst)) eqn:E.
    + destruct (geminiLoop rest false) as [more flag] eqn:R.
      destruct (IH false) as [Hall Hflag]. rewrite R in Hall, Hflag.
      simpl in *. split.
      * constructor; [now apply nonempty_spec | assumption].
      * rewrite Hflag. now destruct more.
    + apply IH.
Qed.

Lemma geminiLoop_skip skipped rest :
  Forall (fun c => cleanStreamChunk c true = EmptyString) skipped ->
  geminiLoop (skipped ++ rest) true = geminiLoop rest true.
Proof.
  induction 1 as [|c skipped Hc _ IH]; simpl; [reflexivity|].
  now rewrite Hc.
Qed.

Section StreamFacts.

Variable JSON_parse : string -> result json.
Variable provider : AiProvider.

Lemma handleLine_yield isFirst line chunk :
  handleLine JSON_parse provider isFirst line = Yield chunk ->
  chunk <> EmptyString.
Proof.
  unfold handleLine, tryLine.
  destruct (negb (Js.startsWith "data: " line)); [discriminate|].
  destruct (String.eqb _ _); [discriminate|].
  destruct (JSON_parse _) as [parsed|]; simpl; [|discriminate].
  destruct (extractDelta provider parsed) as [textChunk|]; simpl; [|discriminate].
  destruct (truthy textChunk); [|discriminate].
  destruct (cleanStreamChunkAny textChunk isFirst) as [clean|]; simpl;
    [|discriminate].
  destruct (Js.nonempty clean) eqn:E; [|discriminate].
  intros [= <-]. now apply nonempty_spec.
Qed.

Lemma forLines_flag lines isFirst :
  let '(out, flag, _) := forLines JSON_parse provider lines isFirst in
  Forall (fun c => c <> EmptyString) out
  /\ flag = match out with [] => isFirst | _ => false end.
Proof.
  revert isFirst. induction lines as [|line rest IH]; intros isFirst; simpl.
  - split; [constructor | reflexivity].
  - destruct (handleLine JSON_parse provider isFirst line) as [| |chunk] eqn:E.
    + apply IH.
    + split; [constructor | reflexivity].
    + specialize (IH false).
      destruct (forLines JSON_parse provider rest false) as [[more flag] ret].
      destruct IH as [Hall Hflag]. split.
      * constructor; [now apply handleLine_yield in E | assumption].
      * rewrite Hflag. now destruct more.
Qed.

Lemma readLoop_flag reads buffer isFirst :
  let '(out, flag) := readLoop JSON_parse provider reads buffer isFirst in
  Forall (fun c => c <> EmptyString) out
  /\ flag = match out with [] => isFirst | _ => false end.
Proof.
  revert buffer isFirst.
  induction reads as [|text rest IH]; intros buffer isFirst; simpl.
  - split; [constructor | reflexivity].
  - pose proof (forLines_flag
                  (removelast (Js.split "010" (buffer +++ text))) isFirst) as HL.
    destruct (forLines _ _ _ _) as [[out flag] returned].
    destruct HL as [Hall Hflag].
    destruct returned; [now split|].
    specialize (IH (last (Js.split "010" (buffer +++ text)) EmptyString) flag).
    destruct (readLoop _ _ _ _ _) as [more flag'].
    destruct IH as [Hall' Hflag']. split.
    + apply Forall_app. now split.
    + rewrite Hflag', Hflag. destruct out, more; reflexivity.
Qed.

(** A data line whose delta is cleaned to nothing is passed over: nothing
    is yielded and the flag is not touched. *)
Lemma handleLine_empty isFirst data parsed delta :
  String.eqb (Js.trim data) "[DONE]" = false ->
  JSON_parse data = Ok parsed ->
  extractDelta provider parsed = Ok (Some (JStr delta)) ->
  cleanStreamChunk delta isFirst = EmptyString ->
  handleLine JSON_parse provider isFirst ("data: " +++ data) = Continue.
Proof.
  intros Hdone Hparse Hdelta Hclean. unfold handleLine, tryLine.
  rewrite startsWith_append. cbn [negb].
  change (Js.drop 6 ("data: " +++ data)) with (Js.drop (String.length "data: ") ("data: " +++ data)).
  rewrite drop_append, Hdone, Hparse. cbn [bind]. rewrite Hdelta. cbn [bind].
  destruct (truthy (Some (JStr delta))); [|reflexivity].
  cbn [cleanStreamChunkAny bind]. now rewrite Hclean.
Qed.

End StreamFacts.

(** C10. Every chunk the generation stream yields is a non-empty string;
    after any prefix of the stream the first-chunk flag is still set
    exactly when nothing has been yielded yet; and chunks (or data lines)
    whose cleaned text is empty, such as a lone fence marker, leave the
    flag as it was, so that the next chunk is cleaned as a first chunk. *)
Theorem generateStream_first_chunk
    (JSON_parse : string -> result json) (provider : AiProvider) :
  (forall responseStream response hasBody reads,
     Forall (fun c => c <> EmptyString)
       (yielded (generateStream JSON_parse provider responseStream
                   response hasBody reads)))
  /\ (forall chunks isFirst,
        snd (geminiLoop chunks isFirst)
        = match fst (geminiLoop chunks isFirst) with
          | [] => isFirst
          | _ => false
          end)
  /\ (forall reads buffer isFirst,
        snd (readLoop JSON_parse provider reads buffer isFirst)
        = match fst (readLoop JSON_parse provider reads buffer isFirst) with
          | [] => isFirst
          | _ => false
          end)
  /\ (forall skipped rest,
        Forall (fun c => cleanStreamChunk c true = EmptyString) skipped ->
        geminiLoop (skipped ++ rest) true = geminiLoop rest true)
  /\ (forall data parsed delta rest,
        String.eqb (Js.trim data) "[DONE]" = false ->
        JSON_parse data = Ok parsed ->
        extractDelta provider parsed = Ok (Some (JStr delta)) ->
        cleanStreamChunk delta true = EmptyString ->
        forLines JSON_parse provider (("data: " +++ data) :: rest) true
        = forLines JSON_parse provider rest true)
  /\ geminiLoop ["```html" +++ nl; "```" +++ nl +++ "<div>"] true
     = (["<div>"], false).
Proof.
  repeat split.
  - intros responseStream response hasBody reads. unfold generateStream.
    assert (Hsse : forall p,
               Forall (fun c => c <> EmptyString)
                 (fst (readLoop JSON_parse p reads EmptyString true))).
    { intros p. pose proof (readLoop_flag JSON_parse p reads EmptyString true) as H.
      destruct (readLoop _ _ _ _ _). apply H. }
    destruct provider;
      try destruct (negb (ok response) || negb hasBody);
      cbn [yielded];
      first [ apply Forall_nil | apply geminiLoop_flag | apply Hsse ].
  - intros. apply geminiLoop_flag.
  - intros reads buffer isFirst.
    pose proof (readLoop_flag JSON_parse provider reads buffer isFirst) as H.
    destruct (readLoop _ _ _ _ _). apply H.
  - apply geminiLoop_skip.
  - intros data parsed delta rest Hdone Hparse Hdelta Hclean.
    cbn [forLines].
    now rewrite (handleLine_empty JSON_parse provider true data parsed delta).
Qed.

Lemma generateStream_first_chunk_witness :
  geminiLoop (["```html" +++ nl; "```"] ++ ["<div>"; "</div>```"]) true
  = geminiLoop ["<div>"; "</div>```"] true
  /\ forLines JSON.parse OpenAI [deltaLine "```html"; deltaLine "<div>"] true
     = forLines JSON.parse OpenAI [deltaLine "<div>"] true.
Proof.
  destruct (generateStream_first_chunk JSON.parse OpenAI)
    as (_ & _ & _ & Hskip & Hline & _).
  split.
  - apply Hskip. repeat constructor.
  - apply (Hline (deltaData "```html" +++ nl)
             (JObj [("choices",
                     JArr [JObj [("delta", JObj [("content", JStr "```html")])]])])
             "```html" [deltaLine "<div>"]);
      reflexivity.
Defined.

(** ** The line decoder of the stream *)

Lemma split_nonempty sep s : Js.split sep s <> [].
Proof.
  destruct s as [|c s]; simpl; [discriminate|].
  destruct (Ascii.eqb c sep); [discriminate|].
  destruct (Js.split sep s); discriminate.
Qed.

(** Splitting a text received in two pieces: the complete lines of the
    first piece, then the lines of its unfinished last line followed by
    the second piece. *)
Lemma split_append sep s t :
  Js.split sep (s +++ t)
  = removelast (Js.split sep s)
    ++ Js.split sep (last (Js.split sep s) EmptyString +++ t).
Proof.
  induction s as [|a s IH]; [reflexivity|].
  cbn [String.append Js.split].
  pose proof (split_nonempty sep s) as Hne.
  destruct (Ascii.eqb a sep) eqn:E.
  - rewrite IH. destruct (Js.split sep s) as [|h tl]; [contradiction|].
    reflexivity.
  - rewrite IH. destruct (Js.split sep s) as [|h [|x tl]]; [contradiction| |].
    + cbn [removelast last app String.append Js.split]. now rewrite E.
    + pose proof (split_nonempty sep (last (x :: tl) EmptyString +++ t)) as Hne'.
      change (removelast (h :: x :: tl)) with (h :: removelast (x :: tl)).
      change (last (h :: x :: tl) EmptyString) with (last (x :: tl) EmptyString).
      change (removelast (String a h :: x :: tl))
        with (String a h :: removelast (x :: tl)).
      change (last (String a h :: x :: tl) EmptyString)
        with (last (x :: tl) EmptyString).
      reflexivity.
Qed.

(** The unfinished last line holds no separator. *)
Lemma split_last sep s :
  Js.split sep (last (Js.split sep s) EmptyString)
  = [last (Js.split sep s) EmptyString].
Proof.
  induction s as [|a s IH]; [reflexivity|].
  cbn [Js.split].
  pose proof (split_nonempty sep s) as Hne.
  destruct (Ascii.eqb a sep) eqn:E.
  - destruct (Js.split sep s) as [|h tl]; [contradiction|]. exact IH.
  - destruct (Js.split sep s) as [|h [|x tl]]; [contradiction| |].
    + cbn [last] in *. cbn [Js.split]. rewrite E, IH. reflexivity.
    + exact IH.
Qed.

Section Decoder.

Variable JSON_parse : string -> result json.
Variable provider : AiProvider.

Lemma forLines_app l1 l2 isFirst :
  forLines JSON_parse provider (l1 ++ l2) isFirst
  = let '(out1, flag1, returned1) := forLines JSON_parse provider l1 isFirst in
    if returned1 then (out1, flag1, true)
    else let '(out2, flag2, returned2) := forLines JSON_parse provider l2 flag1 in
         (out1 ++ out2, flag2, returned2).
Proof.
  revert isFirst. induction l1 as [|line l1 IH]; intros isFirst.
  - cbn [app forLines]. now destruct (forLines JSON_parse provider l2 isFirst) as [[? ?] ?].
  - cbn [app forLines].
    destruct (handleLine JSON_parse provider isFirst line); [apply IH | reflexivity |].
    rewrite IH. destruct (forLines JSON_parse provider l1 false) as [[out1 flag1] [|]];
      [reflexivity|].
    now destruct (forLines JSON_parse provider l2 flag1) as [[? ?] ?].
Qed.

(** However the text is cut into reads, the decoder handles the complete
    lines of the whole text, in order. *)
Lemma readLoop_lines reads buffer isFirst :
  Js.split "010" buffer = [buffer] ->
  readLoop JSON_parse provider reads buffer isFirst
  = let '(out, flag, _) :=
      forLines JSON_parse provider (removelast
                  (Js.split "010" (buffer +++ fold_right String.append EmptyString reads)))
               isFirst in
    (out, flag).
Proof.
  revert buffer isFirst.
  induction reads as [|text rest IH]; intros buffer isFirst Hbuf.
  - cbn [fold_right readLoop]. now rewrite append_nil_r, Hbuf.
  - cbn [fold_right readLoop].
    rewrite <- append_assoc, (split_append "010" (buffer +++ text)).
    rewrite removelast_app by apply split_nonempty.
    rewrite forLines_app.
    destruct (forLines JSON_parse provider (removelast (Js.split "010" (buffer +++ text))) isFirst)
      as [[out flag] [|]]; [reflexivity|].
    rewrite IH by apply split_last.
    now destruct (forLines JSON_parse provider _ flag) as [[? ?] ?].
Qed.

Lemma handleLine_other isFirst line :
  Js.startsWith "data: " line = false -> handleLine JSON_parse provider isFirst line = Continue.
Proof.
  intros H. unfold handleLine. now rewrite H.
Qed.

Lemma handleLine_data isFirst data :
  handleLine JSON_parse provider isFirst ("data: " +++ data)
  = if String.eqb (Js.trim data) "[DONE]" then Return
    else match tryLine JSON_parse provider isFirst data with
         | Ok (Some cleanChunk) => Yield cleanChunk
         | _ => Continue
         end.
Proof.
  unfold handleLine. rewrite startsWith_append. cbn [negb].
  change (Js.drop 6 ("data: " +++ data))
    with (Js.drop (String.length "data: ") ("data: " +++ data)).
  rewrite drop_append.
  destruct (String.eqb _ _); [reflexivity|].
  now destruct (tryLine _ _ _ _) as [[?|]|].
Qed.

(** Whatever is yielded is the cleaned delta of a data line. *)
Lemma handleLine_source isFirst line chunk :
  handleLine JSON_parse provider isFirst line = Yield chunk ->
  exists data parsed delta,
    line = "data: " +++ data
    /\ JSON_parse data = Ok parsed
    /\ extractDelta provider parsed = Ok (Some (JStr delta))
    /\ chunk = cleanStreamChunk delta isFirst.
Proof.
  intros H.
  destruct (Js.startsWith "data: " line) eqn:Hdata;
    [|now rewrite handleLine_other in H].
  apply startsWith_split in Hdata. rewrite Hdata in H |- *.
  set (data := Js.drop (String.length "data: ") line) in *.
  rewrite handleLine_data in H.
  destruct (String.eqb _ _); [discriminate|].
  unfold tryLine in H.
  destruct (JSON_parse data) as [parsed|] eqn:Hparse; [|discriminate].
  cbn [bind] in H.
  destruct (extractDelta provider parsed) as [textChunk|] eqn:Hdelta;
    [|discriminate].
  cbn [bind] in H.
  destruct (truthy textChunk); [|discriminate].
  destruct textChunk as [[| | |delta| |]|]; try discriminate.
  cbn [cleanStreamChunkAny bind] in H.
  destruct (Js.nonempty _); [|discriminate].
  injection H as <-. now exists data, parsed, delta.
Qed.

Lemma forLines_source lines isFirst chunk :
  In chunk (fst (fst (forLines JSON_parse provider lines isFirst))) ->
  exists line data parsed delta flag,
    In line lines /\ line = "data: " +++ data
    /\ JSON_parse data = Ok parsed
    /\ extractDelta provider parsed = Ok (Some (JStr delta))
    /\ chunk = cleanStreamChunk delta flag.
Proof.
  revert isFirst. induction lines as [|line rest IH]; intros isFirst;
    cbn [forLines]; [intros []|].
  destruct (handleLine JSON_parse provider isFirst line) as [| |c] eqn:E.
  - intros H. destruct (IH _ H) as (l & d & p & dl & f & Hin & Hrest).
    exists l, d, p, dl, f. split; [now right | assumption].
  - intros [].
  - destruct (forLines JSON_parse provider rest false) as [[more flag] ret] eqn:R.
    cbn [fst]. intros [<-|H].
    + destruct (handleLine_source _ _ _ E) as (d & p & dl & H1 & H2 & H3 & H4).
      exists line, d, p, dl, isFirst. split; [now left|]. now repeat split.
    + specialize (IH false). rewrite R in IH.
      destruct (IH H) as (l & d & p & dl & f & Hin & Hrest).
      exists l, d, p, dl, f. split; [now right | assumption].
Qed.

End Decoder.

Lemma extractDelta_completions (provider : AiProvider) (s : string) :
  provider <> Anthropic ->
  extractDelta provider
    (JObj [("choices", JArr [JObj [("delta", JObj [("content", JStr s)])]])])
  = Ok (Some (JStr s)).
Proof.
  intros H. destruct provider; try contradiction; now destruct s.
Qed.

Lemma extractDelta_messages (s : string) :
  extractDelta Anthropic
    (JObj [("type", JStr "content_block_delta");
           ("delta", JObj [("text", JStr s)])])
  = Ok (Some (JStr s)).
Proof. reflexivity. Qed.

(** C8. The decoder of the line-oriented providers, for every sequence of
    reads: (1) what it yields depends only on the complete lines of the
    whole text received, however the text is cut into reads, the
    unfinished last line being kept for the next read; (2) a line that
    does not start with [data: ] is ignored; (3) a data line whose payload
    is [[DONE]] ends the stream, nothing after it being yielded; (4) a data
    line whose JSON is malformed is skipped; (5) a data line whose envelope
    carries a text delta with a non-empty cleaned text yields it, and the
    lines after it are handled in order; (6) nothing else is yielded: every
    chunk is the cleaned text delta of a data line of the text. *)
Theorem generateStream_decoder
    (JSON_parse : string -> result json) (provider : AiProvider) :
  (forall reads isFirst,
     fst (readLoop JSON_parse provider reads EmptyString isFirst)
     = fst (fst (forLines JSON_parse provider
                   (removelast
                      (Js.split "010" (fold_right String.append EmptyString reads)))
                   isFirst)))
  /\ (forall isFirst line rest,
        Js.startsWith "data: " line = false ->
        forLines JSON_parse provider (line :: rest) isFirst
        = forLines JSON_parse provider rest isFirst)
  /\ (forall isFirst data rest,
        Js.trim data = "[DONE]" ->
        forLines JSON_parse provider (("data: " +++ data) :: rest) isFirst
        = ([], isFirst, true))
  /\ (forall isFirst data e rest,
        Js.trim data <> "[DONE]" ->
        JSON_parse data = Throw e ->
        forLines JSON_parse provider (("data: " +++ data) :: rest) isFirst
        = forLines JSON_parse provider rest isFirst)
  /\ (forall isFirst data parsed delta rest,
        Js.trim data <> "[DONE]" ->
        JSON_parse data = Ok parsed ->
        extractDelta provider parsed = Ok (Some (JStr delta)) ->
        cleanStreamChunk delta isFirst <> EmptyString ->
        forLines JSON_parse provider (("data: " +++ data) :: rest) isFirst
        = let '(more, flag, returned) :=
            forLines JSON_parse provider rest false in
          (cleanStreamChunk delta isFirst :: more, flag, returned))
  /\ (forall reads chunk,
        In chunk (fst (readLoop JSON_parse provider reads EmptyString true)) ->
        exists line data parsed delta flag,
          In line (removelast
                     (Js.split "010" (fold_right String.append EmptyString reads)))
          /\ line = "data: " +++ data
          /\ JSON_parse data = Ok parsed
          /\ extractDelta provider parsed = Ok (Some (JStr delta))
          /\ chunk = cleanStreamChunk delta flag).
Proof.
  assert (Hread : forall reads isFirst,
     fst (readLoop JSON_parse provider reads EmptyString isFirst)
     = fst (fst (forLines JSON_parse provider
                   (removelast
                      (Js.split "010" (fold_right String.append EmptyString reads)))
                   isFirst))).
  { intros reads isFirst.
    rewrite (readLoop_lines JSON_parse provider reads EmptyString isFirst eq_refl).
    cbn [String.append]. now destruct (forLines _ _ _ _) as [[? ?] ?]. }
  repeat split.
  - exact Hread.
  - intros isFirst line rest H. cbn [forLines].
    now rewrite handleLine_other.
  - intros isFirst data rest H. cbn [forLines].
    now rewrite handleLine_data, H.
  - intros isFirst data e rest Hdone Hparse. cbn [forLines].
    rewrite handleLine_data.
    apply String.eqb_neq in Hdone. rewrite Hdone.
    unfold tryLine. now rewrite Hparse.
  - intros isFirst data parsed delta rest Hdone Hparse Hdelta Hclean.
    cbn [forLines]. rewrite handleLine_data.
    apply String.eqb_neq in Hdone. rewrite Hdone.
    unfold tryLine. rewrite Hparse. cbn [bind]. rewrite Hdelta. cbn [bind].
    assert (Ht : truthy (Some (JStr delta)) = true).
    { destruct delta; [|reflexivity]. now destruct isFirst. }
    rewrite Ht. cbn [cleanStreamChunkAny bind].
    apply nonempty_spec in Hclean. now rewrite Hclean.
  - intros reads chunk Hin. rewrite Hread in Hin.
    now apply forLines_source in Hin.
Qed.

Lemma generateStream_decoder_witness :
  forLines JSON.parse OpenAI [": keep-alive"; deltaLine "late"] true
  = forLines JSON.parse OpenAI [deltaLine "late"] true
  /\ forLines JSON.parse OpenAI ["data: [DONE]"; deltaLine "late"] true
     = ([], true, true)
  /\ forLines JSON.parse OpenAI ["data: {oops}"; deltaLine "late"] true
     = forLines JSON.parse OpenAI [deltaLine "late"] true
  /\ forLines JSON.parse OpenAI ["data: " +++ deltaData "<p>"] true
     = (["<p>"], false, false).
Proof.
  destruct (generateStream_decoder JSON.parse OpenAI)
    as (_ & Hother & Hdone & Hbad & Hdelta & _).
  split; [|split; [|split]].
  - apply Hother. reflexivity.
  - apply (Hdone true "[DONE]"). reflexivity.
  - apply (Hbad true "{oops}" JSON.SyntaxError); [discriminate | reflexivity].
  - apply (Hdelta true (deltaData "<p>")
             (JObj [("choices",
                     JArr [JObj [("delta", JObj [("content", JStr "<p>")])]])])
             "<p>" []);
      [discriminate | reflexivity | reflexivity | discriminate].
Defined.

(** The decoder at work on a stream cut in the middle of a line, with a
    comment line, a malformed data line and data after the sentinel. *)
Example readLoop_example :
  readLoop JSON.parse OpenAI
    [ "da"; "ta: {oops}" +++ nl +++ ": ping" +++ nl +++ "data";
      Js.drop 4 (deltaLine "<p>") +++ deltaLine "</p>```" +++ "data: [DO";
      "NE]" +++ nl +++ deltaLine "late" ]
    EmptyString true
  = (["<p>"; "</p>"], false).
Proof. vm_compute. reflexivity. Qed.

(** ** Deleting the fence markers *)

Lemma space_not_backtick c : Js.is_space c = true -> c <> "`"%char.
Proof. intros H ->. discriminate H. Qed.

Lemma startsWith_before pat j c s :
  Forall (fun p => p <> c) (list_ascii_of_string pat) ->
  Js.startsWith pat (j +++ String c s) = Js.startsWith pat j.
Proof.
  revert j. induction pat as [|p pat IH]; intros j H; [reflexivity|].
  inversion H as [|? ? Hp Hrest]; subst.
  destruct j as [|a j]; cbn [String.append Js.startsWith].
  - apply Ascii.eqb_neq in Hp. now rewrite Hp.
  - now rewrite IH.
Qed.

Section RemoveAll.

Variable pat : string.

(** The pattern is not empty and holds no white space. *)
Hypothesis pat_nonempty : pat <> EmptyString.
Hypothesis pat_solid :
  forall c, Js.is_space c = true ->
            Forall (fun p => p <> c) (list_ascii_of_string pat).

Lemma removeAll_from_skip u s :
  Js.removeAll_from pat (String.length u) (u +++ s) = Js.removeAll pat s.
Proof.
  induction u as [|a u IH]; [|exact IH].
  unfold Js.removeAll. destruct s; reflexivity.
Qed.

Lemma removeAll_match s : Js.removeAll pat (pat +++ s) = Js.removeAll pat s.
Proof.
  destruct pat as [|p pat'] eqn:E; [contradiction|].
  unfold Js.removeAll at 1. cbn [String.append Js.removeAll_from].
  change (String p (pat' +++ s)) with (String p pat' +++ s).
  rewrite startsWith_append.
  replace (String.length (String p pat') - 1) with (String.length pat')
    by (cbn [String.length]; lia).
  rewrite <- E. apply removeAll_from_skip.
Qed.

Lemma removeAll_keep c s :
  Js.startsWith pat (String c s) = false ->
  Js.removeAll pat (String c s) = String c (Js.removeAll pat s).
Proof.
  intros H. unfold Js.removeAll. cbn [Js.removeAll_from]. now rewrite H.
Qed.

Lemma startsWith_space c s :
  Js.is_space c = true -> Js.startsWith pat (String c s) = false.
Proof.
  intros Hc.
  change (String c s) with (EmptyString +++ String c s).
  rewrite (startsWith_before pat EmptyString c s (pat_solid c Hc)).
  destruct pat; [contradiction | reflexivity].
Qed.

Lemma removeAll_spaces ws s :
  Js.all_space ws = true ->
  Js.removeAll pat (ws +++ s) = ws +++ Js.removeAll pat s.
Proof.
  induction ws as [|c ws IH]; intros H; [reflexivity|].
  cbn [Js.all_space] in H. apply andb_prop in H as [Hc Hws].
  cbn [String.append]. rewrite removeAll_keep by now apply startsWith_space.
  now rewrite IH.
Qed.

Lemma removeAll_none s :
  Js.includes pat s = false -> Js.removeAll pat s = s.
Proof.
  induction s as [|c s IH]; intros H; [reflexivity|].
  rewrite removeAll_keep by now apply includes_startsWith.
  f_equal. apply IH. now apply includes_cons in H.
Qed.

(** A text without the pattern, followed by white space: no occurrence
    begins in it. *)
Lemma removeAll_before j c s :
  Js.includes pat j = false -> Js.is_space c = true ->
  Js.removeAll pat (j +++ String c s) = j +++ Js.removeAll pat (String c s).
Proof.
  intros Hj Hc. induction j as [|a j IH]; [reflexivity|].
  cbn [String.append]. rewrite removeAll_keep.
  - f_equal. apply IH. now apply includes_cons in Hj.
  - change (String a (j +++ String c s)) with (String a j +++ String c s).
    rewrite (startsWith_before pat _ c s (pat_solid c Hc)).
    now apply includes_startsWith.
Qed.

Lemma removeAll_before_spaces j ws s :
  Js.includes pat j = false -> Js.all_space ws = true -> ws <> EmptyString ->
  Js.removeAll pat (j +++ ws +++ s) = j +++ Js.removeAll pat (ws +++ s).
Proof.
  intros Hj Hws Hne. destruct ws as [|c ws]; [contradiction|].
  cbn [Js.all_space] in Hws. apply andb_prop in Hws as [Hc _].
  now apply removeAll_before.
Qed.

End RemoveAll.

Lemma fence_solid c :
  Js.is_space c = true ->
  Forall (fun p => p <> c) (list_ascii_of_string "```").
Proof.
  intros Hc. repeat constructor; intros <-; discriminate Hc.
Qed.

Lemma fence_json_solid c :
  Js.is_space c = true ->
  Forall (fun p => p <> c) (list_ascii_of_string "```json").
Proof.
  intros Hc. repeat constructor; intros <-; discriminate Hc.
Qed.

Lemma includes_spaces pat ws :
  pat <> EmptyString ->
  (forall c, Js.is_space c = true ->
             Forall (fun p => p <> c) (list_ascii_of_string pat)) ->
  Js.all_space ws = true -> Js.includes pat ws = false.
Proof.
  intros Hne Hsolid. induction ws as [|c ws IH]; intros H.
  - destruct pat; [contradiction | reflexivity].
  - cbn [Js.all_space] in H. apply andb_prop in H as [Hc Hws].
    cbn [Js.includes]. rewrite (startsWith_space pat Hne Hsolid c ws Hc).
    now apply IH.
Qed.

(** A text without fence has no tagged fence either. *)
Lemma includes_fence_json s :
  Js.includes "```" s = false -> Js.includes "```json" s = false.
Proof.
  induction s as [|c s IH]; intros H; [reflexivity|].
  pose proof (includes_startsWith _ _ H) as Hs.
  apply includes_cons in H. cbn [Js.includes]. rewrite (IH H), orb_false_r.
  destruct (Js.startsWith "```json" (String c s)) eqn:E; [|reflexivity].
  apply startsWith_split in E. rewrite E in Hs.
  change ("```json" +++ Js.drop (String.length "```json") (String c s))
    with ("```" +++ ("json" +++ Js.drop (String.length "```json") (String c s)))
    in Hs.
  now rewrite startsWith_append in Hs.
Qed.

Lemma includes_before_spaces pat j ws :
  pat <> EmptyString ->
  (forall c, Js.is_space c = true ->
             Forall (fun p => p <> c) (list_ascii_of_string pat)) ->
  Js.includes pat j = false -> Js.all_space ws = true ->
  Js.includes pat (j +++ ws) = false.
Proof.
  intros Hne Hsolid Hj Hws. induction j as [|a j IH].
  - now apply includes_spaces.
  - cbn [String.append Js.includes].
    rewrite IH by now apply includes_cons in Hj.
    rewrite orb_false_r. destruct ws as [|c ws].
    + rewrite append_nil_r. now apply includes_startsWith.
    + cbn [Js.all_space] in Hws. apply andb_prop in Hws as [Hc _].
      change (String a (j +++ String c ws)) with (String a j +++ String c ws).
      rewrite (startsWith_before pat _ c ws (Hsolid c Hc)).
      now apply includes_startsWith.
Qed.

(** ** Trimming *)

Lemma all_space_append a b :
  Js.all_space (a +++ b) = Js.all_space a && Js.all_space b.
Proof.
  induction a as [|c a IH]; [reflexivity|].
  cbn [String.append Js.all_space]. now rewrite IH, andb_assoc.
Qed.

Lemma trimEnd_all_space ws : Js.all_space ws = true -> Js.trimEnd ws = EmptyString.
Proof.
  destruct ws; [reflexivity|]. intros H. cbn [Js.trimEnd]. now rewrite H.
Qed.

Lemma trimStart_all_space ws :
  Js.all_space ws = true -> Js.trimStart ws = EmptyString.
Proof.
  induction ws as [|c ws IH]; [reflexivity|].
  cbn [Js.all_space Js.trimStart]. intros H.
  apply andb_prop in H as [-> H]. now apply IH.
Qed.

Lemma trimEnd_spaces s ws :
  Js.all_space ws = true -> Js.trimEnd (s +++ ws) = Js.trimEnd s.
Proof.
  intros Hws. induction s as [|c s IH].
  - now apply trimEnd_all_space.
  - cbn [String.append Js.trimEnd].
    change (String c (s +++ ws)) with (String c s +++ ws).
    rewrite all_space_append, Hws, andb_true_r. now rewrite IH.
Qed.

Lemma trimStart_append j ws :
  Js.trimStart (j +++ ws)
  = if Js.all_space j then Js.trimStart ws else Js.trimStart j +++ ws.
Proof.
  induction j as [|c j IH]; [reflexivity|].
  cbn [String.append Js.trimStart Js.all_space].
  destruct (Js.is_space c); [exact IH | reflexivity].
Qed.

Lemma trim_padded w1 j w2 :
  Js.all_space w1 = true -> Js.all_space w2 = true ->
  Js.trim (w1 +++ j +++ w2) = Js.trim j.
Proof.
  intros H1 H2. unfold Js.trim.
  rewrite (trimStart_spaces _ _ H1), trimStart_append.
  destruct (Js.all_space j) eqn:E.
  - now rewrite (trimStart_all_space _ H2), (trimStart_all_space _ E).
  - now apply trimEnd_spaces.
Qed.

(** ** ResponseNormalizer *)

(** An occurrence cannot straddle a character that the pattern lacks. *)
Lemma includes_before pat j c s :
  Forall (fun p => p <> c) (list_ascii_of_string pat) ->
  Js.includes pat (j +++ String c s)
  = Js.includes pat j || Js.includes pat (String c s).
Proof.
  intros Hc. induction j as [|a j IH].
  - cbn [String.append]. destruct pat; [reflexivity|].
    cbn [Js.includes Js.startsWith orb]. reflexivity.
  - cbn [String.append]. cbn [Js.includes]. rewrite IH, orb_assoc. f_equal.
    change (String a (j +++ String c s)) with (String a j +++ String c s).
    now rewrite (startsWith_before pat _ c s Hc).
Qed.

Lemma includes_after_spaces pat ws s :
  pat <> EmptyString ->
  (forall c, Js.is_space c = true ->
             Forall (fun p => p <> c) (list_ascii_of_string pat)) ->
  Js.all_space ws = true ->
  Js.includes pat (ws +++ s) = Js.includes pat s.
Proof.
  intros Hne Hsolid. induction ws as [|c ws IH]; intros H; [reflexivity|].
  cbn [Js.all_space] in H. apply andb_prop in H as [Hc Hws].
  cbn [String.append Js.includes].
  rewrite (startsWith_space pat Hne Hsolid c _ Hc). now apply IH.
Qed.

(** A closing fence completes no tagged fence. *)
Lemma startsWith_fence_json_closed s :
  Js.startsWith "```json" s = false ->
  Js.startsWith "```json" (s +++ "```") = false.
Proof.
  destruct s as [|a1 [|a2 [|a3 [|a4 [|a5 [|a6 [|a7 s]]]]]]];
    cbn [String.append Js.startsWith];
    repeat match goal with
           | |- context [Ascii.eqb ?p ?a] =>
               is_var a; destruct (Ascii.eqb p a)
           end;
    cbn; intros H; first [reflexivity | exact H].
Qed.

Lemma includes_fence_json_closed s :
  Js.includes "```json" s = false ->
  Js.includes "```json" (s +++ "```") = false.
Proof.
  induction s as [|c s IH]; intros H; [reflexivity|].
  pose proof (includes_startsWith _ _ H) as Hs.
  apply includes_cons in H.
  cbn [String.append Js.includes]. rewrite (IH H), orb_false_r.
  change (String c (s +++ "```")) with (String c s +++ "```").
  now apply startsWith_fence_json_closed.
Qed.

Lemma includes_closing s closing w :
  In closing [EmptyString; "```"] ->
  Js.all_space w = true ->
  Js.includes "```json" s = false ->
  Js.includes "```json" (s +++ closing +++ w) = false.
Proof.
  intros [<-|[<-|[]]] Hw Hs.
  - now apply includes_before_spaces;
      [discriminate | apply fence_json_solid | |].
  - rewrite <- append_assoc.
    apply includes_before_spaces;
      [discriminate | apply fence_json_solid | | exact Hw].
    now apply includes_fence_json_closed.
Qed.

(** The closing fence goes, and what precedes it stays: a back-tick or
    two just before the fence make the match begin earlier and leave as
    many behind. *)
Lemma removeAll_closing_fence s w :
  Js.includes "```" s = false -> Js.all_space w = true ->
  Js.removeAll "```" (s +++ "```" +++ w) = s +++ w.
Proof.
  intros Hs Hw.
  assert (Hclean : forall t, Js.includes "```" t = false ->
            Js.removeAll "```" (t +++ w) = t +++ w).
  { intros t Ht. apply removeAll_none.
    now apply includes_before_spaces;
      [discriminate | apply fence_solid | |]. }
  induction s as [|a s IH].
  - change (EmptyString +++ "```" +++ w) with ("```" +++ w).
    rewrite (removeAll_match "```" ltac:(discriminate) fence_solid).
    exact (Hclean EmptyString eq_refl).
  - pose proof (includes_startsWith _ _ Hs) as Hhead.
    pose proof (includes_cons _ _ _ Hs) as Htail.
    cbn [String.append].
    destruct (Js.startsWith "```" (String a (s +++ "```" +++ w))) eqn:E.
    + destruct s as [|b [|c s]]; cbn [String.append Js.startsWith] in E, Hhead.
      * apply andb_prop in E as [Ea _]. apply Ascii.eqb_eq in Ea. subst a.
        change (Js.removeAll "```" ("```" +++ ("`" +++ w)) = "`" +++ w).
        rewrite (removeAll_match "```" ltac:(discriminate) fence_solid).
        exact (Hclean "`" eq_refl).
      * apply andb_prop in E as [Ea E]. apply andb_prop in E as [Eb _].
        apply Ascii.eqb_eq in Ea, Eb. subst a b.
        change (Js.removeAll "```" ("```" +++ ("``" +++ w)) = "``" +++ w).
        rewrite (removeAll_match "```" ltac:(discriminate) fence_solid).
        exact (Hclean "``" eq_refl).
      * rewrite Hhead in E. discriminate E.
    + rewrite removeAll_keep by exact E. f_equal. now apply IH.
Qed.

Lemma removeAll_closing s closing w :
  In closing [EmptyString; "```"] ->
  Js.includes "```" s = false -> Js.all_space w = true ->
  Js.removeAll "```" (s +++ closing +++ w) = s +++ w.
Proof.
  intros [<-|[<-|[]]] Hs Hw.
  - apply removeAll_none.
    now apply includes_before_spaces;
      [discriminate | apply fence_solid | |].
  - now apply removeAll_closing_fence.
Qed.

(** Stage 0 on a text between an optional opening fence and an optional
    closing fence: the fences go, the text between them stays. *)
Lemma cleaned_between opening closing w1 s w4 :
  In opening [EmptyString; "```"; "```json"] ->
  In closing [EmptyString; "```"] ->
  Js.all_space w1 = true -> Js.all_space w4 = true ->
  Js.includes "```" s = false ->
  (opening = "```" -> Js.includes "```json" ("```" +++ s) = false) ->
  cleaned (w1 +++ opening +++ s +++ closing +++ w4) = Js.trim s.
Proof.
  intros Hopening Hclosing Hw1 Hw4 Hs Huntagged. unfold cleaned.
  pose proof (includes_fence_json s Hs) as Hs'.
  assert (Hrest : Js.removeAll "```json" (s +++ closing +++ w4)
                  = s +++ closing +++ w4)
    by now apply removeAll_none, includes_closing.
  assert (Hgone : Js.removeAll "```" (s +++ closing +++ w4) = s +++ w4)
    by now apply removeAll_closing.
  assert (Hfirst :
            Js.removeAll "```"
              (Js.removeAll "```json" (opening +++ s +++ closing +++ w4))
            = s +++ w4).
  { destruct Hopening as [<-|[<-|[<-|[]]]].
    - cbn [String.append]. now rewrite Hrest.
    - rewrite (removeAll_none "```json").
      + now rewrite (removeAll_match "```" ltac:(discriminate) fence_solid).
      + rewrite <- append_assoc.
        apply includes_closing; [exact Hclosing | exact Hw4 |].
        now apply Huntagged.
    - rewrite (removeAll_match "```json" ltac:(discriminate) fence_json_solid).
      now rewrite Hrest. }
  rewrite (removeAll_spaces "```json" ltac:(discriminate) fence_json_solid
             w1 _ Hw1).
  rewrite (removeAll_spaces "```" ltac:(discriminate) fence_solid w1 _ Hw1).
  rewrite Hfirst. now apply trim_padded.
Qed.

Lemma cleaned_wrapped opening closing w1 w2 j w3 w4 :
  In opening [EmptyString; "```"; "```json"] ->
  In closing [EmptyString; "```"] ->
  Js.all_space w1 = true -> Js.all_space w2 = true ->
  Js.all_space w3 = true -> Js.all_space w4 = true ->
  Js.includes "```" j = false ->
  (opening = "```" -> w2 = EmptyString ->
   Js.includes "```json" ("```" +++ j) = false) ->
  cleaned (w1 +++ opening +++ w2 +++ j +++ w3 +++ closing +++ w4)
  = Js.trim j.
Proof.
  intros Hopening Hclosing Hw1 Hw2 Hw3 Hw4 Hj Huntagged.
  assert (Hinner : Js.includes "```" (w2 +++ j +++ w3) = false).
  { rewrite (includes_after_spaces "```" w2 _ ltac:(discriminate) fence_solid Hw2).
    now apply includes_before_spaces;
      [discriminate | apply fence_solid | |]. }
  replace (w1 +++ opening +++ w2 +++ j +++ w3 +++ closing +++ w4)
    with (w1 +++ opening +++ (w2 +++ j +++ w3) +++ closing +++ w4)
    by now rewrite !append_assoc.
  rewrite (cleaned_between opening closing w1 (w2 +++ j +++ w3) w4
             Hopening Hclosing Hw1 Hw4 Hinner).
  - now apply trim_padded.
  - intros ->. destruct w2 as [|c w2].
    + change (Js.includes "```json" ("```" +++ j +++ w3) = false).
      rewrite <- append_assoc.
      apply includes_before_spaces;
        [discriminate | apply fence_json_solid | | exact Hw3].
      now apply Huntagged.
    + cbn [Js.all_space] in Hw2. apply andb_prop in Hw2 as [Hc Hw2].
      change ("```" +++ String c w2 +++ j +++ w3)
        with ("```" +++ String c (w2 +++ j +++ w3)).
      rewrite (includes_before "```json" "```" c _ (fence_json_solid c Hc)).
      change (Js.includes "```json" "```") with false. cbn [orb].
      change (String c (w2 +++ j +++ w3)) with (String c w2 +++ (j +++ w3)).
      rewrite (includes_after_spaces "```json" (String c w2) _
                 ltac:(discriminate) fence_json_solid)
        by (cbn [Js.all_space]; now rewrite Hc).
      apply includes_before_spaces;
        [discriminate | apply fence_json_solid | | exact Hw3].
      now apply includes_fence_json.
Qed.

Lemma uptoLast_absent c s :
  Js.includes (String c EmptyString) s = false -> uptoLast c s = None.
Proof.
  induction s as [|a s IH]; intros H; [reflexivity|].
  pose proof (includes_startsWith _ _ H) as Ha.
  apply includes_cons in H. cbn [uptoLast]. rewrite (IH H).
  cbn [Js.startsWith] in Ha. rewrite andb_true_r, Ascii.eqb_sym in Ha.
  now rewrite Ha.
Qed.

Lemma uptoLast_found c mid post :
  uptoLast c post = None ->
  uptoLast c (mid +++ String c post) = Some (mid +++ String c EmptyString).
Proof.
  intros H. induction mid as [|a mid IH]; cbn [String.append uptoLast].
  - now rewrite H, Ascii.eqb_refl.
  - now rewrite IH.
Qed.

Lemma jsonMatch_skip pre s :
  Js.includes "{" pre = false -> Js.includes "[" pre = false ->
  jsonMatch (pre +++ s) = jsonMatch s.
Proof.
  induction pre as [|a pre IH]; intros Ho Ha; [reflexivity|].
  pose proof (includes_startsWith _ _ Ho) as Ho'.
  pose proof (includes_startsWith _ _ Ha) as Ha'.
  apply includes_cons in Ho, Ha.
  cbn [Js.startsWith] in Ho', Ha'.
  rewrite andb_true_r, Ascii.eqb_sym in Ho', Ha'.
  cbn [String.append jsonMatch]. rewrite Ho', Ha'. now apply IH.
Qed.

Lemma jsonMatch_none text :
  Js.includes "{" text = false -> Js.includes "[" text = false ->
  jsonMatch text = None.
Proof.
  intros Ho Ha. rewrite <- (append_nil_r text).
  now rewrite jsonMatch_skip.
Qed.

(** The brackets of an object or of an array. *)
Lemma jsonMatch_span (isObject : bool) pre mid post :
  let opening := if isObject then "{"%char else "["%char in
  let closing := if isObject then "}"%char else "]"%char in
  Js.includes "{" pre = false -> Js.includes "[" pre = false ->
  Js.includes (String closing EmptyString) post = false ->
  jsonMatch (pre +++ String opening (mid +++ String closing EmptyString) +++ post)
  = Some (String opening (mid +++ String closing EmptyString)).
Proof.
  intros opening closing Ho Ha Hpost.
  rewrite (jsonMatch_skip _ _ Ho Ha).
  cbn [String.append]. rewrite append_assoc. cbn [String.append].
  apply uptoLast_absent in Hpost.
  destruct isObject; subst opening closing; cbn [jsonMatch];
    cbn [Ascii.eqb Bool.eqb]; now rewrite (uptoLast_found _ _ _ Hpost).
Qed.

Lemma substring_prefix n s :
  String.length (substring 0 n s) <= n
  /\ s = substring 0 n s +++ Js.drop n s.
Proof.
  revert s. induction n as [|n IH]; intros [|c s]; simpl; try (split; [lia|reflexivity]).
  destruct (IH s) as [Hlen Heq]. split; [lia|]. now rewrite <- Heq.
Qed.

(** C1 does not hold as stated: a fence marker inside the JSON text is
    deleted too, so a valid JSON text, with no wrapping at all, is parsed to
    a different structure. *)
Lemma parseJsonResponse_not_faithful :
  JSON.parse ("[" +++ JSON.q "```" +++ "]") = Ok (JArr [JStr "```"])
  /\ parseJsonResponse JSON.parse ("[" +++ JSON.q "```" +++ "]")
     = Ok (JArr [JStr EmptyString])
  /\ parseJsonResponse JSON.parse ("[" +++ JSON.q "```" +++ "]")
     <> JSON.parse ("[" +++ JSON.q "```" +++ "]").
Proof. split; [|split]; vm_compute; [reflexivity | reflexivity | discriminate]. Qed.

(** Prose that holds a bracket of its own defeats the extraction, and a
    JSON value that is not an object or an array is never extracted. *)
Example parseJsonResponse_prose_with_brackets :
  JSON.parse "[1, 2]" = Ok (JArr [JNum 1; JNum 2])
  /\ parseJsonResponse JSON.parse "Note {sic}: [1, 2]"
     = Throw (mkError (extractedInvalidMessage JSON.SyntaxError)).
Proof. split; vm_compute; reflexivity. Qed.

Example parseJsonResponse_scalar_in_prose :
  JSON.parse "42" = Ok (JNum 42)
  /\ parseJsonResponse JSON.parse "The answer is 42"
     = Throw (mkError (rawTextMessage "The answer is 42")).
Proof. split; vm_compute; reflexivity. Qed.

(** The first parse decides when it succeeds: a JSON string that holds
    brackets is returned as the string it is, not as what the brackets
    hold. *)
Example parseJsonResponse_quoted_brackets :
  parseJsonResponse JSON.parse (JSON.q "see {}") = Ok (JStr "see {}")
  /\ JSON.parse (JSON.q "see {}") = Ok (JStr "see {}")
  /\ JSON.parse "{}" = Ok (JObj []).
Proof. repeat split; vm_compute; reflexivity. Qed.

(** C1 (amended). For every parser: a text [j] without fence marker and
    without surrounding white space is parsed as [j] is, whether it stands
    alone or after an opening fence (tagged [json] or not), before a
    closing fence or between the two, with or without white space around
    it and around the fences (an untagged fence directly followed by [j]
    must not read as a tagged one); an object or array [j] inside prose is
    parsed as [j] is when the prose before it holds no opening bracket and
    the prose after it holds no closing bracket of its kind, unless the
    whole text stripped of its fences is itself accepted, and then that
    is the result; when both stages fail an [Error] is thrown, whose
    message holds the first 100 characters of the raw text (the whole text
    when it is shorter) if the text has no bracketed span, and the inner
    parse error instead if it has one that does not parse.  A result is
    always that of one of the two parses, and an error always one of these
    two. *)
Theorem parseJsonResponse_recovers (JSON_parse : string -> result json) :
  (forall opening closing w1 w2 j w3 w4,
      In opening [EmptyString; "```"; "```json"] ->
      In closing [EmptyString; "```"] ->
      Js.all_space w1 = true -> Js.all_space w2 = true ->
      Js.all_space w3 = true -> Js.all_space w4 = true ->
      Js.includes "```" j = false -> Js.trim j = j ->
      (opening = "```" -> w2 = EmptyString ->
       Js.includes "```json" ("```" +++ j) = false) ->
      forall v, JSON_parse j = Ok v ->
      parseJsonResponse JSON_parse
        (w1 +++ opening +++ w2 +++ j +++ w3 +++ closing +++ w4)
      = Ok v)
  /\ (forall (isObject : bool) pre mid post,
      let opening := if isObject then "{"%char else "["%char in
      let closing := if isObject then "}"%char else "]"%char in
      let j := String opening (mid +++ String closing EmptyString) in
      Js.includes "{" pre = false -> Js.includes "[" pre = false ->
      Js.includes (String closing EmptyString) post = false ->
      forall v, JSON_parse j = Ok v ->
      parseJsonResponse JSON_parse (pre +++ j +++ post)
      = match JSON_parse (cleaned (pre +++ j +++ post)) with
        | Ok direct => Ok direct
        | Throw _ => Ok v
        end)
  /\ (forall text e,
      JSON_parse (cleaned text) = Throw e -> jsonMatch text = None ->
      parseJsonResponse JSON_parse text = Throw (mkError (rawTextMessage text))
      /\ String.length (substring 0 100 text) <= 100
      /\ text = substring 0 100 text +++ Js.drop 100 text)
  /\ (forall text e m e',
      JSON_parse (cleaned text) = Throw e -> jsonMatch text = Some m ->
      JSON_parse m = Throw e' ->
      parseJsonResponse JSON_parse text
      = Throw (mkError (extractedInvalidMessage e')))
  /\ (forall text,
      Js.includes "{" text = false -> Js.includes "[" text = false ->
      jsonMatch text = None)
  /\ (forall text v,
      parseJsonResponse JSON_parse text = Ok v ->
      JSON_parse (cleaned text) = Ok v
      \/ exists m, jsonMatch text = Some m /\ JSON_parse m = Ok v)
  /\ (forall text e,
      parseJsonResponse JSON_parse text = Throw e ->
      e = mkError (rawTextMessage text)
      \/ exists e', e = mkError (extractedInvalidMessage e')).
Proof.
  split; [|split; [|split; [|split; [|split; [|split]]]]].
  - intros opening closing w1 w2 j w3 w4 Hopening Hclosing H1 H2 H3 H4 Hj
      Htrim Huntagged v Hv.
    unfold parseJsonResponse.
    rewrite (cleaned_wrapped opening closing w1 w2 j w3 w4) by assumption.
    now rewrite Htrim, Hv.
  - intros isObject pre mid post opening closing j Ho Ha Hpost v Hv.
    unfold parseJsonResponse.
    destruct (JSON_parse (cleaned (pre +++ j +++ post))) as [direct|e];
      [reflexivity|].
    subst j opening closing.
    rewrite (jsonMatch_span isObject pre mid post Ho Ha Hpost).
    now rewrite Hv.
  - intros text e Hdirect Hmatch. split; [|apply substring_prefix].
    unfold parseJsonResponse. now rewrite Hdirect, Hmatch.
  - intros text e m e' Hdirect Hmatch Hinner.
    unfold parseJsonResponse. now rewrite Hdirect, Hmatch, Hinner.
  - intros text. apply jsonMatch_none.
  - intros text v. unfold parseJsonResponse.
    destruct (JSON_parse (cleaned text)) as [v1|e1]; [intros [= <-]; now left|].
    destruct (jsonMatch text) as [m|]; [|discriminate].
    destruct (JSON_parse m) as [v2|e2] eqn:E; [|discriminate].
    intros [= <-]. right. now exists m.
  - intros text e. unfold parseJsonResponse.
    destruct (JSON_parse (cleaned text)) as [v1|e1]; [discriminate|].
    destruct (jsonMatch text) as [m|]; [|intros [= <-]; now left].
    destruct (JSON_parse m) as [v2|e2]; [discriminate|].
    intros [= <-]. right. now exists e2.
Qed.

Lemma parseJsonResponse_recovers_witness :
  parseJsonResponse JSON.parse
    ("```json" +++ nl +++ "[1, 2]" +++ nl +++ "```")
  = Ok (JArr [JNum 1; JNum 2])
  /\ parseJsonResponse JSON.parse "```json[1, 2]```"
     = Ok (JArr [JNum 1; JNum 2])
  /\ parseJsonResponse JSON.parse (nl +++ "```[1, 2]" +++ nl)
     = Ok (JArr [JNum 1; JNum 2])
  /\ parseJsonResponse JSON.parse "42" = Ok (JNum 42)
  /\ parseJsonResponse JSON.parse "Here you are: [1, 2] Enjoy!"
     = Ok (JArr [JNum 1; JNum 2])
  /\ parseJsonResponse JSON.parse "The answer is 42"
     = Throw (mkError (rawTextMessage "The answer is 42")).
Proof.
  destruct (parseJsonResponse_recovers JSON.parse) as (Hfenced & Hprose & Hraw & _).
  split; [|split; [|split; [|split; [|split]]]].
  - apply (Hfenced "```json" "```" EmptyString nl "[1, 2]" nl EmptyString);
      first [reflexivity | discriminate | cbn; tauto].
  - apply (Hfenced "```json" "```" EmptyString EmptyString "[1, 2]"
             EmptyString EmptyString);
      first [reflexivity | discriminate | cbn; tauto].
  - apply (Hfenced "```" EmptyString nl EmptyString "[1, 2]" EmptyString nl);
      first [reflexivity | cbn; tauto | intros _ _; reflexivity].
  - apply (Hfenced EmptyString EmptyString EmptyString EmptyString "42"
             EmptyString EmptyString);
      first [reflexivity | discriminate | cbn; tauto].
  - exact (Hprose false "Here you are: " "1, 2" " Enjoy!"
             eq_refl eq_refl eq_refl (JArr [JNum 1; JNum 2]) eq_refl).
  - apply (Hraw "The answer is 42" JSON.SyntaxError); reflexivity.
Defined.

(** ** ScoringOrchestrator: one batch *)

Section BatchFacts.

Variable JSON_parse : string -> result json.
Variable generateContent : nat -> result value.
Variable fetch : nat -> result Response.
Variable onProgress : json -> option JsError.
Variable provider : AiProvider.

Let attempt := scoreAttempt JSON_parse generateContent fetch onProgress provider.
Let scoresAt := batchScores JSON_parse generateContent fetch provider.

Lemma processBatch_resolves w :
  fst (processBatch JSON_parse generateContent fetch onProgress provider w)
  = Ok tt.
Proof.
  unfold processBatch. now destruct (withRetry _ _ _ _ _) as [[[]|e] w'].
Qed.

(** Whatever reaches [onProgress] is the value of [batchScores] after one
    of the provider calls. *)
Lemma withRetry_reports retries delay w :
  forall v,
    In v (progress (snd (withRetry sleep attempt retries delay w))) ->
    In v (progress w) \/ exists n, scoresAt n = Ok v.
Proof.
  revert delay w. induction retries as [|retries IH]; intros delay w v;
    cbn [withRetry]; unfold attempt at 1, scoreAttempt; fold scoresAt;
    destruct (scoresAt (requests w)) as [scores|e] eqn:E;
    try destruct (onProgress scores) as [e|];
    try destruct (nonRetryable e);
    cbn [snd progress report request sleep];
    try (intros H; apply in_app_or in H as [H|[<-|[]]];
         [now left | right; now exists (requests w)]);
    try (now left).
  - intros H. apply IH in H as [H|H]; [|now right].
    cbn [progress sleep report request] in H.
    apply in_app_or in H as [H|[<-|[]]];
      [now left | right; now exists (requests w)].
  - intros H. apply IH in H as [H|H]; [|now right].
    cbn [progress sleep request] in H. now left.
Qed.





Lemma processBatch_reports :
  forall v,
    In v (progress (snd (processBatch JSON_parse generateContent fetch
                           onProgress provider world0))) ->
    exists n, scoresAt n = Ok v.
Proof.
  intros v. unfold processBatch.
  pose proof (withRetry_reports 3 1000%Z world0 v) as H. fold attempt.
  destruct (withRetry sleep attempt 3 1000%Z world0) as [[[]|e] w'];
    cbn [snd logError progress] in *; intros Hin;
    destruct (H Hin) as [[]|Hn]; exact Hn.
Qed.

End BatchFacts.

(** ** ScoringOrchestrator: the pool *)

Lemma topUp_spec queue active :
  let '(rest, started) := topUp queue active in
  queue = started ++ rest
  /\ (active <= MAX_CONCURRENT_REQUESTS ->
      active + List.length started <= MAX_CONCURRENT_REQUESTS)
  /\ (active < MAX_CONCURRENT_REQUESTS -> queue <> [] -> started <> []).
Proof.
  revert active. induction queue as [|batch queue IH]; intros active.
  - cbn [topUp app List.length]. repeat split; [lia | congruence].
  - cbn [topUp]. destruct (Nat.ltb_spec active MAX_CONCURRENT_REQUESTS) as [Hlt|Hge].
    + specialize (IH (S active)).
      destruct (topUp queue (S active)) as [rest started].
      destruct IH as (Hq & Hb & _). repeat split.
      * cbn [app]. now rewrite Hq.
      * intros _. cbn [List.length]. lia.
      * discriminate.
    + repeat split; cbn [List.length]; lia.
Qed.

Lemma mem_In k l : mem k l = true <-> In k l.
Proof.
  unfold mem. rewrite existsb_exists. split.
  - intros (x & Hin & Hx). apply Nat.eqb_eq in Hx. now subst.
  - intros Hin. exists k. split; [assumption | apply Nat.eqb_refl].
Qed.

Lemma del_In k l x : In x (del k l) <-> In x l /\ x <> k.
Proof.
  unfold del. rewrite filter_In, negb_true_iff, Nat.eqb_neq. tauto.
Qed.

Lemma del_length k l :
  In k l -> List.length (del k l) < List.length l.
Proof.
  induction l as [|x l IH]; intros Hin; [contradiction|].
  cbn [del filter List.length]. fold (del k l).
  destruct (Nat.eqb_spec x k) as [->|Hne]; cbn [negb List.length].
  - pose proof (filter_length_le (fun j => negb (j =? k)) l). unfold del. lia.
  - destruct Hin as [->|Hin]; [contradiction|]. specialize (IH Hin). lia.
Qed.

Lemma del_absent k l : ~ In k l -> del k l = l.
Proof.
  induction l as [|x l IH]; intros Hin; [reflexivity|].
  cbn [del filter]. fold (del k l).
  destruct (Nat.eqb_spec x k) as [->|Hne]; cbn [negb].
  - exfalso. apply Hin. now left.
  - f_equal. apply IH. intros H. apply Hin. now right.
Qed.

Lemma del_perm k l :
  NoDup l -> In k l -> Permutation l (k :: del k l).
Proof.
  induction l as [|x l IH]; intros Hnd Hin; [contradiction|].
  inversion Hnd as [|? ? Hx Hl]; subst.
  cbn [del filter]. fold (del k l).
  destruct (Nat.eqb_spec x k) as [->|Hne]; cbn [negb].
  - now rewrite del_absent.
  - destruct Hin as [->|Hin]; [contradiction|].
    rewrite perm_swap. constructor. now apply IH.
Qed.

Section PoolFacts.

Variable JSON_parse : string -> result json.
Variable provider : AiProvider.
Variable generateContentOf : nat -> nat -> result value.
Variable fetchOf : nat -> nat -> result Response.
Variable onProgress : json -> option JsError.
Variable posts : list WordPressPost.

Let Inv := invariant JSON_parse provider generateContentOf fetchOf onProgress posts.
Let stepOf := step JSON_parse provider generateContentOf fetchOf onProgress.
Let execOf := exec JSON_parse provider generateContentOf fetchOf onProgress.
Let workerOf := worker JSON_parse provider generateContentOf fetchOf onProgress.

Lemma worker_resolves k : fst (workerOf k) = Ok tt.
Proof. apply processBatch_resolves. Qed.

Lemma initial_invariant : Inv (initialPool posts).
Proof.
  constructor; cbn; try easy.
  - unfold MAX_CONCURRENT_REQUESTS. lia.
Qed.

Lemma mainStep_invariant s s' :
  Inv s -> mainStep s = Some s' -> Inv s'.
Proof.
  intros [Hb Hr Hbound Hseen Haw Hfin Hres]. unfold mainStep.
  destruct s as [q a r c m sn lg]. cbn [main queue activeWorkers running
    completed seen logged] in *.
  destruct m as [|[|]| |e]; try discriminate.
  - pose proof (topUp_spec q (List.length a)) as Htop.
    destruct q as [|b q].
    + destruct a as [|k a].
      * intros [= <-]. constructor; cbn; try easy.
      * cbn [topUp] in *. intros [= <-].
        rewrite app_nil_r in Hb.
        constructor; cbn; rewrite ?app_nil_r; try easy.
    + destruct (topUp (b :: q) (List.length a)) as [rest started].
      destruct Htop as (Hq & Hle & Hne). intros [= <-].
      constructor; cbn [main queue activeWorkers running completed seen logged].
      * rewrite <- app_assoc, <- Hq. exact Hb.
      * apply incl_app; [now apply incl_appl | now apply incl_appr, incl_refl].
      * rewrite length_app. now apply Hle.
      * exact Hseen.
      * destruct (a ++ started); [discriminate | intros _; discriminate].
      * destruct (a ++ started) eqn:E; [|discriminate]. intros _.
        apply app_eq_nil in E as [-> ->]. split; [|reflexivity].
        exfalso. apply Hne; [cbn; unfold MAX_CONCURRENT_REQUESTS; lia
                           | discriminate | reflexivity].
      * intros e. destruct (a ++ started); discriminate.
  - intros [= <-]. constructor; cbn; try easy.
Qed.

Lemma workerDone_invariant k s s' :
  Inv s -> workerDone JSON_parse provider generateContentOf fetchOf onProgress k s
           = Some s' -> Inv s'.
Proof.
  intros [Hb Hr Hbound Hseen Haw Hfin Hres]. unfold workerDone.
  destruct (mem k (running s)) eqn:Hk; [|discriminate].
  apply mem_In in Hk.
  pose proof (worker_resolves k) as Hok. unfold workerOf in Hok.
  destruct (worker _ _ _ _ _ k) as [outcome w] eqn:Ew.
  cbn [fst] in Hok. subst outcome.
  intros [= <-].
  constructor; cbn [main queue activeWorkers running completed seen logged].
  - assert (Hnd : NoDup (running s)).
    { pose proof (Permutation_NoDup (Permutation_sym Hb) (seq_NoDup _ _)) as Hall.
      apply NoDup_app_remove_l in Hall. now apply NoDup_app_remove_r in Hall. }
    rewrite <- Hb, <- app_assoc. apply Permutation_app_head.
    cbn [app]. rewrite (del_perm k (running s) Hnd Hk) at 2. reflexivity.
  - intros x Hx. apply del_In in Hx as [Hx _]. now apply Hr.
  - exact Hbound.
  - rewrite flat_map_app, Hseen. cbn [flat_map]. unfold reported at 3.
    now rewrite Ew, app_nil_r.
  - exact Haw.
  - exact Hfin.
  - exact Hres.
Qed.

Lemma workerSettled_invariant k s s' :
  Inv s -> workerSettled k s = Some s' -> Inv s'.
Proof.
  intros [Hb Hr Hbound Hseen Haw Hfin Hres]. unfold workerSettled.
  destruct (mem k (activeWorkers s) && negb (mem k (running s))) eqn:Hk;
    [|discriminate].
  apply andb_prop in Hk as [Hact Hrun].
  apply mem_In in Hact. apply negb_true_iff in Hrun.
  assert (Hnot : ~ In k (running s)).
  { intros H. apply mem_In in H. congruence. }
  intros [= <-].
  constructor; cbn [main queue activeWorkers running completed seen logged].
  - exact Hb.
  - intros x Hx. apply del_In. split; [now apply Hr|]. now intros ->.
  - pose proof (del_length k _ Hact). lia.
  - exact Hseen.
  - destruct (main s) as [|[|]| |]; discriminate.
  - destruct (main s) as [|[|]| |] eqn:Hm; try discriminate.
    intros _. destruct (Hfin eq_refl) as [_ Hnil].
    rewrite Hnil in Hact. contradiction.
  - intros e. specialize (Hres e). destruct (main s) as [|[|]| |]; congruence.
Qed.

Lemma step_invariant e s s' : Inv s -> stepOf e s = Some s' -> Inv s'.
Proof.
  destruct e as [|k|k]; cbn [stepOf step].
  - apply mainStep_invariant.
  - apply workerDone_invariant.
  - apply workerSettled_invariant.
Qed.

Lemma exec_invariant events s s' :
  Inv s -> execOf events s = Some s' -> Inv s'.
Proof.
  revert s. induction events as [|e events IH]; intros s Hs; cbn [execOf exec].
  - now intros [= <-].
  - destruct (step _ _ _ _ _ e s) as [s1|] eqn:E; [|discriminate].
    apply IH. now apply (step_invariant e s).
Qed.

Lemma reachable_invariant s :
  reachable JSON_parse provider generateContentOf fetchOf onProgress posts s ->
  Inv s.
Proof.
  intros [events H]. exact (exec_invariant events _ _ initial_invariant H).
Qed.

End PoolFacts.

Section PoolRuns.

Variable JSON_parse : string -> result json.
Variable provider : AiProvider.
Variable generateContentOf : nat -> nat -> result value.
Variable fetchOf : nat -> nat -> result Response.
Variable onProgress : json -> option JsError.
Variable posts : list WordPressPost.

Let Inv := invariant JSON_parse provider generateContentOf fetchOf onProgress posts.
Let stepOf := step JSON_parse provider generateContentOf fetchOf onProgress.
Let execOf := exec JSON_parse provider generateContentOf fetchOf onProgress.






End PoolRuns.

Lemma finished_complete
    (JSON_parse : string -> result json) (provider : AiProvider)
    (generateContentOf : nat -> nat -> result value)
    (fetchOf : nat -> nat -> result Response)
    (onProgress : json -> option JsError) (posts : list WordPressPost) s :
  invariant JSON_parse provider generateContentOf fetchOf onProgress posts s ->
  main s = Finished ->
  queue s = [] /\ activeWorkers s = [] /\ running s = []
  /\ Permutation (completed s) (seq 0 (List.length (postBatches posts))).
Proof.
  intros [Hb Hr _ _ _ Hfin _] Hm.
  destruct (Hfin Hm) as [Hq Ha]. rewrite Ha in Hr. rewrite Hq in Hb.
  destruct (running s) as [|k r]; [|destruct (Hr k (or_introl eq_refl))].
  cbn [app] in Hb. rewrite app_nil_r in Hb. now repeat split.
Qed.

(** ** ScoringOrchestrator: the properties of a run *)






(** ** ScoringOrchestrator: the records reported *)

Lemma batchScores_source
    (JSON_parse : string -> result json)
    (generateContent : nat -> result value) (fetch : nat -> result Response)
    (provider : AiProvider) (n : nat) (scores : json) :
  batchScores JSON_parse generateContent fetch provider n = Ok scores ->
  exists raw parsed posts,
    parseJsonResponseAny JSON_parse raw = Ok parsed
    /\ getProp (Some parsed) "posts" = Ok posts
    /\ scores = orEmpty posts.
Proof.
  unfold batchScores.
  assert (Hend : forall raw,
            (parsed <- parseJsonResponseAny JSON_parse raw ;;
             posts <- getProp (Some parsed) "posts" ;; Ok (orEmpty posts))
            = Ok scores ->
            exists raw parsed posts,
              parseJsonResponseAny JSON_parse raw = Ok parsed
              /\ getProp (Some parsed) "posts" = Ok posts
              /\ scores = orEmpty posts).
  { intros raw H.
    destruct (parseJsonResponseAny JSON_parse raw) as [parsed|] eqn:E1;
      [|discriminate].
    cbn [bind] in H.
    destruct (getProp (Some parsed) "posts") as [posts|] eqn:E2; [|discriminate].
    cbn [bind] in H. injection H as <-. now exists raw, parsed, posts. }
  destruct provider.
  - destruct (generateContent n) as [text|]; [|discriminate]. apply Hend.
  - destruct (fetch n) as [response|]; [|discriminate]. cbn [bind].
    destruct (negb (ok response)); [discriminate|].
    destruct (JSON_parse (resp_body response)) as [data|]; [|discriminate].
    cbn [bind]. destruct (rawContent OpenAI data) as [raw|]; [|discriminate].
    apply Hend.
  - destruct (fetch n) as [response|]; [|discriminate]. cbn [bind].
    destruct (negb (ok response)); [discriminate|].
    destruct (JSON_parse (resp_body response)) as [data|]; [|discriminate].
    cbn [bind]. destruct (rawContent Anthropic data) as [raw|]; [|discriminate].
    apply Hend.
  - destruct (fetch n) as [response|]; [|discriminate]. cbn [bind].
    destruct (negb (ok response)); [discriminate|].
    destruct (JSON_parse (resp_body response)) as [data|]; [|discriminate].
    cbn [bind]. destruct (rawContent OpenRouter data) as [raw|]; [|discriminate].
    apply Hend.
Qed.

(** C5 does not hold as stated: the provider answers the batch of posts
    1, 2, 3 with a record for post 999, and that record is what
    [onProgress] gets. *)
Lemma getOpportunityScores_stray_record :
  let posts := [post 1; post 2; post 3] in
  let final :=
    runInOrder JSON.parse Gemini strayProvider offline quiet 20
      (initialPool posts) in
  postBatches posts = [posts]
  /\ main final = Finished
  /\ seen final = [strayRecords]
  /\ recordIds strayRecords = [Some (JNum 999)]
  /\ ~ In 999%Z (map id posts).
Proof.
  repeat split; try (vm_compute; reflexivity).
  vm_compute. intros [H|[H|[H|[]]]]; discriminate H.
Qed.

(** C5 (amended). Every value [getOpportunityScores] passes to
    [onProgress] is, unchanged, the [posts] member of the structure parsed
    from an answer of the provider to a batch that has completed (the empty
    list when that member is missing or falsy): the records and their ids
    are the provider's, and are not compared with the posts of the
    batch. *)
Theorem getOpportunityScores_reports
    (JSON_parse : string -> result json) (provider : AiProvider)
    (generateContentOf : nat -> nat -> result value)
    (fetchOf : nat -> nat -> result Response)
    (onProgress : json -> option JsError) (posts : list WordPressPost)
    (s : Pool) (scores : json) :
  reachable JSON_parse provider generateContentOf fetchOf onProgress posts s ->
  In scores (seen s) ->
  exists k n raw parsed members,
    In k (completed s)
    /\ batchScores JSON_parse (generateContentOf k) (fetchOf k) provider n
       = Ok scores
    /\ parseJsonResponseAny JSON_parse raw = Ok parsed
    /\ getProp (Some parsed) "posts" = Ok members
    /\ scores = orEmpty members.
Proof.
  intros Hs Hin.
  destruct (reachable_invariant _ _ _ _ _ _ s Hs) as [_ _ _ Hseen _ _ _].
  rewrite Hseen in Hin. apply in_flat_map in Hin as (k & Hk & Hin).
  apply processBatch_reports in Hin as [n Hn].
  destruct (batchScores_source _ _ _ _ _ _ Hn) as (raw & parsed & members & H).
  now exists k, n, raw, parsed, members.
Qed.

Lemma getOpportunityScores_reports_witness :
  exists k n raw parsed members,
    In k [0]
    /\ batchScores JSON.parse (strayProvider k) (offline k) Gemini n
       = Ok strayRecords
    /\ parseJsonResponseAny JSON.parse raw = Ok parsed
    /\ getProp (Some parsed) "posts" = Ok members
    /\ strayRecords = orEmpty members.
Proof.
  apply (getOpportunityScores_reports JSON.parse Gemini strayProvider offline
           quiet [post 1; post 2; post 3]
           {| queue := []; activeWorkers := []; running := []; completed := [0];
              main := Finished; seen := [strayRecords]; logged := 0 |}
           strayRecords).
  - exists [MainStep; WorkerDone 0; WorkerSettled 0; MainStep; MainStep].
    vm_compute. reflexivity.
  - now left.
Defined.

(** ** Key validation *)

Lemma withRetry_fails {W T : Type} (zzz : Z -> W -> W)
    (fn : W -> result T * W) retries delay w :
  (forall w0, exists e w1, fn w0 = (Throw e, w1)) ->
  exists e w', withRetry zzz fn retries delay w = (Throw e, w').
Proof.
  intros Hfail. revert delay w.
  induction retries as [|retries IH]; intros delay w;
    destruct (Hfail w) as (e & w1 & H); cbn [withRetry]; rewrite H.
  - now exists e, w1.
  - destruct (nonRetryable e); [now exists e, w1 | apply IH].
Qed.

(** C9. [validateApiKey] always resolves to a boolean.  With a key given
    and a provider that answers every call with status 401 (as a response
    to [fetch], or as the error the SDK raises), it resolves to [false]
    after exactly one call and no back-off; when every call fails in the
    transport it still resolves to [false]; without a key it resolves to
    [false] without calling the provider. *)
Theorem validateApiKey_boolean
    (generateContent : nat -> result value) (fetch : nat -> result Response)
    (provider : AiProvider) (apiKey : string) (w : World) :
  (exists valid w',
      validateApiKey generateContent fetch provider apiKey w = (Ok valid, w'))
  /\ (apiKey <> EmptyString -> provider <> Gemini ->
      (forall n, exists body,
          fetch n = Ok {| resp_status := 401; resp_body := body |}) ->
      validateApiKey generateContent fetch provider apiKey w
      = (Ok false, request w))
  /\ (apiKey <> EmptyString -> provider = Gemini ->
      (forall n, exists e, generateContent n = Throw e /\ status e = Some 401%Z) ->
      validateApiKey generateContent fetch provider apiKey w
      = (Ok false, logError (request w)))
  /\ (apiKey <> EmptyString ->
      (forall n, exists e, generateContent n = Throw e) ->
      (forall n, exists e, fetch n = Throw e) ->
      fst (validateApiKey generateContent fetch provider apiKey w) = Ok false)
  /\ (apiKey = EmptyString ->
      validateApiKey generateContent fetch provider apiKey w = (Ok false, w)).
Proof.
  split; [|split; [|split; [|split]]].
  - unfold validateApiKey. destruct (negb (Js.nonempty apiKey)); [now eexists _, _|].
    destruct (withRetry _ _ _ _ _) as [[valid|e] w']; now eexists _, _.
  - intros Hkey Hprov H401. unfold validateApiKey.
    destruct apiKey; [contradiction|]. cbn [Js.nonempty negb].
    destruct (H401 (requests w)) as [body Hn].
    erewrite withRetry_ok; [reflexivity|].
    unfold validateRequest. destruct provider; try contradiction;
      now rewrite Hn.
  - intros Hkey -> H401. unfold validateApiKey.
    destruct apiKey; [contradiction|]. cbn [Js.nonempty negb].
    destruct (H401 (requests w)) as (e & Hn & Hst).
    erewrite withRetry_fatal; [reflexivity | |].
    + unfold validateRequest. now rewrite Hn.
    + unfold nonRetryable. now rewrite Hst.
  - intros Hkey Hgen Hfetch. unfold validateApiKey.
    destruct apiKey; [contradiction|]. cbn [Js.nonempty negb].
    destruct (withRetry_fails sleep (validateRequest generateContent fetch provider)
                3 1000%Z w) as (e & w' & H).
    + intros w0. unfold validateRequest.
      destruct provider;
        [destruct (Hgen (requests w0)) as [e He] |
         destruct (Hfetch (requests w0)) as [e He] ..];
        rewrite He; now eexists _, _.
    + now rewrite H.
  - intros ->. reflexivity.
Qed.

Lemma validateApiKey_boolean_witness :
  validateApiKey sdk401 fetch401 OpenAI "sk-test" world0
  = (Ok false, {| requests := 1; delays := []; progress := []; errorsLogged := 0 |})
  /\ validateApiKey sdk401 fetch401 Gemini "test-key" world0
     = (Ok false, {| requests := 1; delays := []; progress := []; errorsLogged := 1 |})
  /\ fst (validateApiKey sdk401 (offline 0) OpenRouter "sk-test" world0) = Ok false.
Proof.
  split; [|split].
  - apply (validateApiKey_boolean sdk401 fetch401 OpenAI "sk-test" world0);
      [discriminate | discriminate |].
    intros n. now exists "{}".
  - apply (validateApiKey_boolean sdk401 fetch401 Gemini "test-key" world0);
      [discriminate | reflexivity |].
    intros n. now exists unauthorized.
  - apply (validateApiKey_boolean sdk401 (offline 0) OpenRouter "sk-test" world0);
      [discriminate | |]; intros n; eexists; reflexivity.
Defined.

(** * Further properties *)

(** ** RetryExecutor, for any number of retries *)

Lemma withRetry_scripted_step {T} (script : nat -> result T) retries delay w :
  retryableFailure (script (invoked w)) ->
  withRetry pause (scripted script) (S retries) delay w
  = withRetry pause (scripted script) retries (delay * 2)%Z
      {| invoked := S (invoked w); waited := waited w ++ [delay] |}.
Proof.
  intros (e & He & Hr).
  rewrite (withRetry_again pause (scripted script) retries delay w e
             {| invoked := S (invoked w); waited := waited w |});
    [reflexivity | unfold scripted; now rewrite He | exact Hr].
Qed.

Lemma withRetry_scripted_stop {T} (script : nat -> result T) retries delay w :
  decisive (script (invoked w)) ->
  withRetry pause (scripted script) retries delay w
  = (script (invoked w), {| invoked := S (invoked w); waited := waited w |}).
Proof.
  intros H. destruct (script (invoked w)) as [v|e] eqn:E; cbn [decisive] in H.
  - apply withRetry_ok. unfold scripted. now rewrite E.
  - apply withRetry_fatal; [unfold scripted; now rewrite E | exact H].
Qed.

Lemma withRetry_scripted_from {T} (script : nat -> result T) k :
  forall retries delay w,
    k <= retries ->
    (forall n, n < k -> retryableFailure (script (invoked w + n))) ->
    decisive (script (invoked w + k)) ->
    withRetry pause (scripted script) retries delay w
    = (script (invoked w + k),
       {| invoked := S (invoked w + k); waited := waited w ++ backoff delay k |}).
Proof.
  induction k as [|k IH]; intros retries delay w Hk Hfail Hstop.
  - rewrite Nat.add_0_r in *. cbn [backoff]. rewrite app_nil_r.
    now apply withRetry_scripted_stop.
  - destruct retries as [|retries]; [lia|].
    rewrite withRetry_scripted_step
      by (specialize (Hfail 0 ltac:(lia)); now rewrite Nat.add_0_r in Hfail).
    rewrite IH; cbn [invoked waited].
    + rewrite <- Nat.add_succ_comm. cbn [backoff].
      now rewrite <- app_assoc.
    + lia.
    + intros n Hn. specialize (Hfail (S n) ltac:(lia)).
      now rewrite <- Nat.add_succ_comm in Hfail.
    + now rewrite <- Nat.add_succ_comm in Hstop.
Qed.

(** X1. Whatever the number of retries: if the first [k] invocations
    (with [k] at most [retries]) fail with retryable errors and the next one
    succeeds or fails with a non-retryable error, [withRetry] ends with the
    outcome of that invocation, after exactly [k + 1] invocations and the
    waits [delay], [2 delay], ..., [2^(k-1) delay].  An error is
    non-retryable when its [status] is 401 or 400 or its message contains
    [API key]; every other error is retryable, also one whose message
    mentions 401. *)
Theorem withRetry_decided {T : Type} (script : nat -> result T)
    (retries k : nat) (delay : Z) :
  k <= retries ->
  (forall n, n < k -> retryableFailure (script n)) ->
  decisive (script k) ->
  withRetry pause (scripted script) retries delay calls0
  = (script k, {| invoked := S k; waited := backoff delay k |}).
Proof.
  intros Hk Hfail Hstop.
  exact (withRetry_scripted_from script k retries delay calls0 Hk Hfail Hstop).
Qed.

Lemma withRetry_decided_witness :
  withRetry pause (scripted flaky) 5 250%Z calls0
  = (Ok 7, {| invoked := 3; waited := [250; 500]%Z |}).
Proof.
  apply (withRetry_decided flaky 5 2 250%Z).
  - lia.
  - intros n Hn. destruct n as [|[|n]]; [| |lia]; eexists; split; reflexivity.
  - exact I.
Defined.

Lemma withRetry_scripted_exhausted {T} (script : nat -> result T) retries :
  forall delay w,
    (forall n, n <= retries -> retryableFailure (script (invoked w + n))) ->
    withRetry pause (scripted script) retries delay w
    = (script (invoked w + retries),
       {| invoked := S (invoked w + retries);
          waited := waited w ++ backoff delay retries |}).
Proof.
  induction retries as [|retries IH]; intros delay w Hfail.
  - destruct (Hfail 0 (Nat.le_refl 0)) as (e & He & _).
    rewrite Nat.add_0_r in *. cbn [backoff]. rewrite app_nil_r.
    rewrite He. apply withRetry_exhausted. unfold scripted. now rewrite He.
  - rewrite withRetry_scripted_step
      by (specialize (Hfail 0 ltac:(lia)); now rewrite Nat.add_0_r in Hfail).
    rewrite IH; cbn [invoked waited].
    + rewrite <- Nat.add_succ_comm. cbn [backoff]. now rewrite <- app_assoc.
    + intros n Hn. specialize (Hfail (S n) ltac:(lia)).
      now rewrite <- Nat.add_succ_comm in Hfail.
Qed.

(** X2. If every invocation fails with a retryable error, [withRetry]
    invokes the operation exactly [retries + 1] times, waits [delay],
    [2 delay], ..., [2^(retries-1) delay] in between, and re-raises the
    error of the last invocation. *)
Theorem withRetry_gives_up {T : Type} (script : nat -> result T)
    (retries : nat) (delay : Z) :
  (forall n, n <= retries -> retryableFailure (script n)) ->
  withRetry pause (scripted script) retries delay calls0
  = (script retries,
     {| invoked := S retries; waited := backoff delay retries |}).
Proof.
  intros Hfail.
  exact (withRetry_scripted_exhausted script retries delay calls0 Hfail).
Qed.

Lemma withRetry_gives_up_witness :
  withRetry pause (scripted timeoutAt) 3 1000%Z calls0
  = (timeoutAt 3, {| invoked := 4; waited := [1000; 2000; 4000]%Z |}).
Proof.
  apply (withRetry_gives_up timeoutAt 3 1000%Z).
  intros n Hn. eexists. split; [reflexivity|].
  destruct n as [|[|[|[|n]]]]; [reflexivity ..|lia].
Defined.

Section RetryTrace.

Context {W T : Type} (zzz : Z -> W -> W) (fn : W -> result T * W).
Variables (calls : W -> nat) (waits : W -> list Z).

Hypothesis fn_calls : forall w, calls (snd (fn w)) = S (calls w).
Hypothesis fn_waits : forall w, waits (snd (fn w)) = waits w.
Hypothesis zzz_calls : forall d w, calls (zzz d w) = calls w.
Hypothesis zzz_waits : forall d w, waits (zzz d w) = waits w ++ [d].

Lemma withRetry_trace retries delay w :
  exists k, k <= retries
    /\ calls (snd (withRetry zzz fn retries delay w)) = calls w + S k
    /\ waits (snd (withRetry zzz fn retries delay w)) = waits w ++ backoff delay k.
Proof.
  revert delay w. induction retries as [|retries IH]; intros delay w;
    cbn [withRetry]; pose proof (fn_calls w) as Hc; pose proof (fn_waits w) as Hw;
    destruct (fn w) as [[v|e] w1]; cbn [snd] in *.
  - exists 0. cbn [backoff]. rewrite app_nil_r. repeat split; [lia | lia | assumption].
  - exists 0. cbn [backoff]. rewrite app_nil_r. repeat split; [lia | lia | assumption].
  - exists 0. cbn [backoff]. rewrite app_nil_r. repeat split; [lia | lia | assumption].
  - destruct (nonRetryable e).
    + exists 0. cbn [backoff snd]. rewrite app_nil_r.
      repeat split; [lia | lia | assumption].
    + destruct (IH (delay * 2)%Z (zzz delay w1)) as (k & Hk & Hcalls & Hwaits).
      exists (S k). rewrite Hcalls, Hwaits, zzz_calls, zzz_waits, Hc, Hw.
      cbn [backoff]. rewrite <- app_assoc. repeat split; [lia | lia].
Qed.

End RetryTrace.

Lemma scoreAttempt_counts JSON_parse generateContent fetch onProgress provider w :
  requests (snd (scoreAttempt JSON_parse generateContent fetch onProgress provider w))
  = S (requests w)
  /\ delays (snd (scoreAttempt JSON_parse generateContent fetch onProgress provider w))
     = delays w.
Proof.
  unfold scoreAttempt. destruct (batchScores _ _ _ _ _) as [scores|e];
    [destruct (onProgress scores)|]; now split.
Qed.

Lemma validateRequest_counts generateContent fetch provider w :
  requests (snd (validateRequest generateContent fetch provider w)) = S (requests w)
  /\ delays (snd (validateRequest generateContent fetch provider w)) = delays w.
Proof.
  unfold validateRequest.
  destruct provider;
    [destruct (generateContent _) | destruct (fetch _) ..]; now split.
Qed.

(** X3. Whatever the provider answers and whatever the callback does, the
    task of a batch sends at least 1 and at most 4 requests, and the waits
    between them are 1000, 2000, 4000 ms, as many as there were retries;
    the same holds for the validation of a key that is not empty. *)
Theorem provider_calls_bounded
    (JSON_parse : string -> result json)
    (generateContent : nat -> result value) (fetch : nat -> result Response)
    (onProgress : json -> option JsError) (provider : AiProvider)
    (apiKey : string) (w : World) :
  (exists k, k <= 3
     /\ requests (snd (processBatch JSON_parse generateContent fetch onProgress
                         provider w)) = requests w + S k
     /\ delays (snd (processBatch JSON_parse generateContent fetch onProgress
                       provider w)) = delays w ++ backoff 1000 k)
  /\ (apiKey <> EmptyString ->
      exists k, k <= 3
        /\ requests (snd (validateApiKey generateContent fetch provider apiKey w))
           = requests w + S k
        /\ delays (snd (validateApiKey generateContent fetch provider apiKey w))
           = delays w ++ backoff 1000 k).
Proof.
  split.
  - destruct (withRetry_trace sleep
                (scoreAttempt JSON_parse generateContent fetch onProgress provider)
                requests delays
                (fun w => proj1 (scoreAttempt_counts _ _ _ _ _ w))
                (fun w => proj2 (scoreAttempt_counts _ _ _ _ _ w))
                (fun d w => eq_refl) (fun d w => eq_refl) 3 1000%Z w)
      as (k & Hk & Hc & Hw).
    exists k. unfold processBatch.
    destruct (withRetry _ _ _ _ _) as [[[]|e] w']; cbn [snd] in *; now repeat split.
  - intros Hkey.
    destruct (withRetry_trace sleep
                (validateRequest generateContent fetch provider)
                requests delays
                (fun w => proj1 (validateRequest_counts _ _ _ w))
                (fun w => proj2 (validateRequest_counts _ _ _ w))
                (fun d w => eq_refl) (fun d w => eq_refl) 3 1000%Z w)
      as (k & Hk & Hc & Hw).
    exists k. unfold validateApiKey.
    destruct apiKey; [contradiction|]. cbn [Js.nonempty negb].
    destruct (withRetry _ _ _ _ _) as [[valid|e] w']; cbn [snd] in *;
      now repeat split.
Qed.

Lemma provider_calls_bounded_witness :
  exists k, k <= 3
    /\ requests (snd (validateApiKey sdk401 (offline 0) OpenAI "sk-test" world0))
       = 0 + S k
    /\ delays (snd (validateApiKey sdk401 (offline 0) OpenAI "sk-test" world0))
       = [] ++ backoff 1000 k.
Proof.
  apply (provider_calls_bounded JSON.parse sdk401 (offline 0) quiet OpenAI
           "sk-test" world0).
  discriminate.
Defined.

(** ** HTTP errors in the scoring calls *)

Lemma includes_first_char c pat s :
  Js.includes (String c EmptyString) s = false ->
  Js.includes (String c pat) s = false.
Proof.
  induction s as [|a s IH]; intros H; [reflexivity|].
  cbn [Js.includes Js.startsWith] in *.
  apply orb_false_elim in H as [Ha Hs]. rewrite andb_true_r in Ha.
  now rewrite Ha, (IH Hs).
Qed.

Lemma string_of_uint_digits d :
  Js.includes "A" (NilEmpty.string_of_uint d) = false.
Proof.
  induction d; cbn [NilEmpty.string_of_uint]; [reflexivity | ..];
    cbn [Js.includes Js.startsWith]; rewrite IHd; reflexivity.
Qed.

Lemma numberToString_digits n : Js.includes "A" (numberToString n) = false.
Proof.
  unfold numberToString. destruct (Z.to_int n) as [d|d];
    cbn [NilEmpty.string_of_int].
  - apply string_of_uint_digits.
  - cbn [Js.includes Js.startsWith]. rewrite string_of_uint_digits. reflexivity.
Qed.

(** The error raised for a response that is not [ok] has no status and no
    "API key" in its message: it is retried, whatever the status. *)
Lemma apiError_retryable n :
  nonRetryable (mkError ("API Error: " +++ numberToString n)) = false.
Proof.
  unfold nonRetryable, mkError. cbn [status message orb].
  cbn [String.append Js.includes Js.startsWith Ascii.eqb Bool.eqb andb orb].
  apply includes_first_char, numberToString_digits.
Qed.

Lemma scoreAttempt_http_error JSON_parse generateContent fetch onProgress
    provider w r :
  provider <> Gemini -> fetch (requests w) = Ok r -> ok r = false ->
  scoreAttempt JSON_parse generateContent fetch onProgress provider w
  = (Throw (mkError ("API Error: " +++ numberToString (resp_status r))), request w).
Proof.
  intros Hp Hf Hok. unfold scoreAttempt, batchScores.
  destruct provider; try contradiction; rewrite Hf; cbn [bind]; now rewrite Hok.
Qed.

(** X4. For the providers reached through [fetch]: when every response has
    a status outside 200..299 (401 and 400 included), the task of a batch
    sends 4 requests, waiting 1000, 2000 and 4000 ms, then is logged once
    and reports nothing.  The error it raises for such a response carries
    no status, so that [withRetry] does not tell an authentication failure
    from a transient one. *)
Theorem processBatch_retries_http_errors
    (JSON_parse : string -> result json)
    (generateContent : nat -> result value) (fetch : nat -> result Response)
    (onProgress : json -> option JsError) (provider : AiProvider) :
  provider <> Gemini ->
  (forall n, exists r, fetch n = Ok r /\ ok r = false) ->
  processBatch JSON_parse generateContent fetch onProgress provider world0
  = (Ok tt, {| requests := 4; delays := [1000; 2000; 4000]%Z;
               progress := []; errorsLogged := 1 |}).
Proof.
  intros Hp Hfetch. unfold processBatch.
  assert (Hstep : forall w, exists n,
             scoreAttempt JSON_parse generateContent fetch onProgress provider w
             = (Throw (mkError ("API Error: " +++ numberToString n)), request w)).
  { intros w. destruct (Hfetch (requests w)) as (r & Hr & Hok).
    exists (resp_status r). now apply scoreAttempt_http_error. }
  destruct (Hstep world0) as [n0 H0].
  rewrite (withRetry_again sleep _ 2 _ _ _ _ H0 (apiError_retryable n0)).
  destruct (Hstep (sleep 1000 (request world0))) as [n1 H1].
  rewrite (withRetry_again sleep _ 1 _ _ _ _ H1 (apiError_retryable n1)).
  destruct (Hstep (sleep (1000 * 2) (request (sleep 1000 (request world0)))))
    as [n2 H2].
  rewrite (withRetry_again sleep _ 0 _ _ _ _ H2 (apiError_retryable n2)).
  match goal with
  | |- context [withRetry sleep _ 0 ?d ?w] => destruct (Hstep w) as [n3 H3];
      rewrite (withRetry_exhausted sleep _ d w _ _ H3)
  end.
  reflexivity.
Qed.

Lemma processBatch_retries_http_errors_witness :
  processBatch JSON.parse sdk401 fetch401 quiet OpenAI world0
  = (Ok tt, {| requests := 4; delays := [1000; 2000; 4000]%Z;
               progress := []; errorsLogged := 1 |}).
Proof.
  apply processBatch_retries_http_errors; [discriminate|].
  intros n. eexists. split; reflexivity.
Defined.

(** ** Stage 0 of the normalizer *)

Lemma removeAll_fence_head s :
  Js.startsWith "``" s = false ->
  Js.startsWith "``" (Js.removeAll "```" s) = false.
Proof.
  intros H. destruct s as [|a s]; [reflexivity|].
  destruct (Ascii.eqb "`" a) eqn:Ea.
  - apply Ascii.eqb_eq in Ea. subst a.
    destruct s as [|b s]; [reflexivity|].
    destruct (Ascii.eqb "`" b) eqn:Eb.
    + apply Ascii.eqb_eq in Eb. subst b. discriminate H.
    + rewrite removeAll_keep
        by (cbn [Js.startsWith]; rewrite Eb; reflexivity).
      rewrite (removeAll_keep "```" b s)
        by (cbn [Js.startsWith]; rewrite Eb; reflexivity).
      cbn [Js.startsWith]. rewrite Eb. reflexivity.
  - rewrite removeAll_keep by (cbn [Js.startsWith]; rewrite Ea; reflexivity).
    cbn [Js.startsWith]. rewrite Ea. reflexivity.
Qed.

Lemma removeAll_fence_bounded n :
  forall s, String.length s <= n ->
            Js.includes "```" (Js.removeAll "```" s) = false.
Proof.
  induction n as [|n IH]; intros s Hlen.
  - destruct s; [reflexivity | cbn in Hlen; lia].
  - destruct s as [|c s]; [reflexivity|].
    destruct (Js.startsWith "```" (String c s)) eqn:E.
    + apply startsWith_split in E.
      pose proof (f_equal String.length E) as HL. rewrite length_append in HL.
      rewrite E.
      rewrite (removeAll_match "```" ltac:(discriminate) fence_solid).
      apply IH. cbn [String.length] in HL, Hlen |- *. lia.
    + rewrite (removeAll_keep _ _ _ E).
      cbn [Js.includes]. rewrite (IH s) by (cbn in Hlen; lia).
      rewrite orb_false_r.
      destruct (Ascii.eqb "`" c) eqn:Ec;
        [|cbn [Js.startsWith]; now rewrite Ec].
      apply Ascii.eqb_eq in Ec. subst c.
      change (Js.startsWith "```" (String "`" (Js.removeAll "```" s)))
        with (Js.startsWith "``" (Js.removeAll "```" s)).
      apply removeAll_fence_head. exact E.
Qed.

Lemma removeAll_fence_gone s : Js.includes "```" (Js.removeAll "```" s) = false.
Proof. now apply (removeAll_fence_bounded (String.length s)). Qed.

Lemma startsWith_append_mono pat a b :
  Js.startsWith pat a = true -> Js.startsWith pat (a +++ b) = true.
Proof.
  revert a. induction pat as [|p pat IH]; intros a H; [reflexivity|].
  destruct a as [|c a]; [discriminate|]. cbn [String.append Js.startsWith] in *.
  apply andb_prop in H as [-> H]. now apply IH.
Qed.

Lemma includes_prefix pat a b :
  Js.includes pat (a +++ b) = false -> Js.includes pat a = false.
Proof.
  induction a as [|c a IH]; intros H.
  - cbn [String.append] in H. apply includes_startsWith in H.
    destruct pat; [destruct b; discriminate H | reflexivity].
  - cbn [String.append] in H.
    pose proof (includes_startsWith _ _ H) as Hs. apply includes_cons in H.
    cbn [Js.includes]. rewrite (IH H), orb_false_r.
    destruct (Js.startsWith pat (String c a)) eqn:E; [|reflexivity].
    apply (startsWith_append_mono _ _ b) in E. cbn [String.append] in E.
    congruence.
Qed.

Lemma trimEnd_split s :
  exists ws, Js.all_space ws = true /\ s = Js.trimEnd s +++ ws.
Proof.
  induction s as [|c s IH]; [now exists EmptyString|].
  cbn [Js.trimEnd]. destruct (Js.all_space (String c s)) eqn:E.
  - now exists (String c s).
  - destruct IH as (ws & Hws & Hs). exists ws. split; [assumption|].
    cbn [String.append]. now rewrite <- Hs.
Qed.

Lemma includes_trim pat s :
  Js.includes pat s = false -> Js.includes pat (Js.trim s) = false.
Proof.
  intros H. unfold Js.trim. apply includes_trimStart in H.
  destruct (trimEnd_split (Js.trimStart s)) as (ws & _ & Hs).
  rewrite Hs in H. now apply includes_prefix in H.
Qed.

Lemma trimEnd_idem s : Js.trimEnd (Js.trimEnd s) = Js.trimEnd s.
Proof.
  induction s as [|c s IH]; [reflexivity|].
  cbn [Js.trimEnd]. destruct (Js.all_space (String c s)) eqn:E; [reflexivity|].
  cbn [Js.trimEnd].
  assert (Js.all_space (String c (Js.trimEnd s)) = false) as ->.
  { destruct (trimEnd_split s) as (ws & Hws & Hs).
    rewrite Hs in E. change (String c (Js.trimEnd s +++ ws))
      with (String c (Js.trimEnd s) +++ ws) in E.
    rewrite all_space_append, Hws, andb_true_r in E. exact E. }
  now rewrite IH.
Qed.

Lemma trimStart_trimEnd s :
  Js.trimStart s = s -> Js.trimStart (Js.trimEnd s) = Js.trimEnd s.
Proof.
  destruct s as [|c s]; [reflexivity|].
  cbn [Js.trimStart Js.trimEnd]. destruct (Js.is_space c) eqn:Ec.
  - intros H. exfalso.
    assert (Hlen : String.length (Js.trimStart s) <= String.length s).
    { clear. induction s as [|a s IH]; [reflexivity|].
      cbn [Js.trimStart]. destruct (Js.is_space a); cbn [String.length]; lia. }
    rewrite H in Hlen. cbn [String.length] in Hlen. lia.
  - intros _. cbn [Js.all_space]. rewrite Ec. cbn [andb Js.trimStart].
    now rewrite Ec.
Qed.

Lemma trim_idem s : Js.trim (Js.trim s) = Js.trim s.
Proof.
  unfold Js.trim.
  rewrite (trimStart_trimEnd (Js.trimStart s) (trimStart_idem s)).
  apply trimEnd_idem.
Qed.

(** X5. The text that the first stage of [parseJsonResponse] hands to
    [JSON.parse] never contains a fence marker and has no white space at
    its ends; cleaning it again changes nothing; and a text without fence
    marker is only trimmed. *)
Theorem cleaned_normal_form (text : string) :
  Js.includes "```" (cleaned text) = false
  /\ Js.trim (cleaned text) = cleaned text
  /\ cleaned (cleaned text) = cleaned text
  /\ (Js.includes "```" text = false -> cleaned text = Js.trim text).
Proof.
  assert (Hfree : Js.includes "```" (cleaned text) = false)
    by (unfold cleaned; apply includes_trim, removeAll_fence_gone).
  assert (Hnone : forall t, Js.includes "```" t = false -> cleaned t = Js.trim t).
  { intros t Ht. unfold cleaned.
    rewrite (removeAll_none "```json" t) by now apply includes_fence_json.
    now rewrite (removeAll_none "```" t). }
  split; [exact Hfree|]. split; [unfold cleaned; apply trim_idem|].
  split; [|apply Hnone].
  rewrite (Hnone _ Hfree). unfold cleaned. apply trim_idem.
Qed.

Lemma cleaned_normal_form_witness :
  cleaned ("  [1, 2]" +++ nl) = Js.trim ("  [1, 2]" +++ nl).
Proof.
  apply (cleaned_normal_form ("  [1, 2]" +++ nl)). reflexivity.
Defined.

(** ** Stage 2 of the normalizer *)

Lemma uptoLast_none c s :
  uptoLast c s = None -> Js.includes (String c EmptyString) s = false.
Proof.
  induction s as [|a s IH]; [reflexivity|].
  cbn [uptoLast]. destruct (uptoLast c s); [discriminate|].
  destruct (Ascii.eqb a c) eqn:E; [discriminate|]. intros _.
  cbn [Js.includes Js.startsWith]. rewrite Ascii.eqb_sym, E. now rewrite IH.
Qed.

Lemma uptoLast_sound c s m :
  uptoLast c s = Some m ->
  exists mid post,
    m = mid +++ String c EmptyString /\ s = m +++ post
    /\ Js.includes (String c EmptyString) post = false.
Proof.
  revert m. induction s as [|a s IH]; intros m; [discriminate|].
  cbn [uptoLast]. destruct (uptoLast c s) as [m'|] eqn:E.
  - intros [= <-]. destruct (IH m' eq_refl) as (mid & post & Hm & Hs & Hpost).
    exists (String a mid), post. cbn [String.append]. now rewrite <- Hm, <- Hs.
  - destruct (Ascii.eqb a c) eqn:Ea; [|discriminate]. intros [= <-].
    apply Ascii.eqb_eq in Ea. subst a.
    exists EmptyString, s. repeat split. now apply uptoLast_none.
Qed.

(** X6. Whenever the second stage of [parseJsonResponse] finds a span, the
    span is a piece of the raw text that opens with a brace and ends with
    a brace, or opens with a square bracket and ends with a square
    bracket, and no closing bracket of that kind occurs after it: the
    match is greedy. *)
Theorem jsonMatch_sound (text m : string) :
  jsonMatch text = Some m ->
  exists (isObject : bool) pre mid post,
    let opening := if isObject then "{"%char else "["%char in
    let closing := if isObject then "}"%char else "]"%char in
    m = String opening (mid +++ String closing EmptyString)
    /\ text = pre +++ m +++ post
    /\ Js.includes (String closing EmptyString) post = false.
Proof.
  revert m. induction text as [|c text IH]; intros m; [discriminate|].
  cbn [jsonMatch].
  destruct (Ascii.eqb c "{") eqn:Eo.
  - apply Ascii.eqb_eq in Eo. subst c.
    destruct (uptoLast "}" text) as [m'|] eqn:E.
    + intros [= <-]. destruct (uptoLast_sound _ _ _ E) as (mid & post & Hm & Ht & Hp).
      exists true, EmptyString, mid, post. cbn [String.append].
      now rewrite <- Hm, <- Ht.
    + intros H. destruct (IH m H) as (b & pre & mid & post & Hm & Ht & Hp).
      exists b, (String "{" pre), mid, post. cbn [String.append].
      now rewrite <- Ht.
  - destruct (Ascii.eqb c "[") eqn:Ea.
    + apply Ascii.eqb_eq in Ea. subst c.
      destruct (uptoLast "]" text) as [m'|] eqn:E.
      * intros [= <-].
        destruct (uptoLast_sound _ _ _ E) as (mid & post & Hm & Ht & Hp).
        exists false, EmptyString, mid, post. cbn [String.append].
        now rewrite <- Hm, <- Ht.
      * intros H. destruct (IH m H) as (b & pre & mid & post & Hm & Ht & Hp).
        exists b, (String "[" pre), mid, post. cbn [String.append].
        now rewrite <- Ht.
    + intros H. destruct (IH m H) as (b & pre & mid & post & Hm & Ht & Hp).
      exists b, (String c pre), mid, post. cbn [String.append].
      now rewrite <- Ht.
Qed.

Lemma jsonMatch_sound_witness :
  exists (isObject : bool) pre mid post,
    "[1] and [2]"
    = String (if isObject then "{" else "[")
        (mid +++ String (if isObject then "}" else "]") EmptyString)
    /\ "See [1] and [2]." = pre +++ "[1] and [2]" +++ post
    /\ Js.includes (String (if isObject then "}" else "]") EmptyString) post
       = false.
Proof.
  apply (jsonMatch_sound "See [1] and [2]." "[1] and [2]"). reflexivity.
Defined.

(** ** StreamCleaner: what is kept *)

Lemma trimStart_suffix s : exists ws, s = ws +++ Js.trimStart s.
Proof.
  induction s as [|c s IH]; [now exists EmptyString|].
  cbn [Js.trimStart]. destruct (Js.is_space c).
  - destruct IH as [ws Hs]. exists (String c ws). cbn [String.append]. congruence.
  - now exists EmptyString.
Qed.

Lemma drop_suffix n s : exists u, s = u +++ Js.drop n s.
Proof.
  revert s. induction n as [|n IH]; intros s; [now exists EmptyString|].
  destruct s as [|c s]; [now exists EmptyString|].
  destruct (IH s) as [u Hu]. exists (String c u). cbn [Js.drop String.append].
  congruence.
Qed.

Lemma stripLeadingFence_suffix tag s :
  exists pre, s = pre +++ stripLeadingFence tag s.
Proof.
  unfold stripLeadingFence.
  destruct (startsWithCI ("```" +++ tag) (Js.trimStart s)); [|now exists EmptyString].
  destruct (trimStart_suffix s) as [w1 H1].
  destruct (drop_suffix (String.length ("```" +++ tag)) (Js.trimStart s)) as [u Hu].
  destruct (trimStart_suffix (Js.drop (String.length ("```" +++ tag)) (Js.trimStart s)))
    as [w2 H2].
  exists (w1 +++ u +++ w2). rewrite !append_assoc.
  now rewrite <- H2, <- Hu, <- H1.
Qed.

(** X7. [cleanStreamChunk] only cuts: whatever the flag, what it returns
    is a contiguous piece of the chunk, so that it never adds a character
    and never reorders the text. *)
Theorem cleanStreamChunk_piece (chunk : string) (isFirstChunk : bool) :
  exists pre post,
    chunk = pre +++ cleanStreamChunk chunk isFirstChunk +++ post.
Proof.
  unfold cleanStreamChunk.
  assert (Hlead : exists pre,
             chunk = pre +++ (if isFirstChunk
                              then stripLeadingFence "" (stripLeadingFence "html" chunk)
                              else chunk)).
  { destruct isFirstChunk; [|now exists EmptyString].
    destruct (stripLeadingFence_suffix "html" chunk) as [p1 H1].
    destruct (stripLeadingFence_suffix "" (stripLeadingFence "html" chunk))
      as [p2 H2].
    exists (p1 +++ p2). rewrite append_assoc. now rewrite <- H2. }
  destruct Hlead as [pre Hpre].
  set (clean := if isFirstChunk
                then stripLeadingFence "" (stripLeadingFence "html" chunk)
                else chunk) in *.
  destruct (stripTrailingFence_shape clean) as [H|(ws & _ & H)].
  - exists pre, EmptyString. now rewrite append_nil_r, H.
  - exists pre, ("```" +++ ws). now rewrite <- H.
Qed.

(** ** A stream wrapped in fences *)

Lemma geminiLoop_plain chunks :
  Forall (fun c => Js.includes "```" c = false) chunks ->
  fold_right String.append EmptyString (fst (geminiLoop chunks false))
  = fold_right String.append EmptyString chunks.
Proof.
  induction 1 as [|c chunks Hc _ IH]; [reflexivity|].
  cbn [geminiLoop]. unfold cleanStreamChunk.
  rewrite (stripTrailingFence_none _ Hc).
  destruct c as [|a c]; cbn [Js.nonempty]; [exact IH|].
  destruct (geminiLoop chunks false) as [more flag]. cbn [fst fold_right] in *.
  now rewrite IH.
Qed.

Lemma fold_append_app l1 l2 :
  fold_right String.append EmptyString (l1 ++ l2)
  = fold_right String.append EmptyString l1
    +++ fold_right String.append EmptyString l2.
Proof.
  induction l1 as [|s l1 IH]; [reflexivity|].
  cbn [app fold_right]. now rewrite IH, append_assoc.
Qed.

Lemma geminiLoop_app l1 l2 isFirst :
  fst (geminiLoop (l1 ++ l2) isFirst)
  = fst (geminiLoop l1 isFirst)
    ++ fst (geminiLoop l2 (snd (geminiLoop l1 isFirst))).
Proof.
  revert isFirst. induction l1 as [|c l1 IH]; intros isFirst; [reflexivity|].
  cbn [app geminiLoop].
  destruct (Js.nonempty (cleanStreamChunk c isFirst)).
  - specialize (IH false).
    destruct (geminiLoop (l1 ++ l2) false) as [m1 f1].
    destruct (geminiLoop l1 false) as [m2 f2]. cbn [fst snd app] in *.
    now rewrite IH.
  - apply IH.
Qed.

(** X8. A stream of the SDK whose first chunk opens with a fence tagged
    [html] (in any letter case) and whose last chunk closes with a fence,
    the text in between holding no fence marker: the chunks yielded, put
    end to end, are exactly the document between the fences. *)
Theorem geminiLoop_fenced (ws fence body : string) (middle : list string)
    (tail ws' : string) :
  Js.all_space ws = true -> Js.all_space ws' = true ->
  startsWithCI "```html" fence = true -> String.length fence = 7 ->
  body <> EmptyString -> Js.trimStart body = body ->
  Js.includes "```" body = false ->
  Forall (fun c => Js.includes "```" c = false) middle ->
  fold_right String.append EmptyString
    (fst (geminiLoop ((fence +++ ws +++ body) :: middle
                        ++ [tail +++ "```" +++ ws']) true))
  = body +++ fold_right String.append EmptyString middle +++ tail.
Proof.
  intros Hws Hws' Hfence Hlen Hbody Htrim Hfree Hmid.
  assert (Hfirst : cleanStreamChunk (fence +++ ws +++ body) true = body).
  { unfold cleanStreamChunk.
    change (fence +++ ws +++ body) with (EmptyString +++ fence +++ ws +++ body).
    rewrite (stripLeadingFence_found "html" EmptyString fence (ws +++ body)
               eq_refl Hfence Hlen).
    rewrite (trimStart_spaces _ _ Hws), Htrim.
    rewrite stripLeadingFence_none
      by (rewrite Htrim; now apply includes_startsWith).
    now apply stripTrailingFence_none. }
  cbn [geminiLoop]. rewrite Hfirst.
  destruct body as [|b body]; [contradiction|]. cbn [Js.nonempty].
  pose proof (geminiLoop_app middle [tail +++ "```" +++ ws'] false) as Happ.
  destruct (geminiLoop (middle ++ [tail +++ "```" +++ ws']) false) as [more flag].
  cbn [fst] in *. rewrite Happ. cbn [fold_right].
  rewrite fold_append_app, (geminiLoop_plain _ Hmid).
  assert (Hflag : snd (geminiLoop middle false) = false).
  { destruct (geminiLoop_flag middle false) as [_ ->].
    now destruct (fst (geminiLoop middle false)). }
  rewrite Hflag. cbn [geminiLoop]. unfold cleanStreamChunk.
  rewrite (stripTrailingFence_found tail ws' Hws').
  rewrite <- append_assoc. cbn [String.append]. f_equal.
  rewrite append_assoc. f_equal.
  destruct tail; cbn [Js.nonempty fst fold_right]; [reflexivity|].
  now rewrite append_nil_r.
Qed.

Lemma geminiLoop_fenced_witness :
  fold_right String.append EmptyString
    (fst (geminiLoop (("```html" +++ nl +++ "<!DOCTYPE")
                        :: [" html><html>"] ++ [("</html>" +++ nl) +++ "```" +++ ""])
            true))
  = "<!DOCTYPE" +++ fold_right String.append EmptyString [" html><html>"]
      +++ ("</html>" +++ nl).
Proof.
  apply (geminiLoop_fenced nl "```html" "<!DOCTYPE" [" html><html>"]
           ("</html>" +++ nl) EmptyString);
    try reflexivity; try discriminate.
  repeat constructor.
Defined.

(** ** No posts to score *)

(** X9. With an empty collection of posts [getOpportunityScores] resolves
    at its first step: no task is started, the provider is not called and
    [onProgress] is never invoked, in any execution. *)
Theorem getOpportunityScores_nothing_to_do
    (JSON_parse : string -> result json) (provider : AiProvider)
    (generateContentOf : nat -> nat -> result value)
    (fetchOf : nat -> nat -> result Response)
    (onProgress : json -> option JsError) :
  (forall s,
     reachable JSON_parse provider generateContentOf fetchOf onProgress [] s ->
     s = initialPool [] \/ s = idlePool)
  /\ getOpportunityScores JSON_parse provider generateContentOf fetchOf
       onProgress [] idlePool.
Proof.
  split.
  - intros s [events H]. destruct events as [|e events].
    + left. now injection H as <-.
    + right. cbn [exec] in H.
      destruct e as [|k|k]; cbn in H; try discriminate.
      destruct events as [|e events]; [now injection H as <-|].
      destruct e as [|k|k]; discriminate H.
  - split; [|reflexivity]. now exists [MainStep].
Qed.

(** ** Idea generation *)

Lemma orEmpty_truthy v : truthy (Some (orEmpty v)) = true.
Proof.
  unfold orEmpty. destruct v as [j|]; [|reflexivity].
  destruct (truthy (Some j)) eqn:E; [exact E | reflexivity].
Qed.

Lemma withRetry_result {W T : Type} (zzz : Z -> W -> W)
    (fn : W -> result T * W) (P : T -> Prop) :
  (forall w v, fst (fn w) = Ok v -> P v) ->
  forall retries delay w v,
    fst (withRetry zzz fn retries delay w) = Ok v -> P v.
Proof.
  intros Hfn. induction retries as [|retries IH]; intros delay w v;
    cbn [withRetry]; pose proof (Hfn w) as Hw;
    destruct (fn w) as [[v1|e] w1]; cbn [fst] in *.
  - intros [= <-]. now apply Hw.
  - discriminate.
  - intros [= <-]. now apply Hw.
  - destruct (nonRetryable e); [discriminate|]. apply IH.
Qed.

Lemma ideasAt_http_error JSON_parse generateContent fetch provider n r :
  provider <> Gemini -> fetch n = Ok r -> ok r = false ->
  ideasAt JSON_parse generateContent fetch provider n
  = Throw (mkError ("API Error: " +++ numberToString (resp_status r))).
Proof.
  intros Hp Hf Hok. unfold ideasAt.
  destruct provider; try contradiction; rewrite Hf; cbn [bind]; now rewrite Hok.
Qed.

(** X10. [generateToolIdeas] through [fetch]: a result is never
    [undefined], [null] or otherwise falsy (a missing [ideas] member gives
    the empty list); and when every response has a status outside 200..299,
    4 requests are sent, with waits of 1000, 2000 and 4000 ms, and the call
    rejects with the [API Error] of the last response.  Through the SDK the
    result is [parsed.ideas] as it is: [undefined] when the answer has no
    such member. *)
Theorem generateToolIdeas_result
    (JSON_parse : string -> result json)
    (generateContent : nat -> result value) (fetch : nat -> result Response)
    (provider : AiProvider) (w : World) :
  (provider <> Gemini ->
   forall ideas,
     fst (generateToolIdeas JSON_parse generateContent fetch provider w) = Ok ideas ->
     truthy ideas = true)
  /\ (provider <> Gemini ->
      (forall n, exists r, fetch n = Ok r /\ ok r = false) ->
      exists r, fetch (requests w + 3) = Ok r
        /\ generateToolIdeas JSON_parse generateContent fetch provider w
           = (Throw (mkError ("API Error: " +++ numberToString (resp_status r))),
              request (sleep 4000 (request (sleep 2000
                (request (sleep 1000 (request w))))))))
  /\ (provider = Gemini ->
      forall text parsed,
        generateContent (requests w) = Ok text ->
        parseJsonResponseAny JSON_parse text = Ok parsed ->
        getProp (Some parsed) "ideas" = Ok None ->
        generateToolIdeas JSON_parse generateContent fetch provider w
        = (Ok None, request w)).
Proof.
  split; [|split].
  - intros Hp ideas. unfold generateToolIdeas.
    apply (withRetry_result sleep _ (fun v => truthy v = true)).
    clear ideas. intros w0 v. unfold ideasAttempt, ideasAt. cbn [fst].
    destruct provider; try contradiction;
      (destruct (fetch (requests w0)) as [r|]; [|discriminate]; cbn [bind];
       destruct (negb (ok r)); [discriminate|];
       destruct (JSON_parse (resp_body r)) as [data|]; [|discriminate]; cbn [bind];
       destruct (rawContent _ data) as [raw|]; [|discriminate]; cbn [bind];
       destruct (parseJsonResponseAny JSON_parse raw) as [parsed|]; [|discriminate];
       cbn [bind];
       destruct (getProp (Some parsed) "ideas") as [x|]; [|discriminate];
       cbn [bind]; intros [= <-]; apply orEmpty_truthy).
  - intros Hp Hfetch. unfold generateToolIdeas.
    assert (Hstep : forall w0, exists r,
               fetch (requests w0) = Ok r
               /\ ideasAttempt JSON_parse generateContent fetch provider w0
                  = (Throw (mkError ("API Error: " +++ numberToString (resp_status r))),
                     request w0)).
    { intros w0. destruct (Hfetch (requests w0)) as (r & Hr & Hok).
      exists r. split; [assumption|]. unfold ideasAttempt.
      now rewrite (ideasAt_http_error _ _ _ _ _ r Hp Hr Hok). }
    destruct (Hstep w) as (r0 & _ & H0).
    rewrite (withRetry_again sleep _ 2 _ _ _ _ H0 (apiError_retryable _)).
    destruct (Hstep (sleep 1000 (request w))) as (r1 & _ & H1).
    rewrite (withRetry_again sleep _ 1 _ _ _ _ H1 (apiError_retryable _)).
    destruct (Hstep (sleep (1000 * 2) (request (sleep 1000 (request w)))))
      as (r2 & _ & H2).
    rewrite (withRetry_again sleep _ 0 _ _ _ _ H2 (apiError_retryable _)).
    match goal with
    | |- context [withRetry sleep _ 0 ?d ?w0] =>
        destruct (Hstep w0) as (r3 & Hr3 & H3);
        rewrite (withRetry_exhausted sleep _ d w0 _ _ H3)
    end.
    exists r3. split; [|reflexivity].
    cbn [requests sleep request] in Hr3.
    now replace (requests w + 3) with (S (S (S (requests w)))) by lia.
  - intros -> text parsed Ht Hp Hi. unfold generateToolIdeas.
    apply withRetry_ok. unfold ideasAttempt, ideasAt.
    rewrite Ht. cbn [bind]. rewrite Hp. cbn [bind]. now rewrite Hi.
Qed.

Lemma generateToolIdeas_result_witness :
  generateToolIdeas JSON.parse noIdeas noIdeasHttp Gemini world0
  = (Ok None, request world0)
  /\ truthy (Some (JArr [])) = true.
Proof.
  destruct (generateToolIdeas_result JSON.parse noIdeas noIdeasHttp Gemini world0)
    as (_ & _ & Hsdk).
  destruct (generateToolIdeas_result JSON.parse noIdeas noIdeasHttp OpenAI world0)
    as (Hfetch & _ & _).
  split.
  - apply (Hsdk eq_refl (Some (JStr "{}")) (JObj [])); reflexivity.
  - apply (Hfetch ltac:(discriminate) (Some (JArr []))). reflexivity.
Defined.

(** ** The text handed to the idea prompt *)

Lemma includes_char_cons c a s :
  Js.includes (String c "") (String a s)
  = Ascii.eqb c a || Js.includes (String c "") s.
Proof.
  cbn [Js.includes Js.startsWith]. now rewrite andb_true_r.
Qed.

Lemma stripTags_from_clean inTag s :
  Js.includes "<" (stripTags_from inTag s) = false.
Proof.
  revert inTag. induction s as [|c s IH]; intros inTag; [now destruct inTag|].
  cbn [stripTags_from]. destruct inTag; [apply IH|].
  destruct (Ascii.eqb c "<") eqn:E; [apply IH|].
  rewrite includes_char_cons, IH, orb_false_r.
  rewrite Ascii.eqb_sym. exact E.
Qed.

Lemma stripTags_plain s :
  Js.includes "<" s = false -> stripTags_from false s = s.
Proof.
  induction s as [|c s IH]; [reflexivity|].
  rewrite includes_char_cons. intros H. apply orb_false_elim in H as [Hc Hs].
  cbn [stripTags_from]. rewrite Ascii.eqb_sym, Hc. now rewrite IH.
Qed.

Lemma stripTags_unclosed s :
  Js.includes ">" s = false -> stripTags_from true s = "".
Proof.
  induction s as [|c s IH]; [reflexivity|].
  rewrite includes_char_cons. intros H. apply orb_false_elim in H as [Hc Hs].
  cbn [stripTags_from]. rewrite Ascii.eqb_sym, Hc. now apply IH.
Qed.

Lemma stripTags_from_app a s :
  Js.includes "<" a = false ->
  stripTags_from false (a +++ s) = a +++ stripTags_from false s.
Proof.
  induction a as [|c a IH]; [reflexivity|].
  rewrite includes_char_cons. intros H. apply orb_false_elim in H as [Hc Hs].
  cbn [String.append stripTags_from]. rewrite Ascii.eqb_sym, Hc. now rewrite IH.
Qed.

(** X11. The excerpt [generateToolIdeas] takes from a post: it holds no
    [<] and at most 3000 characters; content without [<] is only cut to
    length; a closed tag is removed with everything up to its [>]; and a
    [<] that no [>] follows removes the rest of the content with it. *)
Theorem cleanContent_spec (content : string) :
  Js.includes "<" (cleanContent content) = false
  /\ String.length (cleanContent content) <= 3000
  /\ (Js.includes "<" content = false ->
      cleanContent content = substring 0 3000 content)
  /\ (forall before tag rest,
        content = before +++ "<" +++ tag +++ ">" +++ rest ->
        Js.includes "<" before = false -> Js.includes ">" tag = false ->
        stripTags content = before +++ stripTags rest)
  /\ (forall before rest,
        content = before +++ "<" +++ rest ->
        Js.includes "<" before = false -> Js.includes ">" rest = false ->
        stripTags content = before).
Proof.
  unfold cleanContent, stripTags.
  split; [|split; [|split; [|split]]].
  - destruct (substring_prefix 3000 (stripTags_from false content)) as [_ E].
    apply (includes_prefix _ _ (Js.drop 3000 (stripTags_from false content))).
    rewrite <- E. apply stripTags_from_clean.
  - apply substring_prefix.
  - intros H. now rewrite stripTags_plain.
  - intros before tag rest -> Hb Ht.
    rewrite stripTags_from_app by assumption. f_equal.
    cbn [String.append stripTags_from Ascii.eqb Bool.eqb].
    clear Hb. induction tag as [|c tag IH]; [reflexivity|].
    rewrite includes_char_cons in Ht. apply orb_false_elim in Ht as [Hc Ht].
    cbn [String.append stripTags_from]. rewrite Ascii.eqb_sym, Hc.
    now apply IH.
  - intros before rest -> Hb Hr.
    rewrite stripTags_from_app by assumption.
    cbn [String.append stripTags_from Ascii.eqb Bool.eqb].
    rewrite stripTags_unclosed by assumption. apply append_nil_r.
Qed.

Lemma cleanContent_spec_witness :
  stripTags "<p>Rates <b>now</b></p> if a < b" = "Rates now if a "
  /\ cleanContent "plain" = "plain".
Proof.
  split.
  - destruct (cleanContent_spec "<p>Rates <b>now</b></p> if a < b")
      as (_ & _ & _ & Htag & _).
    rewrite (Htag "" "p" "Rates <b>now</b></p> if a < b" eq_refl eq_refl eq_refl).
    destruct (cleanContent_spec "Rates <b>now</b></p> if a < b")
      as (_ & _ & _ & Htag1 & _).
    rewrite (Htag1 "Rates " "b" "now</b></p> if a < b" eq_refl eq_refl eq_refl).
    destruct (cleanContent_spec "now</b></p> if a < b") as (_ & _ & _ & Htag2 & _).
    rewrite (Htag2 "now" "/b" "</p> if a < b" eq_refl eq_refl eq_refl).
    destruct (cleanContent_spec "</p> if a < b") as (_ & _ & _ & Htag3 & _).
    rewrite (Htag3 "" "/p" " if a < b" eq_refl eq_refl eq_refl).
    destruct (cleanContent_spec " if a < b") as (_ & _ & _ & _ & Hopen).
    now rewrite (Hopen " if a " " b" eq_refl eq_refl eq_refl).
  - destruct (cleanContent_spec "plain") as (_ & _ & Hplain & _).
    now rewrite (Hplain eq_refl).
Defined.

(** ** The generation dialog *)

Lemma dispatch_chunks chunks state :
  let final := Modal.dispatchAll (map Modal.GENERATE_SNIPPET_STREAM chunks) state in
  Modal.generatedSnippet final
  = Modal.generatedSnippet state +++ fold_right String.append "" chunks
  /\ (chunks <> [] -> Modal.editedSnippet final = Modal.generatedSnippet final)
  /\ (chunks = [] -> Modal.editedSnippet final = Modal.editedSnippet state)
  /\ Modal.status final = Modal.status state
  /\ Modal.error final = Modal.error state
  /\ Modal.toolIdeas final = Modal.toolIdeas state
  /\ Modal.selectedIdea final = Modal.selectedIdea state.
Proof.
  revert state. induction chunks as [|chunk chunks IH]; intros state.
  - cbn. rewrite append_nil_r. repeat split; congruence.
  - cbn [map Modal.dispatchAll fold_left fold_right].
    specialize (IH (Modal.modalReducer state (Modal.GENERATE_SNIPPET_STREAM chunk))).
    cbn zeta in IH. unfold Modal.dispatchAll in IH.
    destruct IH as (Hg & He & He0 & Hs & Herr & Hi & Hsel).
    cbn [Modal.modalReducer Modal.generatedSnippet Modal.editedSnippet
         Modal.status Modal.error Modal.toolIdeas Modal.selectedIdea] in *.
    rewrite append_assoc in Hg.
    split; [exact Hg|]. split.
    + intros _. destruct chunks as [|c cs]; [|apply He; discriminate].
      rewrite (He0 eq_refl). reflexivity.
    + split; [discriminate|]. now repeat split.
Qed.

(** X12. A generation run of the dialog.  Without a selected idea nothing
    is dispatched.  Otherwise, whatever the dialog showed before, after the
    run both the generated and the editable snippet are the concatenation
    of the chunks the stream yielded (what was received before a failure is
    kept), the status is idle when the stream ended normally and the error
    state with the message of the failure otherwise, and the ideas and the
    selection are untouched. *)
Theorem generateSnippet_dialog (state : Modal.ModalState) (stream : Stream) :
  (truthy (Modal.selectedIdea state) = false ->
   Modal.generateSnippet state stream = [])
  /\ (truthy (Modal.selectedIdea state) = true ->
      let final := Modal.dispatchAll (Modal.generateSnippet state stream) state in
      Modal.generatedSnippet final = fold_right String.append "" (yielded stream)
      /\ Modal.editedSnippet final = Modal.generatedSnippet final
      /\ Modal.toolIdeas final = Modal.toolIdeas state
      /\ Modal.selectedIdea final = Modal.selectedIdea state
      /\ match completion stream with
         | Ok _ => Modal.status final = Modal.Idle /\ Modal.error final = None
         | Throw e =>
             Modal.status final = Modal.Failed
             /\ Modal.error final
                = Some (messageOr e "Failed to generate snippet.")
         end).
Proof.
  unfold Modal.generateSnippet. split; intros ->; [reflexivity|].
  cbn [negb]. unfold Modal.dispatchAll.
  cbn [fold_left]. rewrite fold_left_app.
  pose proof (dispatch_chunks (yielded stream)
                (Modal.modalReducer state Modal.GENERATE_SNIPPET_START)) as H.
  cbn zeta in H. unfold Modal.dispatchAll in H.
  destruct H as (Hg & He & He0 & Hs & Herr & Hi & Hsel).
  set (mid := fold_left Modal.modalReducer _ _) in *.
  cbn [Modal.modalReducer Modal.generatedSnippet Modal.editedSnippet
       Modal.status Modal.error Modal.toolIdeas Modal.selectedIdea
       String.append] in Hg, He0, Hs, Herr, Hi, Hsel.
  assert (Hedit : Modal.editedSnippet mid = Modal.generatedSnippet mid).
  { destruct (yielded stream) as [|c cs] eqn:E; [|apply He; discriminate].
    rewrite (He0 eq_refl), Hg. reflexivity. }
  cbn zeta.
  destruct (completion stream) as [[]|e]; cbn [fold_left Modal.modalReducer
       Modal.generatedSnippet Modal.editedSnippet
       Modal.status Modal.error Modal.toolIdeas Modal.selectedIdea];
    repeat split; assumption.
Qed.

Lemma generateSnippet_dialog_witness :
  Modal.generatedSnippet
    (Modal.dispatchAll
       (Modal.generateSnippet chosen
          {| yielded := ["<div>"; "</div>"]; completion := Throw (mkError "Failed to fetch") |})
       chosen)
  = "<div></div>".
Proof.
  destruct (generateSnippet_dialog chosen
              {| yielded := ["<div>"; "</div>"]; completion := Throw (mkError "Failed to fetch") |})
    as [_ H].
  exact (proj1 (H eq_refl)).
Defined.

(** ** The code the dialog inserts *)

Lemma fence_nonempty : "```" <> "".
Proof. discriminate. Qed.

Lemma removeAllCI_keep a s :
  Js.startsWith "```" (String a s) = false ->
  removeAllCI "```html" (String a s) = String a (removeAllCI "```html" s).
Proof.
  intros H. unfold removeAllCI. cbn [removeAllCI_from].
  destruct (startsWithCI "```html" (String a s)) eqn:E; [|reflexivity].
  apply (startsWithCI_fence "html") in E. congruence.
Qed.

Lemma removeAllCI_none s :
  Js.includes "```" s = false -> removeAllCI "```html" s = s.
Proof.
  induction s as [|a s IH]; intros H; [reflexivity|].
  rewrite removeAllCI_keep by now apply includes_startsWith.
  f_equal. apply IH. now apply includes_cons in H.
Qed.

Lemma removeAllCI_before j c s :
  Js.includes "```" j = false -> Js.is_space c = true ->
  removeAllCI "```html" (j +++ String c s)
  = j +++ removeAllCI "```html" (String c s).
Proof.
  intros Hj Hc. induction j as [|a j IH]; [reflexivity|].
  cbn [String.append]. rewrite removeAllCI_keep.
  - f_equal. apply IH. now apply includes_cons in Hj.
  - change (String a (j +++ String c s)) with (String a j +++ String c s).
    rewrite (startsWith_before "```" (String a j) c s (fence_solid c Hc)).
    now apply includes_startsWith.
Qed.

Lemma removeAllCI_spaces ws s :
  Js.all_space ws = true ->
  removeAllCI "```html" (ws +++ s) = ws +++ removeAllCI "```html" s.
Proof.
  induction ws as [|c ws IH]; intros H; [reflexivity|].
  cbn [Js.all_space] in H. apply andb_prop in H as [Hc Hws].
  cbn [String.append].
  rewrite removeAllCI_keep
    by exact (startsWith_space "```" fence_nonempty fence_solid c _ Hc).
  now rewrite IH.
Qed.

Lemma removeAllCI_from_skip u s :
  removeAllCI_from "```html" (String.length u) (u +++ s)
  = removeAllCI "```html" s.
Proof.
  induction u as [|a u IH]; [reflexivity|].
  cbn [String.length String.append removeAllCI_from]. exact IH.
Qed.

(** X13. The code [handleInsert] hands to the insertion never holds a
    [```] marker, wherever the marker stood in the editor; a text without
    the marker is inserted as it is; and of a text wrapped in a [```html]
    fence (in any letter case) and a closing fence on a line of its own,
    exactly the wrapped text with its final white space is inserted. *)
Theorem cleanCode_spec (editedSnippet : string) :
  Js.includes "```" (Modal.cleanCode editedSnippet) = false
  /\ (Js.includes "```" editedSnippet = false ->
      Modal.cleanCode editedSnippet = editedSnippet)
  /\ (forall fence body ws,
        editedSnippet = fence +++ body +++ ws +++ "```" ->
        startsWithCI "```html" fence = true -> String.length fence = 7 ->
        Js.includes "```" body = false ->
        Js.all_space ws = true -> ws <> "" ->
        Modal.cleanCode editedSnippet = body +++ ws).
Proof.
  unfold Modal.cleanCode. split; [apply removeAll_fence_gone|]. split.
  - intros H. rewrite (removeAllCI_none _ H). now apply removeAll_none.
  - intros fence body ws -> Hf Hlen Hb Hws Hne.
    assert (Hci : removeAllCI "```html" (fence +++ body +++ ws +++ "```")
                  = body +++ ws +++ "```").
    { destruct fence as [|a fence]; [discriminate Hlen|].
      unfold removeAllCI. cbn [String.append removeAllCI_from].
      change (String a (fence +++ body +++ ws +++ "```"))
        with (String a fence +++ body +++ ws +++ "```").
      rewrite (startsWithCI_append _ _ _ Hf).
      cbn [String.length] in Hlen. injection Hlen as Hlen.
      change (String.length "```html" - 1) with 6. rewrite <- Hlen.
      rewrite removeAllCI_from_skip.
      destruct ws as [|c ws]; [contradiction|].
      cbn [Js.all_space] in Hws. apply andb_prop in Hws as [Hc Hws'].
      cbn [String.append].
      rewrite (removeAllCI_before _ _ _ Hb Hc).
      change (String c (ws +++ "```")) with (String c ws +++ "```").
      rewrite removeAllCI_spaces; [reflexivity|].
      cbn [Js.all_space]. now rewrite Hc, Hws'. }
    rewrite Hci.
    rewrite (removeAll_before_spaces "```" fence_solid _ _ _ Hb Hws Hne).
    rewrite (removeAll_spaces "```" fence_nonempty fence_solid _ _ Hws).
    change (Js.removeAll "```" "```") with "". now rewrite append_nil_r.
Qed.

Lemma cleanCode_spec_witness :
  Modal.cleanCode ("```HTML" +++ nl +++ "<div>`a`</div>" +++ nl +++ "```")
  = nl +++ "<div>`a`</div>" +++ nl
  /\ Modal.cleanCode "<b>plain</b>" = "<b>plain</b>".
Proof.
  split.
  - destruct (cleanCode_spec
                ("```HTML" +++ nl +++ "<div>`a`</div>" +++ nl +++ "```"))
      as (_ & _ & H).
    exact (H "```HTML" (nl +++ "<div>`a`</div>") nl eq_refl eq_refl eq_refl
             eq_refl eq_refl ltac:(discriminate)).
  - destruct (cleanCode_spec "<b>plain</b>") as (_ & H & _).
    exact (H eq_refl).
Defined.

(** ** The score cache *)

Section CacheFacts.

Import opportunityScoreCache.

Lemma filter_length_all {A} (f : A -> bool) l :
  length (filter f l) <= length l
  /\ (length (filter f l) = length l -> filter f l = l).
Proof.
  induction l as [|a l [IHle IHeq]]; [split; [apply Nat.le_refl | reflexivity]|].
  cbn [filter]. destruct (f a); cbn [length]; split; try lia.
  intros H. f_equal. apply IHeq. lia.
Qed.

Lemma filter_idem {A} (f : A -> bool) l : filter f (filter f l) = filter f l.
Proof.
  induction l as [|a l IH]; [reflexivity|].
  cbn [filter]. destruct (f a) eqn:E; [|exact IH].
  cbn [filter]. now rewrite E, IH.
Qed.

Lemma get_filter f k e cache :
  get k cache = Some e -> f (k, e) = true -> get k (filter f cache) = Some e.
Proof.
  induction cache as [|[k' v] rest IH]; [discriminate|].
  cbn [get filter]. destruct (k =? k')%Z eqn:E.
  - apply Z.eqb_eq in E. subst k'. intros [= ->] Hf.
    rewrite Hf. cbn [get]. now rewrite Z.eqb_refl.
  - intros Hg Hf. destruct (f (k', v)); [cbn [get]; rewrite E|]; now apply IH.
Qed.

Lemma get_set_same k v cache : get k (set k v cache) = Some v.
Proof.
  induction cache as [|[k' v'] rest IH]; cbn [set get].
  - now rewrite Z.eqb_refl.
  - destruct (k =? k')%Z eqn:E; cbn [get]; [now rewrite Z.eqb_refl|].
    now rewrite E.
Qed.

Lemma get_set_other k j v cache :
  j <> k -> get j (set k v cache) = get j cache.
Proof.
  intros Hjk. induction cache as [|[k' v'] rest IH]; cbn [set get].
  - now apply Z.eqb_neq in Hjk as ->.
  - destruct (k =? k')%Z eqn:E; cbn [get].
    + apply Z.eqb_eq in E. subst k'. now apply Z.eqb_neq in Hjk as ->.
    + now rewrite IH.
Qed.

Lemma addScore_other now cache r j :
  (Partial.id r = Some j -> complete r = false) ->
  get j (addScore now cache r) = get j cache.
Proof.
  unfold addScore, complete. intros H.
  destruct (Partial.id r) as [i|]; [|reflexivity].
  destruct (Partial.defined (Partial.opportunityScore r)); [|reflexivity].
  destruct (Partial.defined (Partial.opportunityRationale r)); [|reflexivity].
  apply get_set_other. intros ->. now specialize (H eq_refl).
Qed.

Lemma addScores_other now batch cache j :
  (forall r, In r batch -> Partial.id r = Some j -> complete r = false) ->
  get j (fold_left (addScore now) batch cache) = get j cache.
Proof.
  revert cache. induction batch as [|r batch IH]; intros cache H; [reflexivity|].
  cbn [fold_left]. rewrite IH.
  - apply addScore_other. apply H. now left.
  - intros r' Hin. apply H. now right.
Qed.

End CacheFacts.

Section ScoreCache.

Import opportunityScoreCache.

Variable quota : ScoreCache -> bool.

(** X14. [getScores] returns only entries of the stored cache that are
    younger than seven days, and, unless the store refuses a write, all of
    them; a text that cannot be parsed is removed from the store and gives
    the empty cache; afterwards the store holds exactly what was returned
    (or nothing, when that is empty), so that reading again at the same
    time returns the same and writes nothing. *)
Theorem getScores_spec (now : Z) (item : Item) :
  let '(validScores, item') := getScores quota now item in
  (forall k e, In (k, e) validScores ->
     (now - timestamp e < 7 * 24 * 60 * 60 * 1000)%Z
     /\ exists cachedScores, item = Saved cachedScores /\ In (k, e) cachedScores)
  /\ (forall cachedScores k e,
        item = Saved cachedScores -> (forall c, quota c = true) ->
        get k cachedScores = Some e ->
        (now - timestamp e < 7 * 24 * 60 * 60 * 1000)%Z ->
        get k validScores = Some e)
  /\ (item = Unreadable -> validScores = [] /\ item' = Absent)
  /\ (item' = Saved validScores \/ (item' = Absent /\ validScores = []))
  /\ getScores quota now item' = (validScores, item').
Proof.
  destruct item as [| |cachedScores]; cbn [getScores].
  - repeat split; try contradiction; try discriminate. now right.
  - repeat split; try contradiction; try discriminate. now right.
  - destruct (filter_length_all (fresh now) cachedScores) as [Hle Hall].
    assert (Hsound : forall k e, In (k, e) (filter (fresh now) cachedScores) ->
              (now - timestamp e < 7 * 24 * 60 * 60 * 1000)%Z
              /\ exists c, Saved cachedScores = Saved c /\ In (k, e) c).
    { intros k e Hin. apply filter_In in Hin as [Hin Hf]. split.
      - unfold fresh in Hf. now apply Z.ltb_lt in Hf.
      - now exists cachedScores. }
    assert (Hcomplete : forall c k e,
              Saved cachedScores = Saved c ->
              get k c = Some e ->
              (now - timestamp e < 7 * 24 * 60 * 60 * 1000)%Z ->
              get k (filter (fresh now) cachedScores) = Some e).
    { intros c k e [= <-] Hg Hf. apply get_filter; [assumption|].
      unfold fresh. now apply Z.ltb_lt. }
    assert (Hagain : getScores quota now (Saved (filter (fresh now) cachedScores))
                     = (filter (fresh now) cachedScores,
                        Saved (filter (fresh now) cachedScores))).
    { cbn [getScores]. rewrite filter_idem. now rewrite Nat.ltb_irrefl. }
    destruct (length (filter (fresh now) cachedScores) <? length cachedScores)
      eqn:E.
    + destruct (quota (filter (fresh now) cachedScores)) eqn:Q.
      * split; [exact Hsound|]. split; [intros c k e Hc _; now apply Hcomplete|].
        split; [discriminate|]. split; [now left | exact Hagain].
      * split; [intros k e []|]. split.
        { intros c k e _ Hq. now rewrite Hq in Q. }
        split; [discriminate|]. split; [now right | reflexivity].
    + split; [exact Hsound|]. split; [intros c k e Hc _; now apply Hcomplete|].
      split; [discriminate|]. split.
      * left. apply Nat.ltb_ge in E. f_equal. symmetry. apply Hall. lia.
      * cbn [getScores]. now rewrite E.
Qed.

(** X15. What [addScores] stores can be read back: when the store accepts
    every write, a record of the batch that carries an id, a score and a
    rationale is returned by [getScores] under its id for the next seven
    days, stamped with the time of the call - the last such record when
    several share the id; and an id for which the batch has no such record
    keeps the entry that [getScores] gave before. *)
Theorem addScores_round_trip (readAt now later : Z) (item : Item)
    (before after : list Partial.WordPressPost) (record : Partial.WordPressPost)
    (i : Z) (score : Q) (rationale : string) :
  (forall c, quota c = true) ->
  Partial.id record = Some i ->
  Partial.opportunityScore record = Some (Some score) ->
  Partial.opportunityRationale record = Some (Some rationale) ->
  (forall r, In r after -> Partial.id r = Some i -> complete r = false) ->
  (later - now < 7 * 24 * 60 * 60 * 1000)%Z ->
  let stored := addScores quota readAt now (before ++ record :: after) item in
  get i (fst (getScores quota later stored))
  = Some {| id := i; opportunityScore := score;
            opportunityRationale := rationale; timestamp := now |}
  /\ forall j,
       (forall r, In r (before ++ record :: after) ->
                  Partial.id r = Some j -> complete r = false) ->
       exists updated,
         stored = Saved updated
         /\ get j updated = get j (fst (getScores quota readAt item)).
Proof.
  intros Hquota Hid Hscore Hwhy Hafter Hlater. cbn zeta. unfold addScores.
  destruct (getScores quota readAt item) as [existingScores item'].
  rewrite Hquota. cbn [fst]. split.
  - set (updated := fold_left (addScore now) (before ++ record :: after)
                      existingScores).
    assert (Hget : get i updated
                   = Some {| id := i; opportunityScore := score;
                             opportunityRationale := rationale;
                             timestamp := now |}).
    { unfold updated. rewrite fold_left_app. cbn [fold_left].
      rewrite (addScores_other now after _ i Hafter).
      unfold addScore. rewrite Hid, Hscore, Hwhy. cbn [Partial.defined].
      apply get_set_same. }
    assert (Hfresh : get i (filter (fresh later) updated)
                     = Some {| id := i; opportunityScore := score;
                               opportunityRationale := rationale;
                               timestamp := now |}).
    { apply get_filter; [exact Hget|]. unfold fresh. cbn [snd timestamp].
      now apply Z.ltb_lt. }
    cbn [getScores]. rewrite Hquota.
    destruct (length (filter (fresh later) updated) <? length updated);
      exact Hfresh.
  - intros j Hj. eexists. split; [reflexivity|].
    now apply addScores_other.
Qed.

End ScoreCache.

Lemma getScores_spec_witness :
  let '(validScores, item') :=
    opportunityScoreCache.getScores unlimited 1000000000
      (opportunityScoreCache.Saved
         [(7%Z, {| opportunityScoreCache.id := 7;
                   opportunityScoreCache.opportunityScore := inject_Z 80;
                   opportunityScoreCache.opportunityRationale := "old";
                   opportunityScoreCache.timestamp := 1 |})]) in
  validScores = [] /\ item' = opportunityScoreCache.Saved [].
Proof.
  destruct (getScores_spec unlimited 1000000000
                (opportunityScoreCache.Saved
                   [(7%Z, {| opportunityScoreCache.id := 7;
                             opportunityScoreCache.opportunityScore := inject_Z 80;
                             opportunityScoreCache.opportunityRationale := "old";
                             opportunityScoreCache.timestamp := 1 |})]))
    as (_ & _ & _ & [H|[H _]] & _).
  - split; [reflexivity | exact H].
  - discriminate H.
Defined.

Lemma addScores_round_trip_witness :
  opportunityScoreCache.get 7
    (fst (opportunityScoreCache.getScores unlimited 5000
            (opportunityScoreCache.addScores unlimited 1000 1001
               ([scored 7 (inject_Z 10) "first"]
                  ++ scored 7 (inject_Z 90) "second" :: [unexplained 7 (inject_Z 50)])
               opportunityScoreCache.Absent)))
  = Some {| opportunityScoreCache.id := 7;
            opportunityScoreCache.opportunityScore := inject_Z 90;
            opportunityScoreCache.opportunityRationale := "second";
            opportunityScoreCache.timestamp := 1001 |}.
Proof.
  refine (proj1 (addScores_round_trip unlimited 1000 1001 5000
                   opportunityScoreCache.Absent
                   [scored 7 (inject_Z 10) "first"] [unexplained 7 (inject_Z 50)]
                   (scored 7 (inject_Z 90) "second") 7 (inject_Z 90) "second"
                   (fun _ => eq_refl) eq_refl eq_refl eq_refl _ _)).
  - intros r [<-|[]] _. reflexivity.
  - reflexivity.
Defined.

(** ** The reducer of the application *)

Lemma appReducer_consistent quota now state action item :
  App.settingsOnly action -> App.consistent state ->
  App.consistent (fst (App.appReducer quota now state action item)).
Proof.
  unfold App.consistent. intros Hset Hc.
  destruct action; cbn [App.appReducer];
    try (cbn; first [exact Hc | reflexivity]).
  - destruct payload; cbn in Hset. destruct Hset as (-> & -> & -> & ->).
    cbn. exact Hc.
  - destruct (opportunityScoreCache.getScores quota now item). reflexivity.
Qed.

(** X16. The list of posts the application shows is always the filtered
    and sorted view of its posts for the current query and order: this
    holds in the initial state and after every sequence of actions, an
    [INITIALIZE_STATE] being allowed to bring settings only (as the one the
    application dispatches, which brings keys, site and theme). *)
Theorem appReducer_view (quota : opportunityScoreCache.ScoreCache -> bool)
    (events : list (Z * App.Action)) (item : opportunityScoreCache.Item) :
  Forall (fun event => App.settingsOnly (snd event)) events ->
  let state := fst (dispatchAll quota events App.initialState item) in
  App.filteredPosts state
  = App.filterAndSortPosts (App.posts state) (App.postSearchQuery state)
      (App.postSortOrder state).
Proof.
  intros Hev. cbn zeta.
  assert (H : forall state it, App.consistent state ->
            App.consistent (fst (dispatchAll quota events state it))).
  { induction Hev as [|[now action] rest Ha _ IH]; intros state it Hc;
      [exact Hc|].
    cbn [dispatchAll].
    pose proof (appReducer_consistent quota now state action it Ha Hc) as Hs.
    destruct (App.appReducer quota now state action it) as [state' it'].
    now apply IH. }
  apply (H App.initialState item). reflexivity.
Qed.

Lemma appReducer_view_witness :
  map App.id
    (App.filteredPosts
       (fst (dispatchAll unlimited
               [(1000%Z, App.CONNECT_SUCCESS site
                           [fetched 1 "Mortgage rates"; fetched 2 "Garden";
                            fetched 3 "Rates explained"] 1);
                (2000%Z, App.SCORE_POSTS_PROGRESS_UPDATE
                           [scored 3 (inject_Z 90) "tool"; scored 1 (inject_Z 20) "x"]);
                (3000%Z, App.SCORE_POSTS_SUCCESS);
                (4000%Z, App.SET_POST_SEARCH_QUERY "RATES")]
               App.initialState opportunityScoreCache.Absent)))
  = [3%Z; 1%Z].
Proof.
  rewrite (appReducer_view unlimited
             [(1000%Z, App.CONNECT_SUCCESS site
                         [fetched 1 "Mortgage rates"; fetched 2 "Garden";
                          fetched 3 "Rates explained"] 1);
              (2000%Z, App.SCORE_POSTS_PROGRESS_UPDATE
                         [scored 3 (inject_Z 90) "tool"; scored 1 (inject_Z 20) "x"]);
              (3000%Z, App.SCORE_POSTS_SUCCESS);
              (4000%Z, App.SET_POST_SEARCH_QUERY "RATES")]
             opportunityScoreCache.Absent).
  - vm_compute. reflexivity.
  - repeat constructor.
Defined.

Lemma find_first {A} (f : A -> bool) before r after :
  (forall x, In x before -> f x = false) -> f r = true ->
  find f (before ++ r :: after) = Some r.
Proof.
  intros Hb Hr. induction before as [|x before IH]; cbn [app find].
  - now rewrite Hr.
  - rewrite (Hb x (or_introl eq_refl)). apply IH.
    intros y Hy. apply Hb. now right.
Qed.

Lemma find_absent {A} (f : A -> bool) l :
  (forall x, In x l -> f x = false) -> find f l = None.
Proof.
  intros H. induction l as [|x l IH]; [reflexivity|].
  cbn [find]. rewrite (H x (or_introl eq_refl)). apply IH.
  intros y Hy. apply H. now right.
Qed.

Lemma hasId_spec k s : App.hasId k s = true <-> Partial.id s = Some k.
Proof.
  unfold App.hasId. destruct (Partial.id s) as [i|]; [|split; discriminate].
  rewrite Z.eqb_eq. split; [now intros -> | now intros [= ->]].
Qed.

Lemma hasId_false k s : Partial.id s <> Some k -> App.hasId k s = false.
Proof.
  intros H. destruct (App.hasId k s) eqn:E; [|reflexivity].
  now apply hasId_spec in E.
Qed.

Lemma applyScores_id payload post :
  App.id (App.applyScores payload post) = App.id post.
Proof.
  unfold App.applyScores.
  destruct (find (App.hasId (App.id post)) payload) as [r|] eqn:E; [|reflexivity].
  apply find_some in E as [_ E]. apply hasId_spec in E.
  cbn [App.spread App.id]. now rewrite E.
Qed.

(** X17. A progress update of the scoring keeps the posts, their ids and
    their order; a post for which the batch has no record is unchanged; a
    post for which it has records takes the members of the first of them
    (while the cache keeps the last); and the ids still being scored are the
    earlier ones without those of the batch. *)
Theorem progress_update (quota : opportunityScoreCache.ScoreCache -> bool)
    (now : Z) (state : App.AppState) (payload : list Partial.WordPressPost)
    (item : opportunityScoreCache.Item) :
  let state' :=
    fst (App.appReducer quota now state
           (App.SCORE_POSTS_PROGRESS_UPDATE payload) item) in
  map App.id (App.posts state') = map App.id (App.posts state)
  /\ (forall n post,
        nth_error (App.posts state) n = Some post ->
        (forall r, In r payload -> Partial.id r <> Some (App.id post)) ->
        nth_error (App.posts state') n = Some post)
  /\ (forall n post before r after,
        nth_error (App.posts state) n = Some post ->
        payload = before ++ r :: after ->
        Partial.id r = Some (App.id post) ->
        (forall r', In r' before -> Partial.id r' <> Some (App.id post)) ->
        nth_error (App.posts state') n = Some (App.spread post r))
  /\ (forall i,
        In i (App.scoringPostIds state')
        <-> In i (App.scoringPostIds state)
            /\ forall r, In r payload -> Partial.id r <> Some i).
Proof.
  cbn. split; [|split; [|split]].
  - rewrite map_map. apply map_ext. intros post. apply applyScores_id.
  - intros n post Hn Hnone. rewrite nth_error_map, Hn. cbn [option_map].
    unfold App.applyScores. rewrite find_absent; [reflexivity|].
    intros r Hr. apply hasId_false. now apply Hnone.
  - intros n post before r after Hn -> Hr Hbefore.
    rewrite nth_error_map, Hn. cbn [option_map].
    unfold App.applyScores. rewrite (find_first _ before r after); [reflexivity| |].
    + intros x Hx. apply hasId_false. now apply Hbefore.
    + now apply hasId_spec.
  - intros i. rewrite filter_In. rewrite negb_true_iff.
    split; intros [Hin H]; (split; [exact Hin|]).
    + intros r Hr Hid. apply hasId_spec in Hid.
      assert (existsb (App.hasId i) payload = true)
        by (apply existsb_exists; now exists r).
      congruence.
    + destruct (existsb (App.hasId i) payload) eqn:E; [|reflexivity].
      apply existsb_exists in E as (r & Hr & Hid). apply hasId_spec in Hid.
      now destruct (H r Hr).
Qed.

Lemma progress_update_witness :
  nth_error
    (App.posts
       (fst (App.appReducer unlimited 0
               (fst (App.appReducer unlimited 0 App.initialState
                       (App.CONNECT_SUCCESS site [fetched 7 "Budget"] 1)
                       opportunityScoreCache.Absent))
               (App.SCORE_POSTS_PROGRESS_UPDATE
                  ([scored 8 (inject_Z 1) "other"]
                     ++ scored 7 (inject_Z 10) "first"
                     :: [scored 7 (inject_Z 90) "second"]))
               opportunityScoreCache.Absent))) 0
  = Some (App.spread (fetched 7 "Budget") (scored 7 (inject_Z 10) "first")).
Proof.
  refine (proj1 (proj2 (proj2
            (progress_update unlimited 0
               (fst (App.appReducer unlimited 0 App.initialState
                       (App.CONNECT_SUCCESS site [fetched 7 "Budget"] 1)
                       opportunityScoreCache.Absent))
               ([scored 8 (inject_Z 1) "other"]
                  ++ scored 7 (inject_Z 10) "first"
                  :: [scored 7 (inject_Z 90) "second"])
               opportunityScoreCache.Absent)))
            0 (fetched 7 "Budget") [scored 8 (inject_Z 1) "other"]
            (scored 7 (inject_Z 10) "first") [scored 7 (inject_Z 90) "second"]
            eq_refl eq_refl eq_refl _).
  intros r' [<-|[]]. discriminate.
Defined.

(** ** The view of the posts *)

Lemma negative_compareFn b a :
  App.negative (App.compareFn b a) = true
  <-> Qlt (orElse (App.opportunityScore a) (inject_Z (-1)))
          (orElse (App.opportunityScore b) (inject_Z (-1))).
Proof.
  unfold App.negative, App.compareFn.
  set (sa := orElse (App.opportunityScore a) _).
  set (sb := orElse (App.opportunityScore b) _).
  rewrite negb_true_iff. split.
  - intros H. apply Qnot_le_lt. intros Hle.
    apply Qle_minus_iff in Hle. apply Qle_bool_iff in Hle.
    change (Qle_bool (inject_Z 0) (Qminus sa sb) = true) in Hle. congruence.
  - intros Hlt. destruct (Qle_bool (inject_Z 0) (Qminus sa sb)) eqn:E;
      [|reflexivity].
    apply Qle_bool_iff in E. apply Qle_minus_iff in E.
    now apply Qlt_not_le in Hlt.
Qed.

Lemma insert_perm a l : Permutation (App.insert a l) (a :: l).
Proof.
  induction l as [|b rest IH]; cbn [App.insert]; [reflexivity|].
  destruct (App.negative (App.compareFn b a)); [|reflexivity].
  rewrite IH. apply perm_swap.
Qed.

Lemma sort_perm l : Permutation (App.sort l) l.
Proof.
  induction l as [|a l IH]; [reflexivity|].
  unfold App.sort in *. cbn [fold_right]. rewrite insert_perm. now constructor.
Qed.

Lemma insert_sorted a l :
  StronglySorted
    (fun x y => Qle (orElse (App.opportunityScore y) (inject_Z (-1)))
                    (orElse (App.opportunityScore x) (inject_Z (-1)))) l ->
  StronglySorted
    (fun x y => Qle (orElse (App.opportunityScore y) (inject_Z (-1)))
                    (orElse (App.opportunityScore x) (inject_Z (-1))))
    (App.insert a l).
Proof.
  induction 1 as [|b rest Hsorted IH Hb]; cbn [App.insert].
  - repeat constructor.
  - destruct (App.negative (App.compareFn b a)) eqn:E.
    + apply negative_compareFn in E. constructor; [exact IH|].
      apply (Permutation_Forall (Permutation_sym (insert_perm a rest))).
      constructor; [now apply Qlt_le_weak | exact Hb].
    + assert (Hab : Qle (orElse (App.opportunityScore b) (inject_Z (-1)))
                        (orElse (App.opportunityScore a) (inject_Z (-1)))).
      { apply Qnot_lt_le. intros Hlt. apply negative_compareFn in Hlt.
        congruence. }
      constructor; [now constructor|].
      constructor; [exact Hab|].
      eapply Forall_impl; [|exact Hb].
      intros c Hc. cbn beta in *. eapply Qle_trans; eassumption.
Qed.

Lemma insert_stable v a l :
  filter (fun p => Qeq_bool (orElse (App.opportunityScore p) (inject_Z (-1))) v)
         (App.insert a l)
  = filter (fun p => Qeq_bool (orElse (App.opportunityScore p) (inject_Z (-1))) v)
           (a :: l).
Proof.
  induction l as [|b rest IH]; cbn [App.insert]; [reflexivity|].
  destruct (App.negative (App.compareFn b a)) eqn:E; [|reflexivity].
  apply negative_compareFn in E.
  cbn [filter] in *. rewrite IH.
  destruct (Qeq_bool (orElse (App.opportunityScore a) _) v) eqn:Ea;
    [|reflexivity].
  destruct (Qeq_bool (orElse (App.opportunityScore b) _) v) eqn:Eb;
    [|reflexivity].
  apply Qeq_bool_iff in Ea, Eb. rewrite Ea, Eb in E.
  now apply Qlt_irrefl in E.
Qed.

(** X18. [filterAndSortPosts].  In the order of the site the result is the
    posts whose title contains the query, letter case apart, in their
    order (all posts for an empty query).  In the order of opportunity it is
    a rearrangement of that list, by falling score with the posts without a
    score counted as -1, and posts of equal score keep the order they had. *)
Theorem filterAndSortPosts_spec (posts : list App.WordPressPost)
    (query : string) :
  let byDate := App.filterAndSortPosts posts query App.date in
  let byScore := App.filterAndSortPosts posts query App.opportunity in
  let score := fun p => orElse (App.opportunityScore p) (inject_Z (-1)) in
  (forall p, In p byDate
             <-> In p posts
                 /\ (query = ""
                     \/ Js.includes (toLowerCase query)
                          (toLowerCase (App.title_rendered p)) = true))
  /\ (exists keep, byDate = filter keep posts)
  /\ App.filterAndSortPosts posts "" App.date = posts
  /\ Permutation byScore byDate
  /\ StronglySorted (fun a b => Qle (score b) (score a)) byScore
  /\ (forall v, filter (fun p => Qeq_bool (score p) v) byScore
                = filter (fun p => Qeq_bool (score p) v) byDate).
Proof.
  cbn zeta. unfold App.filterAndSortPosts.
  set (filtered := if Js.nonempty query then _ else posts).
  split; [|split; [|split; [|split; [|split]]]].
  - intros p. unfold filtered. destruct query as [|c q]; cbn [Js.nonempty].
    + split; [intros H; split; [exact H | now left] | now intros [H _]].
    + rewrite filter_In. split; intros [Hin H]; (split; [exact Hin|]).
      * now right.
      * now destruct H as [H|H].
  - unfold filtered. destruct (Js.nonempty query); [now eexists|].
    exists (fun _ => true). induction posts as [|p l IH]; [reflexivity|].
    cbn [filter]. now rewrite <- IH.
  - reflexivity.
  - apply sort_perm.
  - unfold App.sort. induction filtered as [|a l IH]; cbn [fold_right].
    + constructor.
    + now apply insert_sorted.
  - intros v. unfold App.sort. induction filtered as [|a l IH];
      cbn [fold_right]; [reflexivity|].
    rewrite insert_stable. cbn [filter]. now rewrite IH.
Qed.

(** ** Scores are not asked for twice *)

Lemma addScores_read (quota : opportunityScoreCache.ScoreCache -> bool)
    (readAt now later : Z) (item : opportunityScoreCache.Item)
    (before after : list Partial.WordPressPost) (record : Partial.WordPressPost)
    (i : Z) (score : Q) (rationale : string) :
  (forall c, quota c = true) ->
  Partial.id record = Some i ->
  Partial.opportunityScore record = Some (Some score) ->
  Partial.opportunityRationale record = Some (Some rationale) ->
  (forall r, In r after -> Partial.id r = Some i -> complete r = false) ->
  (later - now < 7 * 24 * 60 * 60 * 1000)%Z ->
  opportunityScoreCache.get i
    (fst (opportunityScoreCache.getScores quota later
            (opportunityScoreCache.addScores quota readAt now
               (before ++ record :: after) item)))
  = Some {| opportunityScoreCache.id := i;
            opportunityScoreCache.opportunityScore := score;
            opportunityScoreCache.opportunityRationale := rationale;
            opportunityScoreCache.timestamp := now |}.
Proof.
  intros Hquota Hid Hscore Hwhy Hafter Hlater.
  unfold opportunityScoreCache.addScores.
  destruct (opportunityScoreCache.getScores quota readAt item)
    as [existingScores item'].
  rewrite Hquota.
  set (updated := fold_left (opportunityScoreCache.addScore now)
                    (before ++ record :: after) existingScores).
  assert (Hget : opportunityScoreCache.get i updated
                 = Some {| opportunityScoreCache.id := i;
                           opportunityScoreCache.opportunityScore := score;
                           opportunityScoreCache.opportunityRationale := rationale;
                           opportunityScoreCache.timestamp := now |}).
  { unfold updated. rewrite fold_left_app. cbn [fold_left].
    rewrite (addScores_other now after _ i Hafter).
    unfold opportunityScoreCache.addScore. rewrite Hid, Hscore, Hwhy.
    cbn [Partial.defined]. apply get_set_same. }
  cbn [opportunityScoreCache.getScores]. rewrite Hquota.
  assert (Hfresh : opportunityScoreCache.get i
                     (filter (opportunityScoreCache.fresh later) updated)
                   = opportunityScoreCache.get i updated).
  { rewrite Hget. apply get_filter; [exact Hget|].
    unfold opportunityScoreCache.fresh.
    cbn [snd opportunityScoreCache.timestamp]. now apply Z.ltb_lt. }
  destruct (length (filter (opportunityScoreCache.fresh later) updated)
            <? length updated); cbn [fst]; now rewrite Hfresh.
Qed.

(** X19. A score that was cached is used for seven days: when the store
    accepts every write and a batch given to [addScores] holds a record
    with id, score and rationale for a post (the last such record of the
    batch counts), then, less than seven days later, connecting shows that
    post with this score and rationale, and [runOpportunityAnalysis] does
    not send the post to the provider again. *)
Theorem cached_scores_are_used
    (quota : opportunityScoreCache.ScoreCache -> bool)
    (readAt now later : Z) (item : opportunityScoreCache.Item)
    (before after : list Partial.WordPressPost) (record : Partial.WordPressPost)
    (i : Z) (score : Q) (rationale : string) :
  (forall c, quota c = true) ->
  Partial.id record = Some i ->
  Partial.opportunityScore record = Some (Some score) ->
  Partial.opportunityRationale record = Some (Some rationale) ->
  (forall r, In r after -> Partial.id r = Some i -> complete r = false) ->
  (later - now < 7 * 24 * 60 * 60 * 1000)%Z ->
  let stored :=
    opportunityScoreCache.addScores quota readAt now
      (before ++ record :: after) item in
  (forall state config posts totalPages n p,
     nth_error posts n = Some p -> App.id p = i ->
     exists p',
       nth_error
         (App.posts
            (fst (App.appReducer quota later state
                    (App.CONNECT_SUCCESS config posts totalPages) stored))) n
       = Some p'
       /\ App.id p' = i
       /\ App.opportunityScore p' = Some score
       /\ App.opportunityRationale p' = Some rationale)
  /\ (forall state,
        match fst (runOpportunityAnalysis quota later state stored) with
        | Started postsToScore => forall p, In p postsToScore -> App.id p <> i
        | _ => True
        end).
Proof.
  intros Hquota Hid Hscore Hwhy Hafter Hlater stored.
  pose proof (addScores_read quota readAt now later item before after record
                i score rationale Hquota Hid Hscore Hwhy Hafter Hlater) as Hread.
  fold stored in Hread. split.
  - intros state config posts totalPages n p Hn Hp.
    cbn [App.appReducer].
    destruct (opportunityScoreCache.getScores quota later stored)
      as [cachedScores item'].
    cbn [fst] in Hread |- *. cbn.
    rewrite nth_error_map, Hn. cbn [option_map]. eexists. split; [reflexivity|].
    unfold App.hydrate. rewrite Hp, Hread. cbn. now repeat split.
  - intros state. unfold runOpportunityAnalysis.
    destruct (negb _ || _); [exact I|].
    destruct (opportunityScoreCache.getScores quota later stored)
      as [cachedScores item'].
    cbn [fst] in Hread.
    destruct (length _ =? 0); [exact I|]. cbn [fst].
    intros p Hin Hp. apply filter_In in Hin as [_ Hin].
    rewrite Hp, Hread in Hin. discriminate.
Qed.

Lemma cached_scores_are_used_witness :
  Forall (fun p => App.id p <> 7%Z) [fetched 8 "Garden"].
Proof.
  apply Forall_forall.
  exact (proj2 (cached_scores_are_used unlimited 1000 1001 5000
                  opportunityScoreCache.Absent [] []
                  (scored 7 (inject_Z 90) "calculator") 7 (inject_Z 90)
                  "calculator" (fun _ => eq_refl) eq_refl eq_refl eq_refl
                  (fun r (H : In r []) => match H with end) eq_refl)
           connected).
Defined.

(** ** The WordPress client *)

Lemma blank_false v :
  blank v = Ok false -> exists snippet, v = Some (JStr snippet) /\ Js.trim snippet <> "".
Proof.
  unfold blank. destruct (truthy v); cbn [negb]; [|discriminate].
  destruct v as [[| | |s| |]|]; try discriminate.
  intros [= H]. exists s. split; [reflexivity|].
  intros E. now rewrite E in H.
Qed.

(** A call whose [catch] block is reached does not resolve. *)
Ltac rejected :=
  cbn [bind message mkError];
  repeat match goal with
         | |- context [if ?b then _ else _] => destruct b
         | |- context [match ?m with Some _ => _ | None => _ end] => destruct m
         end;
  discriminate.

Section WordPressFacts.

Variable JSON_parse : string -> result json.
Variable fetch : nat -> Request -> result Response.
Variable toText : value -> string.
Variable config : App.WordPressConfig.
Variables title content : string.
Variable sent : list Request.

Let create : Request :=
  POST (getApiUrl config "cf_tool")
    (JObj [("title", JStr title);
           ("content",
            JStr "<!-- AI Tool HTML is stored in a custom meta field for security. -->");
           ("status", JStr "publish");
           ("meta", JObj [("_cf_tool_html_snippet", JStr content)])]).

(** X20. [createCfTool] trusts no write it has not seen: when it resolves,
    the server has answered one of its at most two requests with a saved
    snippet that is a string with more than white space, and nothing was
    deleted.  When the answer to the creation shows no snippet and the
    second look shows none or a blank one, or when the answer shows a
    snippet of white space only, the tool is deleted again and the call
    rejects with [CONNECTOR_OUTDATED], whatever the deletion answers. *)
Theorem createCfTool_verified :
  (forall toolData sent',
     createCfTool JSON_parse fetch toText config title content sent
     = (Ok toolData, sent') ->
     exists rest,
       sent' = sent ++ create :: rest
       /\ List.length rest <= 1
       /\ (forall url, ~ In (DELETE url) (create :: rest))
       /\ exists n request response data snippet,
            In request (create :: rest)
            /\ fetch n request = Ok response
            /\ JSON_parse (resp_body response) = Ok data
            /\ savedSnippetOf data = Ok (Some (JStr snippet))
            /\ Js.trim snippet <> "")
  /\ (forall response toolData firstLook toolId verify verifyData secondLook,
        fetch (List.length sent) create = Ok response ->
        ok response = true ->
        JSON_parse (resp_body response) = Ok toolData ->
        savedSnippetOf toolData = Ok firstLook ->
        truthy firstLook = false ->
        getProp (Some toolData) "id" = Ok toolId ->
        fetch (S (List.length sent))
          (GET (getApiUrl config "cf_tool" +++ "/" +++ toText toolId))
        = Ok verify ->
        JSON_parse (resp_body verify) = Ok verifyData ->
        savedSnippetOf verifyData = Ok secondLook ->
        blank secondLook = Ok true ->
        createCfTool JSON_parse fetch toText config title content sent
        = (Throw CONNECTOR_OUTDATED,
           sent ++ [create;
                    GET (getApiUrl config "cf_tool" +++ "/" +++ toText toolId);
                    DELETE (getApiUrl config
                              ("cf_tool/" +++ toText toolId +++ "?force=true"))]))
  /\ (forall response toolData spaces toolId,
        fetch (List.length sent) create = Ok response ->
        ok response = true ->
        JSON_parse (resp_body response) = Ok toolData ->
        savedSnippetOf toolData = Ok (Some (JStr spaces)) ->
        spaces <> "" -> Js.trim spaces = "" ->
        getProp (Some toolData) "id" = Ok toolId ->
        createCfTool JSON_parse fetch toText config title content sent
        = (Throw CONNECTOR_OUTDATED,
           sent ++ [create;
                    DELETE (getApiUrl config
                              ("cf_tool/" +++ toText toolId +++ "?force=true"))])).
Proof.
  split; [|split].
  - intros toolData sent'. unfold createCfTool, createCfToolTry, send.
    fold create.
    destruct (fetch (List.length sent) create) as [response|e] eqn:Hf.
    2:{ rejected. }
    destruct (negb (ok response)); [rejected|].
    destruct (JSON_parse (resp_body response)) as [data|e] eqn:Hp.
    2:{ rejected. }
    destruct (savedSnippetOf data) as [firstLook|e] eqn:Hs.
    2:{ rejected. }
    destruct (negb (truthy firstLook)) eqn:Ht.
    + unfold verifySnippet, send.
      destruct (getProp (Some data) "id") as [toolId|e] eqn:Hid.
      2:{ rejected. }
      set (look := GET _).
      destruct (fetch (List.length (sent ++ [create])) look) as [verify|e] eqn:Hv.
      2:{ rejected. }
      destruct (JSON_parse (resp_body verify)) as [verifyData|e] eqn:Hvp.
      2:{ rejected. }
      cbn [bind].
      destruct (savedSnippetOf verifyData) as [secondLook|e] eqn:Hvs.
      2:{ rejected. }
      cbn [bind]. destruct (blank secondLook) as [[|]|e] eqn:Hb.
      * destruct (deleteCfTool fetch toText config toolId _). cbn. discriminate.
      * intros [= <- <-]. exists [look]. rewrite <- app_assoc. cbn [app].
        split; [reflexivity|]. split; [cbn; lia|]. split.
        { intros url [H|[H|[]]]; discriminate H. }
        apply blank_false in Hb as (snippet & -> & Hne).
        exists (List.length (sent ++ [create])), look, verify, verifyData, snippet.
        split; [right; now left|]. now repeat split.
      * rejected.
    + cbn [bind]. destruct (blank firstLook) as [[|]|e] eqn:Hb.
      * destruct (getProp (Some data) "id") as [toolId|e].
        { destruct (deleteCfTool fetch toText config toolId _). cbn. discriminate. }
        rejected.
      * intros [= <- <-]. exists []. split; [reflexivity|].
        split; [cbn; lia|]. split.
        { intros url [H|[]]; discriminate H. }
        apply blank_false in Hb as (snippet & -> & Hne).
        exists (List.length sent), create, response, data, snippet.
        split; [now left|]. now repeat split.
      * rejected.
  - intros response toolData firstLook toolId verify verifyData secondLook
      Hf Hok Hp Hs Ht Hid Hv Hvp Hvs Hb.
    unfold createCfTool, createCfToolTry, send. fold create.
    rewrite Hf, Hok. cbn [negb]. rewrite Hp, Hs, Ht. cbn [negb].
    unfold verifySnippet, send. rewrite Hid.
    rewrite length_app. cbn [List.length]. rewrite Nat.add_1_r.
    rewrite Hv, Hvp. cbn [bind]. rewrite Hvs. cbn [bind]. rewrite Hb.
    unfold deleteCfTool, send.
    destruct (fetch _ (DELETE _)) as [r|e].
    + destruct (negb (ok r) && _); cbn; now rewrite <- !app_assoc.
    + cbn. now rewrite <- !app_assoc.
  - intros response toolData spaces toolId Hf Hok Hp Hs Hne Htrim Hid.
    unfold createCfTool, createCfToolTry, send. fold create.
    rewrite Hf, Hok. cbn [negb]. rewrite Hp, Hs.
    assert (Ht : truthy (Some (JStr spaces)) = true)
      by (destruct spaces; [contradiction | reflexivity]).
    rewrite Ht. cbn [negb bind]. unfold blank. rewrite Ht. cbn [negb].
    rewrite Htrim. cbn [String.length Nat.eqb]. rewrite Hid.
    unfold deleteCfTool, send.
    destruct (fetch _ (DELETE _)) as [r|e].
    + destruct (negb (ok r) && _); cbn; now rewrite <- !app_assoc.
    + cbn. now rewrite <- !app_assoc.
Qed.

End WordPressFacts.

Lemma createCfTool_verified_witness :
  createCfTool JSON.parse strippingServer decimal site "Planner" "<div>tool</div>" []
  = (Throw CONNECTOR_OUTDATED,
     [POST "https://example.org/wp-json/wp/v2/cf_tool"
        (JObj [("title", JStr "Planner");
               ("content",
                JStr "<!-- AI Tool HTML is stored in a custom meta field for security. -->");
               ("status", JStr "publish");
               ("meta", JObj [("_cf_tool_html_snippet", JStr "<div>tool</div>")])]);
      GET "https://example.org/wp-json/wp/v2/cf_tool/12";
      DELETE "https://example.org/wp-json/wp/v2/cf_tool/12?force=true"]).
Proof.
  refine (proj1 (proj2 (createCfTool_verified JSON.parse strippingServer decimal
                          site "Planner" "<div>tool</div>" []))
            {| resp_status := 200;
               resp_body := "{" +++ JSON.q "id" +++ ":12," +++ JSON.q "meta"
                            +++ ":{" +++ JSON.q "_cf_tool_html_snippet" +++ ":"
                            +++ JSON.q "" +++ "}}" |}
            (JObj [("id", JNum (inject_Z 12));
                   ("meta", JObj [("_cf_tool_html_snippet", JStr "")])])
            (Some (JStr "")) (Some (JNum (inject_Z 12)))
            {| resp_status := 200;
               resp_body := "{" +++ JSON.q "id" +++ ":12," +++ JSON.q "meta"
                            +++ ":{" +++ JSON.q "_cf_tool_html_snippet" +++ ":"
                            +++ JSON.q "" +++ "}}" |}
            (JObj [("id", JNum (inject_Z 12));
                   ("meta", JObj [("_cf_tool_html_snippet", JStr "")])])
            (Some (JStr "")) _ _ _ _ _ _ _ _ _ _); reflexivity.
Defined.

Lemma endsWith_append s suffix : endsWith suffix (s +++ suffix) = true.
Proof.
  induction s as [|c s IH]; cbn [String.append].
  - destruct suffix; cbn [endsWith]; now rewrite String.eqb_refl.
  - cbn [endsWith]. rewrite IH. apply orb_true_r.
Qed.

Lemma checkSetup_outcome (fetch : nat -> Request -> result Response)
    (config : App.WordPressConfig) (sent : list Request) :
  let request := GET (getApiUrl config "types/cf_tool") in
  snd (checkSetup fetch config sent) = sent ++ [request]
  /\ (fst (checkSetup fetch config sent) = Ok true
      <-> exists response,
            fetch (List.length sent) request = Ok response
            /\ ok response = true)
  /\ (fst (checkSetup fetch config sent) = Ok false
      <-> exists response,
            fetch (List.length sent) request = Ok response
            /\ resp_status response = 404%Z).
Proof.
  cbn zeta. unfold checkSetup, checkSetupTry, send, getApiUrl.
  set (url := if endsWith "/" (App.url config) then _ else _).
  change ("wp-json/wp/v2/" +++ "types/cf_tool") with "wp-json/wp/v2/types/cf_tool".
  destruct (fetch (List.length sent) (GET _)) as [response|e] eqn:Hf.
  - unfold ok. destruct (resp_status response =? 404)%Z eqn:E404.
    + apply Z.eqb_eq in E404. cbn [fst snd]. split; [reflexivity|]. split.
      * split; [discriminate|]. intros (r & [= <-] & Hok).
        rewrite E404 in Hok. discriminate Hok.
      * split; [intros _; now exists response|reflexivity].
    + apply Z.eqb_neq in E404.
      destruct (resp_status response =? 401)%Z eqn:E401.
      * apply Z.eqb_eq in E401. cbn. split; [reflexivity|]. split.
        -- split; [discriminate|]. intros (r & [= <-] & Hok).
           rewrite E401 in Hok. discriminate Hok.
        -- split; [discriminate|]. intros (r & [= <-] & H). contradiction.
      * destruct ((200 <=? resp_status response)%Z
                  && (resp_status response <=? 299)%Z) eqn:Hok; cbn.
        -- split; [reflexivity|]. split.
           ++ split; [intros _; now exists response|reflexivity].
           ++ split; [discriminate|]. intros (r & [= <-] & H). contradiction.
        -- split; [reflexivity|]. split.
           ++ split; [discriminate|]. intros (r & [= <-] & H). congruence.
           ++ split; [discriminate|]. intros (r & [= <-] & H). contradiction.
  - destruct (String.eqb (name e) "AbortError");
      [|destruct (String.eqb (name e) "TypeError")]; cbn [fst snd];
      (split; [reflexivity|]; split;
       [split; [discriminate | intros (r & H & _); discriminate H]
       |split; [discriminate | intros (r & H & _); discriminate H]]).
Qed.

(** X21. [checkSetup] sends one request, to the address [getApiUrl] gives
    for [types/cf_tool]; it resolves with [true] exactly when the status
    of the response is in 200..299 and with [false] exactly when it is
    404, and rejects otherwise.  A final [/] of the site address makes no
    difference to the addresses used. *)
Theorem checkSetup_spec (fetch : nat -> Request -> result Response)
    (config : App.WordPressConfig) (sent : list Request) :
  let request := GET (getApiUrl config "types/cf_tool") in
  snd (checkSetup fetch config sent) = sent ++ [request]
  /\ (fst (checkSetup fetch config sent) = Ok true
      <-> exists response,
            fetch (List.length sent) request = Ok response
            /\ ok response = true)
  /\ (fst (checkSetup fetch config sent) = Ok false
      <-> exists response,
            fetch (List.length sent) request = Ok response
            /\ resp_status response = 404%Z)
  /\ (forall endpoint,
        endsWith "/" (App.url config) = false ->
        getApiUrl config endpoint
        = getApiUrl {| App.url := App.url config +++ "/";
                       App.username := App.username config;
                       App.appPassword := App.appPassword config |} endpoint).
Proof.
  destruct (checkSetup_outcome fetch config sent) as (Hsent & Htrue & Hfalse).
  cbn zeta in *. split; [exact Hsent|]. split; [exact Htrue|].
  split; [exact Hfalse|].
  intros endpoint Hslash. unfold getApiUrl. cbn [App.url].
  now rewrite Hslash, endsWith_append.
Qed.

(** ** Inserting a tool into a post *)






Lemma insertSnippet_missing
    (createCfTool : nat -> string -> string -> result Z)
    (updatePost : nat -> Z -> string -> result (WordPressPost * option Z))
    (now : Z) (state : App.AppState) (post : App.WordPressPost)
    (snippet : string) (idea : ToolIdea) (calls : list Call) :
  (App.wpConfig state = None ->
   insertSnippet createCfTool updatePost now state post snippet idea calls
   = (Throw (mkError "Missing required data to insert snippet."), calls))
  /\ (snippet = "" ->
      insertSnippet createCfTool updatePost now state post snippet idea calls
      = (Throw (mkError "Missing required data to insert snippet."), calls)).
Proof.
  unfold insertSnippet. split; intros ->; [reflexivity|].
  now destruct (App.wpConfig state).
Qed.

Section InsertSnippet.

Variable createCfTool : nat -> string -> string -> result Z.
Variable updatePost : nat -> Z -> string -> result (WordPressPost * option Z).


End InsertSnippet.

(** ** Refreshing a tool *)

Section RefreshTool.

Variable fetchCfTool : nat -> Z -> result (string * string).
Variable updateCfTool : nat -> Z -> string -> string -> result unit.
Variable refreshSnippet : App.WordPressPost -> string -> Stream.

(** X23. [refreshTool] never overwrites a tool with an empty or a partial
    snippet: it makes at most two calls, reading the tool and then
    updating it; the update is made only when the stream of the refreshed
    snippet ended normally and yielded some text, and it carries the title
    read and the concatenation of all chunks; and success is dispatched
    only after this update was accepted. *)
Theorem refreshTool_spec (now : Z) (state : App.AppState) (postId toolId : Z)
    (calls : list Call) :
  let result :=
    refreshTool fetchCfTool updateCfTool refreshSnippet now state postId toolId
      calls in
  (snd result = calls
   \/ snd result = calls ++ [FetchCfTool toolId]
   \/ exists post oldTitle oldSnippet,
        let stream := refreshSnippet post oldSnippet in
        let newSnippet := fold_right String.append "" (yielded stream) in
        snd result = calls ++ [FetchCfTool toolId;
                               UpdateCfTool toolId oldTitle newSnippet]
        /\ find (fun p => (App.id p =? postId)%Z) (App.posts state) = Some post
        /\ fetchCfTool (List.length calls) toolId = Ok (oldTitle, oldSnippet)
        /\ completion stream = Ok tt
        /\ newSnippet <> "")
  /\ (forall creationDate,
        In (App.REFRESH_TOOL_SUCCESS postId creationDate) (fst result) ->
        creationDate = now
        /\ exists oldTitle newSnippet,
             snd result = calls ++ [FetchCfTool toolId;
                                    UpdateCfTool toolId oldTitle newSnippet]
             /\ updateCfTool (S (List.length calls)) toolId oldTitle newSnippet
                = Ok tt).
Proof.
  cbn zeta. unfold refreshTool.
  destruct (App.wpConfig state) as [wpConfig|];
    [|split; [now left | intros d []]].
  destruct (find _ (App.posts state)) as [post|] eqn:Hpost;
    [|split; [now left | intros d []]].
  destruct (fetchCfTool (List.length calls) toolId) as [[oldTitle oldSnippet]|e]
    eqn:Hfetch.
  2:{ cbn [fst snd]. split; [right; now left|].
      intros d [H|[H|[]]]; discriminate H. }
  destruct (completion (refreshSnippet post oldSnippet)) as [[]|e] eqn:Hend.
  2:{ cbn [fst snd]. split; [right; now left|].
      intros d [H|[H|[]]]; discriminate H. }
  destruct (Js.nonempty _) eqn:Hne.
  2:{ cbn [fst snd]. split; [right; now left|].
      intros d [H|[H|[]]]; discriminate H. }
  cbn [fst snd]. rewrite <- app_assoc. cbn [app]. split.
  - right. right. exists post, oldTitle, oldSnippet. cbn zeta.
    split; [reflexivity|]. split; [reflexivity|]. split; [reflexivity|].
    split; [exact Hend|]. intros E. rewrite E in Hne. discriminate Hne.
  - rewrite length_app. cbn [List.length]. rewrite Nat.add_1_r.
    destruct (updateCfTool _ toolId oldTitle _) as [[]|e] eqn:Hup.
    + intros d [H|[H|[]]]; [discriminate H|]. injection H as <-.
      split; [reflexivity|]. now exists oldTitle, (fold_right String.append ""
        (yielded (refreshSnippet post oldSnippet))).
    + intros d [H|[H|[]]]; discriminate H.
Qed.

End RefreshTool.

(** ** Deleting a tool from a post *)

Section DeleteSnippet.

Variable updatePost : nat -> Z -> string -> result (WordPressPost * option Z).
Variable deleteCfTool : nat -> Z -> result unit.
Variable removeShortcodes : string -> string.

(** X24. [deleteSnippet] deletes the tool before it looks for the post:
    with a configuration and a tool id other than 0 its first call deletes
    the tool, and it is the only call when the deletion fails or the post
    is not among the posts of the state.  The post it dispatches on success
    comes from an update of the post with the content the removal pattern
    leaves; it is marked as having no tool, and has no tool id, score,
    rationale, creation date or featured image, whatever the server
    answered. *)
Theorem deleteSnippet_spec (state : App.AppState) (postId : Z)
    (toolId : option Z) (calls : list Call) :
  let result :=
    deleteSnippet updatePost deleteCfTool removeShortcodes state postId toolId
      calls in
  (forall t, App.wpConfig state <> None -> toolId = Some t -> t <> 0%Z ->
     exists rest,
       snd result = calls ++ DeleteCfTool t :: rest
       /\ ((forall r, deleteCfTool (List.length calls) t <> Ok r) -> rest = [])
       /\ (find (fun p => (App.id p =? postId)%Z) (App.posts state) = None ->
           rest = []))
  /\ (forall freshPostDetails,
        In (App.DELETE_SNIPPET_SUCCESS freshPostDetails) (fst result) ->
        (exists post before,
           find (fun p => (App.id p =? postId)%Z) (App.posts state) = Some post
           /\ snd result
              = before ++ [UpdatePost postId
                             (removeShortcodes (App.content_rendered post))])
        /\ App.hasOptimizerSnippet freshPostDetails = false
        /\ App.toolId freshPostDetails = None
        /\ App.opportunityScore freshPostDetails = None
        /\ App.opportunityRationale freshPostDetails = None
        /\ App.toolCreationDate freshPostDetails = None
        /\ App.featuredImageUrl freshPostDetails = None).
Proof.
  cbn zeta. unfold deleteSnippet. split.
  - intros t Hcfg -> Ht.
    destruct (App.wpConfig state) as [wpConfig|]; [|contradiction].
    apply Z.eqb_neq in Ht. rewrite Ht.
    destruct (deleteCfTool (List.length calls) t) as [[]|e].
    + destruct (find _ (App.posts state)) as [post|].
      * destruct (updatePost _ postId _) as [[data detected]|e];
          cbn [snd]; rewrite <- app_assoc; cbn [app]; eexists;
          (split; [reflexivity|]);
          (split; [intros H; now destruct (H tt) | discriminate]).
      * cbn [snd]. exists []. now repeat split.
    + cbn [snd]. exists []. now repeat split.
  - intros fresh.
    destruct (App.wpConfig state) as [wpConfig|]; [|intros []].
    set (first := match toolId with Some t => _ | None => _ end).
    destruct first as [[[]|e] calls1].
    + destruct (find _ (App.posts state)) as [post|].
      * destruct (updatePost _ postId _) as [[data detected]|e]; cbn [fst snd].
        -- intros [H|[H|[]]]; [discriminate H|]. injection H as <-.
           split; [now exists post, calls1|]. now repeat split.
        -- intros [H|[H|[]]]; discriminate H.
      * cbn [fst snd]. intros [H|[H|[]]]; discriminate H.
    + cbn [fst snd]. intros [H|[H|[]]]; discriminate H.
Qed.

End DeleteSnippet.

(** ** The top opportunity *)

Lemma hd_filter_first {A} (f : A -> bool) l a :
  hd_error (filter f l) = Some a ->
  exists before after,
    l = before ++ a :: after
    /\ f a = true
    /\ forall x, In x before -> f x = false.
Proof.
  induction l as [|x l IH]; [discriminate|].
  cbn [filter]. destruct (f x) eqn:E.
  - intros [= <-]. exists [], l. now repeat split.
  - intros H. destruct (IH H) as (before & after & -> & Ha & Hb).
    exists (x :: before), after. split; [reflexivity|]. split; [exact Ha|].
    intros y [<-|Hy]; [exact E | now apply Hb].
Qed.

Lemma filter_filter {A} (f g : A -> bool) l :
  filter g (filter f l) = filter (fun x => f x && g x) l.
Proof.
  induction l as [|x l IH]; [reflexivity|].
  cbn [filter]. destruct (f x); cbn [filter andb]; [|exact IH].
  destruct (g x); now rewrite IH.
Qed.

Lemma sort_sorted l :
  StronglySorted
    (fun x y => Qle (orElse (App.opportunityScore y) (inject_Z (-1)))
                    (orElse (App.opportunityScore x) (inject_Z (-1))))
    (App.sort l).
Proof.
  unfold App.sort. induction l as [|a l IH]; cbn [fold_right].
  - constructor.
  - now apply insert_sorted.
Qed.

Lemma sort_stable v l :
  filter (fun p => Qeq_bool (orElse (App.opportunityScore p) (inject_Z (-1))) v)
         (App.sort l)
  = filter (fun p => Qeq_bool (orElse (App.opportunityScore p) (inject_Z (-1))) v)
           l.
Proof.
  unfold App.sort. induction l as [|a l IH]; cbn [fold_right]; [reflexivity|].
  rewrite insert_stable. cbn [filter]. now rewrite IH.
Qed.

(** X25. The top opportunity of the dashboard.  While posts are being
    scored, or when no post without a tool has a score, there is none.
    Otherwise it is a post without a tool whose score is the highest among
    the scored posts without a tool, and the first such post in the order
    of the posts. *)
Theorem topOpportunity_spec (isScoring : bool)
    (posts : list App.WordPressPost) :
  let eligible := fun p =>
    negb (App.hasOptimizerSnippet p)
    && match App.opportunityScore p with Some _ => true | None => false end in
  (topOpportunity isScoring posts = None
   <-> isScoring = true \/ forall p, In p posts -> eligible p = false)
  /\ (forall top,
        topOpportunity isScoring posts = Some top ->
        exists score before after,
          App.opportunityScore top = Some score
          /\ App.hasOptimizerSnippet top = false
          /\ posts = before ++ top :: after
          /\ (forall p s, In p posts -> eligible p = true ->
                          App.opportunityScore p = Some s -> Qle s score)
          /\ (forall p s, In p before -> eligible p = true ->
                          App.opportunityScore p = Some s -> ~ Qeq s score)).
Proof.
  cbn zeta. unfold topOpportunity.
  set (eligible := fun p => negb (App.hasOptimizerSnippet p) && _).
  pose proof (sort_perm (filter eligible posts)) as Hperm.
  pose proof (sort_sorted (filter eligible posts)) as Hsorted.
  split.
  - destruct isScoring; cbn [orb]; [split; [now left | reflexivity]|].
    destruct posts as [|p0 posts'] eqn:Eposts;
      [split; [right; intros p [] | reflexivity]|].
    rewrite <- Eposts in *. replace (List.length posts =? 0) with false
      by (rewrite Eposts; reflexivity).
    split.
    + intros H. right. intros p Hp.
      destruct (eligible p) eqn:E; [|exact E].
      assert (Hin : In p (App.sort (filter eligible posts))).
      { apply (Permutation_in _ (Permutation_sym Hperm)).
        apply filter_In. now split. }
      destruct (App.sort (filter eligible posts)); [destruct Hin | discriminate H].
    + intros [H|H]; [discriminate H|].
      destruct (App.sort (filter eligible posts)) as [|a l] eqn:E; [reflexivity|].
      assert (Hin : In a (filter eligible posts))
        by (apply (Permutation_in _ Hperm); now left).
      apply filter_In in Hin as [Hin Ha]. pose proof (H a Hin) as Hf.
      change (eligible a = false) in Hf. congruence.
  - intros top. destruct (isScoring || _); [discriminate|].
    destruct (App.sort (filter eligible posts)) as [|a rest] eqn:E;
      [discriminate|].
    intros [= ->].
    assert (Hin : In top (filter eligible posts))
      by (apply (Permutation_in _ Hperm); now left).
    apply filter_In in Hin as [Hin Htop].
    pose proof Htop as Htop'. unfold eligible in Htop'.
    apply andb_prop in Htop' as [Hsnip Hscore].
    destruct (App.opportunityScore top) as [score|] eqn:Es; [|discriminate].
    apply negb_true_iff in Hsnip.
    pose proof (sort_stable score (filter eligible posts)) as Hstable.
    rewrite E in Hstable. cbn [filter] in Hstable. rewrite Es in Hstable.
    cbn [orElse] in Hstable. rewrite Qeq_bool_refl in Hstable.
    rewrite filter_filter in Hstable.
    assert (Hhd : hd_error
                    (filter (fun x => eligible x
                                      && Qeq_bool (orElse (App.opportunityScore x)
                                                     (inject_Z (-1))) score)
                            posts) = Some top)
      by now rewrite <- Hstable.
    apply hd_filter_first in Hhd as (before & after & Hposts & _ & Hbefore).
    exists score, before, after.
    split; [reflexivity|]. split; [exact Hsnip|]. split; [exact Hposts|].
    split.
    + intros p s Hp Hel Hps.
      assert (Hp' : In p (top :: rest)).
      { apply (Permutation_in _ (Permutation_sym Hperm)).
        apply filter_In. split; [exact Hp | exact Hel]. }
      destruct Hp' as [<-|Hp'].
      * rewrite Es in Hps. injection Hps as <-. apply Qle_refl.
      * apply StronglySorted_inv in Hsorted as [_ Hall].
        rewrite Forall_forall in Hall. specialize (Hall p Hp').
        cbn beta in Hall. now rewrite Hps, Es in Hall.
    + intros p s Hp Hel Hps Heq.
      specialize (Hbefore p Hp). change (eligible p = true) in Hel.
      rewrite Hel, Hps in Hbefore.
      cbn [andb orElse] in Hbefore. apply Qeq_bool_iff in Heq. congruence.
Qed.

(** ** Connecting to the site *)

Section ConnectionFacts.

Variable fetch : nat -> Request -> result Response.
Variable readPosts : Response -> result (list App.WordPressPost * Z).
Variable saveConfig : App.WordPressConfig -> bool.
Variable quotaError : JsError.
Variable quota : opportunityScoreCache.ScoreCache -> bool.

Lemma fetchPosts_sent config page sent :
  exists listing,
    snd (fetchPosts fetch readPosts config page sent) = sent ++ [listing]
    /\ forall loaded,
         fst (fetchPosts fetch readPosts config page sent) = Ok loaded ->
         exists response,
           fetch (List.length sent) listing = Ok response
           /\ ok response = true
           /\ readPosts response = Ok loaded.
Proof.
  unfold fetchPosts, fetchPostsTry, send. eexists.
  destruct (fetch (List.length sent) (GET _)) as [response|e] eqn:Hf.
  - destruct (ok response) eqn:Hok; cbn [negb].
    + destruct (readPosts response) as [r|e] eqn:Hr.
      * cbn [fst snd]. split; [reflexivity|].
        intros loaded [= <-]. now exists response.
      * destruct (String.eqb _ _); [|destruct (String.eqb _ _)];
          (split; [reflexivity | discriminate]).
    + destruct (resp_status response =? 401)%Z;
        (split; [reflexivity | discriminate]).
  - destruct (String.eqb _ _); [|destruct (String.eqb _ _)];
      (split; [reflexivity | discriminate]).
Qed.

(** X26. [connectToWordPress] never leaves the application loading: after
    its actions the status is not the loading one.  When the site answers
    the question for the tool type with 404, one request is sent, the posts
    are not asked for, nothing is stored, and the application shows the
    setup instructions for this configuration.  It dispatches
    [CONNECT_SUCCESS] only when both requests were answered with a status in
    200..299, with the posts read from the second answer, and then the
    configuration is stored. *)
Theorem connectToWordPress_spec (now : Z) (state : App.AppState)
    (item : opportunityScoreCache.Item) (config : App.WordPressConfig)
    (sent : list Request) (saved : option App.WordPressConfig) :
  let '(actions, sent', saved') :=
    connectToWordPress fetch readPosts saveConfig quotaError config sent saved in
  let final := fst (dispatchAll quota (at_time now actions) state item) in
  let probe := GET (getApiUrl config "types/cf_tool") in
  App.status final <> App.StatusLoading
  /\ (forall response,
        fetch (List.length sent) probe = Ok response ->
        resp_status response = 404%Z ->
        actions = [App.CONNECT_START; App.SETUP_REQUIRED config]
        /\ sent' = sent ++ [probe]
        /\ saved' = saved
        /\ App.setupRequired final = true
        /\ App.wpConfig final = Some config
        /\ App.posts final = App.posts state)
  /\ (forall posts totalPages,
        In (App.CONNECT_SUCCESS config posts totalPages) actions ->
        saved' = Some config
        /\ saveConfig config = true
        /\ exists listing first second,
             sent' = sent ++ [probe; listing]
             /\ fetch (List.length sent) probe = Ok first
             /\ ok first = true
             /\ fetch (S (List.length sent)) listing = Ok second
             /\ ok second = true
             /\ readPosts second = Ok (posts, totalPages)).
Proof.
  unfold connectToWordPress.
  destruct (checkSetup_outcome fetch config sent) as (Hsent & Htrue & Hfalse).
  cbn zeta in Hsent, Htrue, Hfalse.
  destruct (checkSetup fetch config sent) as [isSetup sent1].
  cbn [fst snd] in Hsent, Htrue, Hfalse. subst sent1.
  destruct isSetup as [[|]|error].
  - destruct (proj1 Htrue eq_refl) as (first & Hfirst & Hok).
    destruct (fetchPosts_sent config 1 (sent ++ [GET (getApiUrl config "types/cf_tool")]))
      as (listing & Hsent2 & Hloaded).
    destruct (fetchPosts fetch readPosts config 1 _) as [loaded sent2].
    cbn [fst snd] in Hsent2, Hloaded. subst sent2.
    rewrite length_app in Hloaded. cbn [List.length] in Hloaded.
    rewrite Nat.add_1_r in Hloaded.
    destruct loaded as [[posts totalPages]|error].
    + destruct (Hloaded _ eq_refl) as (second & Hsecond & Hok2 & Hread).
      destruct (saveConfig config) eqn:Hsave.
      * cbn [at_time map dispatchAll App.appReducer].
        destruct (opportunityScoreCache.getScores quota now item).
        cbn. split; [discriminate|]. split.
        { intros response Hr H404. rewrite Hfirst in Hr. injection Hr as <-.
          unfold ok in Hok. rewrite H404 in Hok. discriminate Hok. }
        intros posts' pages' [H|[H|[]]]; [discriminate H|].
        injection H as <- <-. split; [reflexivity|]. split; [reflexivity|].
        exists listing, first, second. rewrite <- app_assoc. now repeat split.
      * cbn. split; [discriminate|]. split.
        { intros response Hr H404. rewrite Hfirst in Hr. injection Hr as <-.
          unfold ok in Hok. rewrite H404 in Hok. discriminate Hok. }
        intros posts' pages' [H|[H|[]]]; discriminate H.
    + cbn. split; [discriminate|]. split.
      { intros response Hr H404. rewrite Hfirst in Hr. injection Hr as <-.
        unfold ok in Hok. rewrite H404 in Hok. discriminate Hok. }
      intros posts' pages' [H|[H|[]]]; discriminate H.
  - cbn. split; [discriminate|]. split; [now repeat split|].
    intros posts' pages' [H|[H|[]]]; discriminate H.
  - cbn. split; [discriminate|]. split.
    + intros response Hr H404.
      assert (H : @Throw bool error = Ok false)
        by (apply Hfalse; now exists response).
      discriminate H.
    + intros posts' pages' [H|[H|[]]]; discriminate H.
Qed.

End ConnectionFacts.

Lemma connectToWordPress_spec_witness :
  App.setupRequired
    (fst (dispatchAll unlimited
            (at_time 0 [App.CONNECT_START; App.SETUP_REQUIRED site])
            App.initialState opportunityScoreCache.Absent))
  = true.
Proof.
  pose proof (connectToWordPress_spec bareSite noPosts (fun _ => true)
                (mkError "full") unlimited 0 App.initialState
                opportunityScoreCache.Absent site [] None) as H.
  cbv beta iota zeta delta [connectToWordPress checkSetup checkSetupTry send
                              bareSite resp_status Z.eqb Pos.eqb app
                              Datatypes.length] in H.
  destruct H as (_ & H & _).
  exact (proj1 (proj2 (proj2 (proj2 (H _ eq_refl eq_refl))))).
Defined.

(** ** Loading more posts *)

Section MorePosts.

Variable fetch : nat -> Request -> result Response.
Variable readPosts : Response -> result (list App.WordPressPost * Z).
Variable quota : opportunityScoreCache.ScoreCache -> bool.


End MorePosts.

(** ** Validating a key *)




Section ValidationFacts.

Variable generateContent : nat -> result value.
Variable fetch : nat -> result Response.
Variable saveKeys : (AiProvider -> string) -> bool.
Variable quotaError : JsError.
Variable quota : opportunityScoreCache.ScoreCache -> bool.


End ValidationFacts.


(** ** The cost of scoring *)

Lemma processBatch_calls JSON_parse generateContent fetch onProgress provider w :
  requests w + 1
  <= requests (snd (processBatch JSON_parse generateContent fetch onProgress
                      provider w))
  <= requests w + 4.
Proof.
  destruct (withRetry_trace sleep
              (scoreAttempt JSON_parse generateContent fetch onProgress provider)
              requests delays
              (fun w => proj1 (scoreAttempt_counts _ _ _ _ _ w))
              (fun w => proj2 (scoreAttempt_counts _ _ _ _ _ w))
              (fun d w => eq_refl) (fun d w => eq_refl) 3 1000%Z w)
    as (k & Hk & Hc & _).
  unfold processBatch.
  destruct (withRetry _ _ _ _ _) as [[[]|e] w']; cbn [snd] in *;
    [|destruct w'; cbn [requests logError] in *]; lia.
Qed.

Lemma list_sum_bounds (l : list nat) (lo hi : nat) :
  Forall (fun c => lo <= c <= hi) l ->
  lo * List.length l <= list_sum l <= hi * List.length l.
Proof.
  induction 1 as [|c l Hc _ IH]; cbn [list_sum fold_right List.length].
  - rewrite !Nat.mul_0_r. lia.
  - rewrite !Nat.mul_succ_r. unfold list_sum in IH. lia.
Qed.

(** X29. What scoring costs: when [getOpportunityScores] has resolved,
    every batch of eight posts (the last one may be smaller) has made at
    least one and at most four calls of the provider, so that scoring [n]
    posts takes between [ceil(n/8)] and [4 * ceil(n/8)] calls, in every
    execution and whatever the provider answers. *)
Theorem getOpportunityScores_cost
    (JSON_parse : string -> result json) (provider : AiProvider)
    (generateContentOf : nat -> nat -> result value)
    (fetchOf : nat -> nat -> result Response)
    (onProgress : json -> option JsError) (posts : list WordPressPost)
    (final : Pool) :
  getOpportunityScores JSON_parse provider generateContentOf fetchOf onProgress
    posts final ->
  let batches := (List.length posts + 7) / 8 in
  let calls :=
    map (fun k => requests (snd (worker JSON_parse provider generateContentOf
                                   fetchOf onProgress k)))
        (completed final) in
  List.length calls = batches
  /\ Forall (fun c => 1 <= c <= 4) calls
  /\ batches <= list_sum calls <= 4 * batches.
Proof.
  intros [Hreach Hfinished]. cbn zeta.
  pose proof (reachable_invariant _ _ _ _ _ _ _ Hreach) as Hinv.
  destruct (finished_complete _ _ _ _ _ _ final Hinv Hfinished)
    as (_ & _ & _ & Hperm).
  assert (Hlen : List.length
                   (map (fun k => requests (snd (worker JSON_parse provider
                                                   generateContentOf fetchOf
                                                   onProgress k)))
                        (completed final))
                 = (List.length posts + 7) / 8).
  { rewrite length_map, (Permutation_length Hperm), length_seq.
    apply postBatches_length. }
  assert (Hall : Forall (fun c => 1 <= c <= 4)
                   (map (fun k => requests (snd (worker JSON_parse provider
                                                   generateContentOf fetchOf
                                                   onProgress k)))
                        (completed final))).
  { apply Forall_map, Forall_forall. intros k _. unfold worker.
    pose proof (processBatch_calls JSON_parse (generateContentOf k) (fetchOf k)
                  onProgress provider world0) as H.
    cbn [requests world0] in H. lia. }
  split; [exact Hlen|]. split; [exact Hall|].
  pose proof (list_sum_bounds _ 1 4 Hall) as H. rewrite Hlen in H. lia.
Qed.

Lemma getOpportunityScores_cost_witness :
  list_sum
    (map (fun k => requests (snd (worker JSON.parse OpenAI strayProvider offline
                                    quiet k))) [0])
  <= 4 * ((List.length [post 1] + 7) / 8).
Proof.
  refine (proj2 (proj2 (proj2
            (getOpportunityScores_cost JSON.parse OpenAI strayProvider offline
               quiet [post 1]
               {| queue := []; activeWorkers := []; running := [];
                  completed := [0]; main := Finished; seen := []; logged := 1 |}
               _)))).
  split; [|reflexivity].
  exists [MainStep; WorkerDone 0; WorkerSettled 0; MainStep; MainStep].
  vm_compute. reflexivity.
Defined.

(** ** Inserting from the dialog *)

(** X30. An insertion started in the dialog always ends: with an idea
    selected, after [handleInsert] the dialog is in the success state when
    the insertion succeeded, and otherwise in the error state with a
    message.  When the editor holds nothing but fence markers, so that no
    code is left, no call is made to the site and the dialog shows that
    data is missing. *)
Theorem handleInsert_spec
    (createCfTool : nat -> string -> string -> result Z)
    (updatePost : nat -> Z -> string -> result (WordPressPost * option Z))
    (now : Z) (state : App.AppState) (post : App.WordPressPost)
    (idea : ToolIdea) (calls : list Call) (dialog : Modal.ModalState) :
  truthy (Modal.selectedIdea dialog) = true ->
  let insert := insertion createCfTool updatePost now state post idea calls in
  let final := Modal.dispatchAll (Modal.handleInsert dialog insert) dialog in
  let code := Modal.cleanCode (Modal.editedSnippet dialog) in
  (Modal.status final = Modal.Success
   /\ (exists action calls',
         insertSnippet createCfTool updatePost now state post code idea calls
         = (Ok action, calls'))
   \/ Modal.status final = Modal.Failed
      /\ (exists text, Modal.error final = Some text)
      /\ (exists e calls',
            insertSnippet createCfTool updatePost now state post code idea calls
            = (Throw e, calls')))
  /\ Modal.editedSnippet final = Modal.editedSnippet dialog
  /\ (code = "" ->
      Modal.status final = Modal.Failed
      /\ Modal.error final = Some "Missing required data to insert snippet."
      /\ snd (insertSnippet createCfTool updatePost now state post code idea calls)
         = calls).
Proof.
  intros Hidea. cbn zeta. unfold Modal.handleInsert, insertion.
  rewrite Hidea. cbn [negb].
  pose proof (proj2 (insertSnippet_missing createCfTool updatePost now state
                       post (Modal.cleanCode (Modal.editedSnippet dialog)) idea
                       calls)) as Hmissing.
  destruct (insertSnippet createCfTool updatePost now state post
              (Modal.cleanCode (Modal.editedSnippet dialog)) idea calls)
    as [[action|e] calls'] eqn:E; cbn.
  - split; [left; split; [reflexivity | now exists action, calls']|].
    split; [reflexivity|]. intros Hcode. specialize (Hmissing Hcode).
    discriminate Hmissing.
  - split.
    { right. split; [reflexivity|]. split; [now eexists | now exists e, calls']. }
    split; [reflexivity|]. intros Hcode. specialize (Hmissing Hcode).
    injection Hmissing as -> ->. now repeat split.
Qed.

Lemma handleInsert_spec_witness :
  Modal.error
    (Modal.dispatchAll
       (Modal.handleInsert fencesOnly
          (insertion newTool accepted 0 connected (fetched 7 "Budget") planner []))
       fencesOnly)
  = Some "Missing required data to insert snippet.".
Proof.
  destruct (handleInsert_spec newTool accepted 0 connected (fetched 7 "Budget")
              planner [] fencesOnly eq_refl) as (_ & _ & H).
  exact (proj1 (proj2 (H eq_refl))).
Defined.

(** ** The handlers on concrete inputs *)


Lemma refreshTool_spec_witness :
  exists oldTitle newSnippet,
    snd (refreshTool storedTool toolUpdated refreshed 5000 online 7 12 [])
    = [] ++ [FetchCfTool 12; UpdateCfTool 12 oldTitle newSnippet]
    /\ toolUpdated 1 12 oldTitle newSnippet = Ok tt.
Proof.
  exact (proj2 (proj2 (refreshTool_spec storedTool toolUpdated refreshed 5000
                         online 7 12 [])
                  5000%Z (or_intror (or_introl eq_refl)))).
Defined.

Lemma deleteSnippet_spec_witness :
  exists rest,
    snd (deleteSnippet accepted toolDeleted unchanged online 7 (Some 12%Z) [])
    = [] ++ DeleteCfTool 12 :: rest
    /\ ((forall r, toolDeleted 0 12 <> Ok r) -> rest = [])
    /\ (find (fun p => (App.id p =? 7)%Z) (App.posts online) = None -> rest = []).
Proof.
  refine (proj1 (deleteSnippet_spec accepted toolDeleted unchanged online 7
                   (Some 12%Z) []) 12%Z _ eq_refl _); discriminate.
Defined.

Lemma topOpportunity_spec_witness :
  exists score before after,
    App.opportunityScore (rated 2 "Garden" 90) = Some score
    /\ [rated 1 "Budget" 40; rated 2 "Garden" 90; rated 3 "Travel" 90]
       = before ++ rated 2 "Garden" 90 :: after.
Proof.
  destruct (proj2 (topOpportunity_spec false
                     [rated 1 "Budget" 40; rated 2 "Garden" 90;
                      rated 3 "Travel" 90])
              (rated 2 "Garden" 90) eq_refl)
    as (score & before & after & Hs & _ & Hposts & _).
  now exists score, before, after.
Defined.


Lemma checkSetup_spec_witness :
  fst (checkSetup secondPage site []) = Ok true.
Proof.
  apply (proj1 (proj2 (checkSetup_spec secondPage site []))).
  eexists. split; reflexivity.
Defined.

Lemma getOpportunityScores_nothing_to_do_witness :
  getOpportunityScores JSON.parse OpenAI strayProvider offline quiet []
    idlePool.
Proof.
  exact (proj2 (getOpportunityScores_nothing_to_do JSON.parse OpenAI
                  strayProvider offline quiet)).
Defined.
